(** * vsfs: a shallow embedding of the formatter (mkfs.c) and of the
      operations engine (vsfs.c) over a byte-addressed disk image.

    The C code works on one memory-mapped image and reaches every structure
    (superblock, bitmaps, inode table, directory and file blocks) by pointer
    arithmetic from the image base.  The embedding keeps that view: the image
    is a map from byte offsets to bytes, every structure field is a
    little-endian integer at a computed offset, and every C function becomes a
    function from images to a result and a new image.  Aliasing between file
    data and metadata is therefore visible, as it is in the C program.

    Conventions.
    - A pointer into the image is its offset from the image base.  The image
      is total: the C code never checks an offset against the mapped size,
      and neither does the embedding.  A statement about a call therefore
      describes the C program as long as the offsets the call touches lie
      inside the mapping; where the layout of the image does not confine
      them, the statement carries that as a hypothesis.
    - Fixed-width C integers are values of [Z]; every conversion and every
      operation that can wrap is written with [u32], [u64], [s32] or [s64].
    - A call of [clock_gettime] is an extra argument holding the reading.
    - A result of type [option] is [None] where the C code reads a variable
      that was never assigned, dereferences NULL, fails an assertion, or
      calls a function of bitmap.h outside its stated precondition. *)

From Stdlib Require Import ZArith List Bool Lia.
From Stdlib.Strings Require Import Byte.
Import ListNotations.
Local Open Scope Z_scope.

(** * Part I: the embedding *)

(** ** Bytes and C integers *)

Definition byte_val (b : byte) : Z := Z.of_N (Byte.to_N b).

Definition byte_of (z : Z) : byte :=
  match Byte.of_N (Z.to_N (z mod 256)) with
  | Some b => b
  | None => x00
  end.

Definition byte_eqb (a b : byte) : bool := Byte.eqb a b.

(** Conversions between C integer types, with the wrap-around written out. *)
Definition u32 (z : Z) : Z := z mod 2 ^ 32.
Definition u64 (z : Z) : Z := z mod 2 ^ 64.
Definition s64 (z : Z) : Z :=
  let v := z mod 2 ^ 64 in if v <? 2 ^ 63 then v else v - 2 ^ 64.
Definition s32 (z : Z) : Z :=
  let v := z mod 2 ^ 32 in if v <? 2 ^ 31 then v else v - 2 ^ 32.

(** util.h: [div_round_up(uint32_t x, uint32_t y)]; both arguments and the
    sum are 32-bit unsigned. *)
Definition div_round_up (x y : Z) : Z := u32 (u32 x + u32 y - 1) / u32 y.

(** util.h: [is_powerof2(size_t x)]; [size_t] is 64 bits wide on the host
    the bitmaps assume. *)
Definition is_powerof2 (x : Z) : bool :=
  Z.land (u64 x) (u64 (u64 x - 1)) =? 0.

(** [is_aligned(x, alignment)]; [None] is the failed assertion. *)
Definition is_aligned (x alignment : Z) : option bool :=
  if negb (is_powerof2 alignment) then None
  else Some (Z.land (u64 x) (u64 (u64 alignment - 1)) =? 0).

(** [align_up(x, alignment)]; [None] is the failed assertion. *)
Definition align_up (x alignment : Z) : option Z :=
  if negb (is_powerof2 alignment) then None
  else Some (Z.land (u64 (u64 x + u64 alignment - 1))
                    (u64 (u64 (Z.lnot (u64 alignment)) + 1))).

(** ** The mapped image *)

Definition image := Z -> byte.

Definition in_range (a n x : Z) : bool := (a <=? x) && (x <? a + n).

(** [memset(image + a, c, n)] *)
Definition memset (m : image) (a : Z) (c : byte) (n : Z) : image :=
  fun x => if in_range a n x then c else m x.

(** [memcpy(image + a, src, n)], the source being a buffer outside the image *)
Definition memcpy_in (m : image) (a : Z) (src : list byte) (n : Z) : image :=
  fun x => if in_range a n x then nth (Z.to_nat (x - a)) src x00 else m x.

(** [memcpy(dst, image + a, n)]: the bytes received by the outside buffer *)
Definition memcpy_out (m : image) (a : Z) (n : Z) : list byte :=
  map (fun i => m (a + Z.of_nat i)) (seq 0 (Z.to_nat n)).

(** Little-endian unsigned integers of [n] bytes. *)
Fixpoint load_le (n : nat) (m : image) (a : Z) : Z :=
  match n with
  | O => 0
  | S k => byte_val (m a) + 256 * load_le k m (a + 1)
  end.

Definition store_le (n : Z) (m : image) (a v : Z) : image :=
  fun x => if in_range a n x then byte_of (v / 256 ^ (x - a)) else m x.

Definition load_u32 := load_le 4.
Definition load_u64 := load_le 8.
Definition store_u32 := store_le 4.
Definition store_u64 := store_le 8.

(** ** C strings held outside the image (paths) *)

(** A path is a list of bytes read as a C string: it ends at the first NUL,
    or at the end of the list. *)
Definition slash : byte := x2f.

Fixpoint strlen (s : list byte) : Z :=
  match s with
  | [] => 0
  | c :: s' => if byte_eqb c x00 then 0 else 1 + strlen s'
  end.

(** The characters of the string, terminator excluded. *)
Fixpoint cstr (s : list byte) : list byte :=
  match s with
  | [] => []
  | c :: s' => if byte_eqb c x00 then [] else c :: cstr s'
  end.

(** [strcmp(s, (char * )(image + a)) == 0] *)
Fixpoint strcmp_mem (m : image) (a : Z) (s : list byte) : bool :=
  match s with
  | [] => byte_eqb (m a) x00
  | c :: s' =>
      if byte_eqb c x00 then byte_eqb (m a) x00
      else byte_eqb (m a) c && strcmp_mem m (a + 1) s'
  end.

(** [strlen((char * )(image + a))], looking at no more than [fuel] bytes. *)
Fixpoint strlen_mem (fuel : nat) (m : image) (a : Z) : Z :=
  match fuel with
  | O => 0
  | S k => if byte_eqb (m a) x00 then 0 else 1 + strlen_mem k m (a + 1)
  end.

(** [strcmp(path, "/") == 0] *)
Definition is_root_path (path : list byte) : bool :=
  match cstr path with
  | [c] => byte_eqb c slash
  | _ => false
  end.

(** [strrchr(path, '/') + 1]: the characters after the last slash, or [None]
    when [strrchr] returns NULL. *)
Fixpoint after_last_slash (s : list byte) : option (list byte) :=
  match s with
  | [] => None
  | c :: s' =>
      match after_last_slash s' with
      | Some l => Some l
      | None => if byte_eqb c slash then Some s' else None
      end
  end.

Definition leaf_name (path : list byte) : option (list byte) :=
  after_last_slash (cstr path).

(** ** Loops *)

(** [first_slot p n i]: the first index among [i, i+1, ..., i+n-1] that
    satisfies [p]; the shape of every scan over directory slots or bits. *)
Fixpoint first_slot (p : Z -> bool) (n : nat) (i : Z) : option Z :=
  match n with
  | O => None
  | S k => if p i then Some i else first_slot p k (i + 1)
  end.

(** [iterate n step s] runs [step] until it answers [inr], for at most
    [2 ^ n] rounds; used for the loop whose bound is re-read from the image
    at every round. *)
Fixpoint iterate {S R : Type} (n : nat) (step : S -> S + R) (s : S) : S + R :=
  match n with
  | O => step s
  | Datatypes.S k =>
      match iterate k step s with
      | inl s' => iterate k step s'
      | inr r => inr r
      end
  end.

(** The same loop counted in unary: at most [k] rounds, [inl] when the loop
    has not finished by then.  [iterate n] is [run (2 ^ n)]. *)
Fixpoint run {S R : Type} (k : nat) (step : S -> S + R) (s : S) : S + R :=
  match k with
  | O => inl s
  | Datatypes.S k' =>
      match step s with
      | inl s' => run k' step s'
      | inr r => inr r
      end
  end.

(** ** Constants of the on-disk format *)

(** Modelled from the spec: vsfs.h is not among the sources.  Section 3 of
    the specification fixes the block size, the root inode number and the
    block numbers of the fixed regions. *)
Definition VSFS_BLOCK_SIZE : Z := 4096.
Definition VSFS_SB_BLKNUM : Z := 0.
Definition VSFS_IMAP_BLKNUM : Z := 1.
Definition VSFS_DMAP_BLKNUM : Z := 2.
Definition VSFS_ITBL_BLKNUM : Z := 3.
Definition VSFS_ROOT_INO : Z := 0.

(** The remaining constants of vsfs.h are named by the specification without
    a value; they are parameters of the development. *)
Record params : Type := {
  VSFS_MAGIC : Z;
  VSFS_INO_MAX : Z;
  VSFS_NAME_MAX : Z;
  VSFS_PATH_MAX : Z;
  VSFS_NUM_DIRECT : Z;
  VSFS_BLK_MIN : Z;
  VSFS_BLK_MAX : Z;
  INODE_SIZE : Z   (* sizeof(vsfs_inode) *)
}.

(** errno.h and sys/stat.h (Linux values). *)
Definition ENOENT : Z := 2.
Definition ENOMEM : Z := 12.
Definition EFBIG : Z := 27.
Definition ENOSPC : Z := 28.
Definition ENAMETOOLONG : Z := 36.
Definition S_IFMT : Z := 61440.    (* 0170000 *)
Definition S_IFDIR : Z := 16384.   (* 0040000 *)
Definition S_IFREG : Z := 32768.   (* 0100000 *)
Definition S_ISREG (mode : Z) : bool := Z.land mode S_IFMT =? S_IFREG.

(** [struct timespec]: seconds and nanoseconds, two signed 64-bit fields. *)
Definition timespec : Type := Z * Z.

(** ** Bitmaps *)

(** Modelled from the spec: bitmap.c is not among the sources (bitmap.h only
    declares the functions).  Section 4.1: bits are stored least significant
    first within each 64-bit machine word, which on the little-endian host puts
    bit [i] in byte [i / 8] at position [i mod 8]; [init] clears the first
    [nbits] bits and sets the remaining bits of the words it touches; [alloc]
    returns the smallest clear index below [nbits] and sets it, or is full;
    [free] clears a bit that is set; [set] writes a bit.  bitmap.h gives
    [nbits] and [index] the type [uint32_t], and states the precondition of
    [bitmap_free]: the index is below [nbits] and the bit is marked
    allocated. *)
Definition bitmap_isset (m : image) (b nbits index : Z) : bool :=
  Z.testbit (byte_val (m (b + index / 8))) (index mod 8).

Definition bitmap_set (m : image) (b nbits index : Z) (val : bool) : image :=
  let a := b + index / 8 in
  let old := byte_val (m a) in
  let bit := Z.shiftl 1 (index mod 8) in
  let new := if val then Z.lor old bit else Z.ldiff old bit in
  fun x => if x =? a then byte_of new else m x.

(** [None]: the precondition does not hold. *)
Definition bitmap_free (m : image) (b nbits index : Z) : option image :=
  if (index <? nbits) && bitmap_isset m b nbits index
  then Some (bitmap_set m b nbits index false)
  else None.

Definition bitmap_init (m : image) (b nbits : Z) : image :=
  let nbits := u32 nbits in
  let nwords := (nbits + 63) / 64 in
  fun x =>
    if in_range b (8 * nwords) x then
      let j := x - b in
      if 8 * j + 8 <=? nbits then x00
      else if nbits <=? 8 * j then xff
      else byte_of (Z.shiftl 255 (nbits mod 8))
    else m x.

Definition bitmap_alloc (m : image) (b nbits : Z) : option (Z * image) :=
  match first_slot (fun i => negb (bitmap_isset m b nbits i)) (Z.to_nat nbits) 0 with
  | Some i => Some (i, bitmap_set m b nbits i true)
  | None => None
  end.

(** ** On-disk layout *)

(** Modelled from the spec: the structure declarations of vsfs.h are not among
    the sources; the field offsets follow the byte-exact layout of section 6.
    Superblock: magic(8) size(8) num_inodes(4) free_inodes(4) num_blocks(4)
    free_blocks(4) data_region(4). *)
Definition SB_MAGIC : Z := 0.
Definition SB_SIZE : Z := 8.
Definition SB_NUM_INODES : Z := 16.
Definition SB_FREE_INODES : Z := 20.
Definition SB_NUM_BLOCKS : Z := 24.
Definition SB_FREE_BLOCKS : Z := 28.
Definition SB_DATA_REGION : Z := 32.

(** Inode record: mode(4) nlink(4) size(8) blocks(4) mtime_sec(8)
    mtime_nsec(8) direct[NUM_DIRECT](4 each) indirect(4). *)
Definition I_MODE : Z := 0.
Definition I_NLINK : Z := 4.
Definition I_SIZE : Z := 8.
Definition I_BLOCKS : Z := 16.
Definition I_MTIME : Z := 20.
Definition I_DIRECT : Z := 36.

(** Directory entry: inode(4) name[NAME_MAX+1]. *)
Definition D_INO : Z := 0.
Definition D_NAME : Z := 4.

Section Engine.

Variable P : params.

Definition I_INDIRECT : Z := I_DIRECT + 4 * VSFS_NUM_DIRECT P.
Definition DENTRY_SIZE : Z := 4 + (VSFS_NAME_MAX P + 1).
Definition NUM_DENTRIES : Z := VSFS_BLOCK_SIZE / DENTRY_SIZE.

(** Modelled from the spec: fs_ctx.c is not among the sources.  Section 4.3:
    the context holds views onto the superblock (block 0), the inode bitmap
    (block 1), the data bitmap (block 2) and the inode table (blocks 3 and
    up).  The views are offsets from the image base. *)
Definition fs_sb : Z := VSFS_SB_BLKNUM * VSFS_BLOCK_SIZE.
Definition fs_ibmap : Z := VSFS_IMAP_BLKNUM * VSFS_BLOCK_SIZE.
Definition fs_dbmap : Z := VSFS_DMAP_BLKNUM * VSFS_BLOCK_SIZE.
Definition fs_itable (ino : Z) : Z :=
  VSFS_ITBL_BLKNUM * VSFS_BLOCK_SIZE + ino * INODE_SIZE P.

(** Mount: fails when the magic is wrong or the recorded size disagrees with
    the mapped size. *)
Definition fs_ctx_init (m : image) (size : Z) : bool :=
  (load_u64 m (fs_sb + SB_MAGIC) =? VSFS_MAGIC P)
  && (load_u64 m (fs_sb + SB_SIZE) =? size).

(** Field access *)
Definition sb_magic (m : image) : Z := load_u64 m (fs_sb + SB_MAGIC).
Definition sb_size (m : image) : Z := load_u64 m (fs_sb + SB_SIZE).
Definition sb_num_inodes (m : image) : Z := load_u32 m (fs_sb + SB_NUM_INODES).
Definition sb_free_inodes (m : image) : Z := load_u32 m (fs_sb + SB_FREE_INODES).
Definition sb_num_blocks (m : image) : Z := load_u32 m (fs_sb + SB_NUM_BLOCKS).
Definition sb_free_blocks (m : image) : Z := load_u32 m (fs_sb + SB_FREE_BLOCKS).
Definition sb_data_region (m : image) : Z := load_u32 m (fs_sb + SB_DATA_REGION).

Definition i_mode (m : image) (inode : Z) : Z := load_u32 m (inode + I_MODE).
Definition i_nlink (m : image) (inode : Z) : Z := load_u32 m (inode + I_NLINK).
Definition i_size (m : image) (inode : Z) : Z := load_u64 m (inode + I_SIZE).
Definition i_blocks (m : image) (inode : Z) : Z := load_u32 m (inode + I_BLOCKS).
Definition i_mtime (m : image) (inode : Z) : timespec :=
  (s64 (load_u64 m (inode + I_MTIME)), s64 (load_u64 m (inode + I_MTIME + 8))).
Definition i_direct (m : image) (inode i : Z) : Z :=
  load_u32 m (inode + I_DIRECT + 4 * i).
Definition i_indirect (m : image) (inode : Z) : Z :=
  load_u32 m (inode + I_INDIRECT).

Definition set_mtime (m : image) (inode : Z) (t : timespec) : image :=
  store_u64 (store_u64 m (inode + I_MTIME) (fst t)) (inode + I_MTIME + 8) (snd t).

(** ** vsfs.c *)

(** [get_address(ino, offset)]: [inode] is the offset of the inode record in
    the image, [offset] a 32-bit unsigned parameter.  The product of a block
    number and the block size is taken in pointer-width arithmetic. *)
Definition get_address (m : image) (inode : Z) (offset : Z) : Z :=
  let offset := u32 offset in
  let block_num := offset / VSFS_BLOCK_SIZE in
  let entry :=
    if VSFS_NUM_DIRECT P <=? block_num then
      load_u32 m (i_indirect m inode * VSFS_BLOCK_SIZE
                  + 4 * (block_num - VSFS_NUM_DIRECT P))
    else i_direct m inode block_num in
  entry * VSFS_BLOCK_SIZE + offset mod VSFS_BLOCK_SIZE.

Definition get_dir_entry (m : image) (inode : Z) (i : Z) : Z :=
  get_address m inode (i * DENTRY_SIZE).

Definition dentry_ino (m : image) (i : Z) : Z :=
  load_u32 m (get_dir_entry m (fs_itable 0) i + D_INO).

Definition dentry_name (m : image) (i : Z) : Z :=
  get_dir_entry m (fs_itable 0) i + D_NAME.

(** The test of the directory scans of [path_lookup] and [vsfs_unlink]. *)
Definition name_matches (m : image) (path : list byte) (i : Z) : bool :=
  negb (dentry_ino m i =? VSFS_INO_MAX P)
  && strcmp_mem m (dentry_name m i) (tl path).

(** [path_lookup] has three outcomes: 0 with the inode number stored; -1 with
    [VSFS_INO_MAX] stored; -1 with the output left untouched. *)
Inductive lookup : Type :=
| Found (ino : Z)
| NotFound
| NotAbsolute.

Definition path_lookup (m : image) (path : list byte) : lookup :=
  if negb (byte_eqb (hd x00 path) slash) then NotAbsolute
  else if is_root_path path then Found VSFS_ROOT_INO
  else
    match first_slot (name_matches m path) (Z.to_nat NUM_DENTRIES) 0 with
    | Some i => Found (dentry_ino m i)
    | None => NotFound
    end.

Definition lookup_ret (r : lookup) : Z :=
  match r with Found _ => 0 | _ => -1 end.

(** The value of the caller's [ino] variable after the call; [None] when it
    was left uninitialised. *)
Definition lookup_ino (r : lookup) : option Z :=
  match r with
  | Found ino => Some ino
  | NotFound => Some (VSFS_INO_MAX P)
  | NotAbsolute => None
  end.



Record stat : Type := {
  st_mode : Z; st_nlink : Z; st_size : Z; st_blocks : Z; st_mtim : timespec
}.

Definition stat_zero : stat :=
  {| st_mode := 0; st_nlink := 0; st_size := 0; st_blocks := 0;
     st_mtim := (0, 0) |}.

(** [vsfs_getattr(path, st)]: the result and the contents of [*st]. *)
Definition vsfs_getattr (m : image) (path : list byte) (st : stat) : Z * stat :=
  if (VSFS_PATH_MAX P <=? strlen path) || (VSFS_NAME_MAX P + 1 <=? strlen path)
  then (- ENAMETOOLONG, st)
  else
    match path_lookup m path with
    | Found ino =>
        let inode := fs_itable ino in
        (0, {| st_mode := i_mode m inode;
               st_nlink := i_nlink m inode;
               st_size := s64 (i_size m inode);
               st_blocks := div_round_up (i_size m inode) 512;
               st_mtim := i_mtime m inode |})
    | _ => (- ENOENT, stat_zero)
    end.

(** [vsfs_readdir]: [filler] receives the caller's buffer and a name offset
    and answers whether the buffer is full.  [None] is the failed assertion. *)
Fixpoint readdir_loop {B : Type} (filler : B -> image -> Z -> bool * B)
    (m : image) (n : nat) (i : Z) (buf : B) : Z * B :=
  match n with
  | O => (0, buf)
  | S k =>
      if negb (dentry_ino m i =? VSFS_INO_MAX P) then
        let '(is_full, buf') := filler buf m (dentry_name m i) in
        if is_full then (- ENOMEM, buf')
        else readdir_loop filler m k (i + 1) buf'
      else readdir_loop filler m k (i + 1) buf
  end.

Definition vsfs_readdir {B : Type} (filler : B -> image -> Z -> bool * B)
    (m : image) (path : list byte) (buf : B) : option (Z * B) :=
  if negb (is_root_path path) then None
  else Some (readdir_loop filler m (Z.to_nat NUM_DENTRIES) 0 buf).

(** [strcpy(image + dst, s)]: the characters of [s] and the terminator. *)
Definition strcpy (m : image) (dst : Z) (s : list byte) : image :=
  memcpy_in m dst (cstr s ++ [x00]) (strlen s + 1).

(** [strncpy(image + dst, s, n)]: the characters of [s], then NULs up to [n]
    bytes ([s] shorter than [n]). *)
Definition strncpy (m : image) (dst : Z) (s : list byte) (n : Z) : image :=
  memcpy_in m dst (cstr s) n.

(** [vsfs_create(path, mode, fi)].  [now_i] and [now_p] are the two readings
    of the real-time clock; [None] is a failed assertion or the use of the
    NULL result of [strrchr]. *)
Definition vsfs_create (m : image) (path : list byte) (mode : Z)
    (now_i now_p : timespec) : option (Z * image) :=
  if negb (S_ISREG mode) then None
  else if sb_free_inodes m =? 0 then Some (- ENOSPC, m)
  else
    match bitmap_alloc m fs_ibmap (sb_num_inodes m) with
    | None => Some (- ENOSPC, m)
    | Some (new_ino, m) =>
        let m := bitmap_set m fs_ibmap (sb_num_inodes m) new_ino true in
        let new_inode := fs_itable new_ino in
        let m := memset m new_inode x00 (INODE_SIZE P) in
        let m := store_u32 m (fs_sb + SB_FREE_INODES) (sb_free_inodes m - 1) in
        let m := store_u64 m (new_inode + I_SIZE) 0 in
        let m := store_u32 m (new_inode + I_BLOCKS) 0 in
        let m := store_u32 m (new_inode + I_MODE) mode in
        let m := store_u32 m (new_inode + I_NLINK) 1 in
        let m := set_mtime m new_inode now_i in
        match first_slot (fun i => dentry_ino m i =? VSFS_INO_MAX P)
                         (Z.to_nat NUM_DENTRIES) 0 with
        | Some i =>
            let dir_entry := get_dir_entry m (fs_itable 0) i in
            let m := store_u32 m (dir_entry + D_INO) new_ino in
            match leaf_name path with
            | None => None
            | Some leaf =>
                let m := strcpy m (dir_entry + D_NAME) leaf in
                let m := set_mtime m (fs_itable 0) now_p in
                Some (0, m)
            end
        | None => Some (- ENOSPC, m)
        end
    end.

(** One round of the block-freeing loop of [vsfs_unlink]: the bound
    [inode->i_blocks] is read from the image at every round.  The loop ends
    with [Some] image, or with [None] when [bitmap_free] is called outside
    its precondition. *)
Definition unlink_free_step (inode : Z) (s : Z * image)
    : (Z * image) + option image :=
  let '(i, m) := s in
  if i <? i_blocks m inode then
    match bitmap_free m fs_dbmap (sb_num_blocks m) (i_direct m inode i) with
    | None => inr None
    | Some m =>
        let m := store_u32 m (fs_sb + SB_FREE_BLOCKS) (sb_free_blocks m + 1) in
        inl (i + 1, m)
    end
  else inr (Some m).

(** The test [inode->i_nlink == 0] of [vsfs_unlink] and its branch. *)
Definition unlink_free_inode (inode ino : Z) (m : image) : option image :=
  if i_nlink m inode =? 0 then
    match bitmap_free m fs_ibmap (sb_num_inodes m) (u32 ino) with
    | None => None
    | Some m =>
        Some (store_u32 m (fs_sb + SB_FREE_INODES) (sb_free_inodes m + 1))
    end
  else Some m.

(** [vsfs_unlink(path)].  [None]: the inode number was never initialised
    (path not absolute), or [bitmap_free] was called outside its
    precondition.  The counter of the loop is a 32-bit unsigned below a
    32-bit bound, so [2 ^ 33] rounds always suffice. *)
Definition vsfs_unlink (m : image) (path : list byte) (now : timespec)
    : option (Z * image) :=
  match lookup_ino (path_lookup m path) with
  | None => None
  | Some ino =>
      let inode := fs_itable ino in
      let m := store_u32 m (inode + I_NLINK) (i_nlink m inode - 1) in
      match unlink_free_inode inode ino m with
      | None => None
      | Some m =>
          match iterate 33 (unlink_free_step inode) (0, m) with
          | inl _ => None
          | inr None => None
          | inr (Some m) =>
              match first_slot (name_matches m path)
                      (Z.to_nat NUM_DENTRIES) 0 with
              | Some i =>
                  let dir_entry := get_dir_entry m (fs_itable 0) i in
                  let len := strlen_mem (length path) m (dir_entry + D_NAME) in
                  let m := memset m dir_entry x00 len in
                  let m := store_u32 m (dir_entry + D_INO) (VSFS_INO_MAX P) in
                  let m := set_mtime m (fs_itable 0) now in
                  Some (0, m)
              | None => Some (0, m)
              end
          end
      end
  end.

Definition UTIME_NOW : Z := 2 ^ 30 - 1.
Definition UTIME_OMIT : Z := 2 ^ 30 - 2.

(** [vsfs_utimens(path, times)]: [mtime] is [times[1]]. *)
Definition vsfs_utimens (m : image) (path : list byte) (mtime : timespec)
    (now : timespec) : option (Z * image) :=
  if snd mtime =? UTIME_OMIT then Some (0, m)
  else
    match lookup_ino (path_lookup m path) with
    | None => None
    | Some ino_num =>
        let ino := fs_itable ino_num in
        if snd mtime =? UTIME_NOW then Some (0, set_mtime m ino now)
        else Some (0, set_mtime m ino mtime)
    end.

(** The allocation loop of [vsfs_truncate]; [false] when [bitmap_alloc]
    fails.  The block number found is not stored anywhere. *)
Fixpoint truncate_alloc (n : nat) (m : image) : bool * image :=
  match n with
  | O => (true, m)
  | S k =>
      match bitmap_alloc m fs_dbmap (sb_num_blocks m) with
      | None => (false, m)
      | Some (block_num, m) =>
          let m := bitmap_set m fs_dbmap (sb_num_blocks m) block_num true in
          let m := store_u32 m (fs_sb + SB_FREE_BLOCKS) (sb_free_blocks m - 1) in
          truncate_alloc k m
      end
  end.

(** The freeing loop of [vsfs_truncate], [i] counting up; [None] when
    [bitmap_free] is called outside its precondition. *)
Fixpoint truncate_free (n : nat) (i : Z) (ino : Z) (m : image) : option image :=
  match n with
  | O => Some m
  | S k =>
      match bitmap_free m fs_dbmap (sb_num_blocks m)
              (i_direct m ino (VSFS_NUM_DIRECT P - 1 - i)) with
      | None => None
      | Some m =>
          let m := store_u32 m (fs_sb + SB_FREE_BLOCKS) (sb_free_blocks m + 1) in
          truncate_free k (i + 1) ino m
      end
  end.

(** The two branches of [vsfs_truncate] after the zero fill: the result is
    whether every allocation succeeded, and the image. *)
Definition truncate_blocks (ino block_size : Z) (m : image)
    : option (bool * image) :=
  if i_blocks m ino <? block_size then
    let d := block_size - i_blocks m ino in
    let num_to_allocate :=
      if VSFS_NUM_DIRECT P <? d then VSFS_NUM_DIRECT P else d in
    Some (truncate_alloc (Z.to_nat num_to_allocate) m)
  else
    let d := i_blocks m ino - block_size in
    let num_to_free :=
      if VSFS_NUM_DIRECT P <? d then VSFS_NUM_DIRECT P else d in
    match truncate_free (Z.to_nat num_to_free) 0 ino m with
    | None => None
    | Some m => Some (true, m)
    end.

(** [vsfs_truncate(path, size)], [size] an [off_t].  [None]: the inode
    number was never initialised, or [bitmap_free] was called outside its
    precondition. *)
Definition vsfs_truncate (m : image) (path : list byte) (size : Z)
    (now : timespec) : option (Z * image) :=
  let block_size := div_round_up size VSFS_BLOCK_SIZE in
  if VSFS_NUM_DIRECT P + VSFS_BLOCK_SIZE / 4 <? block_size
  then Some (- EFBIG, m)
  else
    match lookup_ino (path_lookup m path) with
    | None => None
    | Some ino_num =>
        let ino := fs_itable ino_num in
        if u64 size =? i_size m ino then Some (0, m)
        else
          let m :=
            if i_size m ino <? u64 size
            then memset m (get_address m ino (i_size m ino)) x00
                        (u64 (size - i_size m ino))
            else m in
          match truncate_blocks ino block_size m with
          | None => None
          | Some (false, m) => Some (- ENOSPC, m)
          | Some (true, m) =>
              let m := store_u64 m (ino + I_SIZE) size in
              let m := store_u32 m (ino + I_BLOCKS) block_size in
              let m := set_mtime m ino now in
              Some (0, m)
          end
    end.

(** [vsfs_read(path, buf, size, offset, fi)]: the result and the bytes copied
    into [buf]. *)
Definition vsfs_read (m : image) (path : list byte) (size offset : Z)
    : option (Z * list byte) :=
  match lookup_ino (path_lookup m path) with
  | None => None
  | Some ino =>
      let inode := fs_itable ino in
      if i_size m inode <? u64 offset then Some (0, [])
      else
        let size :=
          if i_size m inode <? u64 (u64 offset + size)
          then u64 (i_size m inode - offset) else size in
        Some (s32 size, memcpy_out m (get_address m inode offset) size)
  end.

(** [vsfs_write(path, buf, size, offset, fi)]; [now_t] is the clock reading
    inside [vsfs_truncate], [now] the one of the last statement. *)
Definition vsfs_write (m : image) (path : list byte) (buf : list byte)
    (size offset : Z) (now_t now : timespec) : option (Z * image) :=
  match lookup_ino (path_lookup m path) with
  | None => None
  | Some ino =>
      let inode := fs_itable ino in
      if i_size m inode <? u64 offset then Some (- EFBIG, m)
      else
        let r :=
          if i_size m inode <? u64 (u64 offset + size) then
            vsfs_truncate m path (s64 (offset + size)) now_t
          else
            let m := store_u64 m (inode + I_SIZE) (i_size m inode + size) in
            let m := store_u32 m (inode + I_BLOCKS)
                       (i_blocks m inode + div_round_up size VSFS_BLOCK_SIZE) in
            Some (0, m) in
        match r with
        | None => None
        | Some (res, m) =>
            if res <? 0 then Some (res, m)
            else
              let m := memcpy_in m (get_address m inode offset) buf size in
              let m := set_mtime m inode now in
              Some (s32 size, m)
        end
  end.

(** The entries of the operations table [vsfs_ops] that store into the
    image, each with the arguments and the clock readings of one call; the
    other operations defined in vsfs.c ([vsfs_statfs], [vsfs_getattr],
    [vsfs_readdir], [vsfs_read]) only read it. *)
Inductive call : Type :=
| Op_create (path : list byte) (mode : Z) (now_i now_p : timespec)
| Op_unlink (path : list byte) (now : timespec)
| Op_utimens (path : list byte) (mtime now : timespec)
| Op_truncate (path : list byte) (size : Z) (now : timespec)
| Op_write (path buf : list byte) (size offset : Z) (now_t now : timespec).

Definition perform (c : call) (m : image) : option (Z * image) :=
  match c with
  | Op_create path mode now_i now_p => vsfs_create m path mode now_i now_p
  | Op_unlink path now => vsfs_unlink m path now
  | Op_utimens path mtime now => vsfs_utimens m path mtime now
  | Op_truncate path size now => vsfs_truncate m path size now
  | Op_write path buf size offset now_t now =>
      vsfs_write m path buf size offset now_t now
  end.

(** ** mkfs.c *)

(** [vsfs_is_present(image)] *)
Definition vsfs_is_present (m : image) : bool :=
  sb_magic m =? VSFS_MAGIC P.

(** The loop that marks the inode-table blocks allocated. *)
Fixpoint mark_itable (n : nat) (i : Z) (nblks : Z) (m : image) : image :=
  match n with
  | O => m
  | S k =>
      mark_itable k (i + 1) nblks
        (bitmap_set m fs_dbmap nblks (u32 (VSFS_DMAP_BLKNUM + 1 + i)) true)
  end.

(** The loop that marks the remaining directory entries unused. *)
Fixpoint clear_entries (n : nat) (i : Z) (root_entries : Z) (m : image) : image :=
  match n with
  | O => m
  | S k =>
      clear_entries k (i + 1) root_entries
        (store_u32 m (root_entries + i * DENTRY_SIZE + D_INO) (VSFS_INO_MAX P))
  end.

Definition dot : list byte := [x2e].
Definition dotdot : list byte := [x2e; x2e].

(** [mkfs(image, size, opts)]: [n_inodes] is [opts->n_inodes]; [clock] is the
    reading of the real-time clock, [None] when [clock_gettime] fails. *)
Definition mkfs (m : image) (size : Z) (n_inodes : Z) (clock : option timespec)
    : bool * image :=
  let nblks := u32 (size / VSFS_BLOCK_SIZE) in
  let inodes_per_block := u32 (VSFS_BLOCK_SIZE / INODE_SIZE P) in
  if VSFS_INO_MAX P <=? n_inodes then (false, m)
  else if (VSFS_BLK_MAX P <? nblks) || (nblks <? VSFS_BLK_MIN P) then (false, m)
  else
    let m := memset m fs_ibmap xff VSFS_BLOCK_SIZE in
    let m := bitmap_init m fs_ibmap n_inodes in
    let m := memset m fs_dbmap xff VSFS_BLOCK_SIZE in
    let m := bitmap_init m fs_dbmap nblks in
    let m := bitmap_set m fs_dbmap nblks VSFS_SB_BLKNUM true in
    let m := bitmap_set m fs_dbmap nblks VSFS_IMAP_BLKNUM true in
    let m := bitmap_set m fs_dbmap nblks VSFS_DMAP_BLKNUM true in
    let ino_table_size := div_round_up n_inodes inodes_per_block in
    let m := mark_itable (Z.to_nat ino_table_size) 0 nblks m in
    let m := bitmap_set m fs_ibmap n_inodes VSFS_ROOT_INO true in
    let root_ino := fs_itable VSFS_ROOT_INO in
    match clock with
    | None => (false, m)
    | Some now =>
        let m := set_mtime m root_ino now in
        let m := store_u32 m (root_ino + I_MODE) (Z.lor S_IFDIR 511) in
        let m := store_u32 m (root_ino + I_NLINK) 2 in
        let m := store_u64 m (root_ino + I_SIZE) VSFS_BLOCK_SIZE in
        let m := store_u32 m (root_ino + I_BLOCKS) 1 in
        match bitmap_alloc m fs_dbmap nblks with
        | None => (false, m)
        | Some (blk, m) =>
            let m := store_u32 m (root_ino + I_DIRECT) blk in
            let root_entries := i_direct m root_ino 0 * VSFS_BLOCK_SIZE in
            let m := store_u32 m (root_entries + D_INO) VSFS_ROOT_INO in
            let m := strncpy m (root_entries + D_NAME) dot (VSFS_NAME_MAX P + 1) in
            let m := store_u32 m (root_entries + DENTRY_SIZE + D_INO) VSFS_ROOT_INO in
            let m := strncpy m (root_entries + DENTRY_SIZE + D_NAME) dotdot
                       (VSFS_NAME_MAX P + 1) in
            let m := clear_entries
                       (Z.to_nat (div_round_up VSFS_BLOCK_SIZE DENTRY_SIZE - 2))
                       2 root_entries m in
            let m := store_u64 m (fs_sb + SB_MAGIC) (VSFS_MAGIC P) in
            let m := store_u64 m (fs_sb + SB_SIZE) size in
            let m := store_u32 m (fs_sb + SB_NUM_INODES) n_inodes in
            let m := store_u32 m (fs_sb + SB_FREE_INODES) (n_inodes - 1) in
            let m := store_u32 m (fs_sb + SB_NUM_BLOCKS) nblks in
            let m := store_u32 m (fs_sb + SB_FREE_BLOCKS)
                       (sb_num_blocks m - VSFS_DMAP_BLKNUM - ino_table_size - 2) in
            let m := store_u32 m (fs_sb + SB_DATA_REGION)
                       (VSFS_ITBL_BLKNUM + ino_table_size) in
            (true, m)
        end
    end.

(** The driver of mkfs.c after argument parsing and mapping: the check for an
    existing file system, the optional zeroing, the format.  The exit status
    is 0 on success; on the two failure paths [main] returns a variable that
    was never assigned, which is [None] here. *)
Definition mkfs_main (m : image) (size : Z) (n_inodes : Z) (force zero : bool)
    (clock : option timespec) : option Z * image :=
  if negb force && vsfs_is_present m then (None, m)
  else
    let m := if zero then memset m 0 x00 size else m in
    let '(ok, m) := mkfs m size n_inodes clock in
    if ok then (Some 0, m) else (None, m).

End Engine.

(** What the specification says of the unnamed constants: the magic is a
    64-bit value, the sentinel a 32-bit value, the names "." and ".." fit a
    name buffer and their two entries a block, an inode record holds its
    fields and a whole number of records fills a block, as does a whole
    number of directory entries, and the data bitmap (one block) has a bit
    for every block of the largest image. *)
Record params_ok (P : params) : Prop := {
  magic_range : 0 <= VSFS_MAGIC P < 2 ^ 64;
  ino_max_range : 0 < VSFS_INO_MAX P < 2 ^ 32;
  name_max_min : 2 <= VSFS_NAME_MAX P;
  dentry_divides : VSFS_BLOCK_SIZE mod DENTRY_SIZE P = 0;
  dentry_two : 2 * DENTRY_SIZE P <= VSFS_BLOCK_SIZE;
  num_direct_min : 1 <= VSFS_NUM_DIRECT P;
  inode_holds_fields : I_INDIRECT P + 4 <= INODE_SIZE P;
  inode_divides : VSFS_BLOCK_SIZE mod INODE_SIZE P = 0;
  blk_min_min : 0 <= VSFS_BLK_MIN P;
  blk_max_bits : VSFS_BLK_MAX P <= 8 * VSFS_BLOCK_SIZE
}.

(** ** An instance of the parameters, for concrete runs *)

(** A 64-byte inode with five direct pointers and a 256-byte directory entry;
    the sentinel inode number is the largest 32-bit value. *)
Definition std : params :=
  {| VSFS_MAGIC := 14250349802343852452;
     VSFS_INO_MAX := 4294967295;
     VSFS_NAME_MAX := 251;
     VSFS_PATH_MAX := 256;
     VSFS_NUM_DIRECT := 5;
     VSFS_BLK_MIN := 5;
     VSFS_BLK_MAX := 32768;
     INODE_SIZE := 64 |}.

(** An image of zero bytes. *)
Definition blank : image := fun _ => x00.

(** Byte lists from character codes, for paths and buffers. *)
Definition bytes_of (l : list Z) : list byte := map byte_of l.

(** ** Concrete runs *)

(** A one-mebibyte image formatted with 32 inodes, and images obtained from
    it by engine calls; used to exercise the statements below. *)
Definition MiB : Z := 1048576.
Definition t0 : timespec := (0, 0).
Definition REG : Z := 33188.   (* S_IFREG | 0644 *)

Definition image_of (r : option (Z * image)) : image :=
  match r with Some (_, m) => m | None => blank end.

Definition result_of {A : Type} (r : option (Z * A)) : option Z :=
  option_map fst r.

Definition img_formatted : image := snd (mkfs std blank MiB 32 (Some t0)).

Definition path_a : list byte := bytes_of [47; 97].          (* "/a" *)
Definition path_hi : list byte := bytes_of [47; 104; 105].   (* "/hi" *)

Definition img_a : image :=
  image_of (vsfs_create std img_formatted path_a REG t0 t0).


(** The number of clear bits of a bitmap over the indices [lo .. hi-1]. *)
Definition count_clear (m : image) (b lo hi : Z) : Z :=
  Z.of_nat (length (filter (fun i => negb (bitmap_isset m b hi i))
                      (map (fun k => lo + Z.of_nat k)
                         (seq 0 (Z.to_nat (hi - lo)))))).

(** The two counter invariants of section 8 of the specification. *)
Definition counters_match (m : image) : Prop :=
  sb_free_inodes m = count_clear m fs_ibmap 0 (sb_num_inodes m) /\
  sb_free_blocks m
  = count_clear m fs_dbmap (sb_data_region m) (sb_num_blocks m).

(** "/a" extended to one byte, then removed. *)
Definition img_a1 : image := image_of (vsfs_truncate std img_a path_a 1 t0).
Definition img_a1_unlinked : image := image_of (vsfs_unlink std img_a1 path_a t0).

(** "/a" written twice at offset 0 (24 bytes, then 4 bytes), which leaves it
    28 bytes long. *)
Definition img_a24 : image :=
  image_of (vsfs_write std img_a path_a (repeat x41 24) 24 0 t0 t0).
Definition img_a28 : image :=
  image_of (vsfs_write std img_a24 path_a (repeat x42 4) 4 0 t0 t0).

(** Successive writes of zero bytes at offset 0 of "/a", each of the given
    size; [None] as soon as one of them does not return its size. *)
Fixpoint write_zeros (m : image) (sizes : list Z) : option image :=
  match sizes with
  | [] => Some m
  | n :: rest =>
      match vsfs_write std m path_a (repeat x00 (Z.to_nat n)) n 0 t0 t0 with
      | Some (r, m') => if r =? n then write_zeros m' rest else None
      | None => None
      end
  end.

Definition grow_sizes : list Z :=
  [24; 24; 48; 96; 192; 384; 768; 1536; 3072; 4096; 4096; 4096; 4096].

Definition img_grown : image :=
  match write_zeros img_a grow_sizes with Some m => m | None => blank end.

(** Files with one-letter names created one after the other. *)
Fixpoint create_files (m : image) (names : list Z) : image :=
  match names with
  | [] => m
  | c :: rest =>
      create_files
        (image_of (vsfs_create std m (bytes_of [47; c]) REG t0 t0)) rest
  end.

(** The root directory filled up: "." and ".." and the fourteen files "/a"
    to "/n" occupy its sixteen slots. *)
Definition img_full : image :=
  create_files img_formatted
    [97; 98; 99; 100; 101; 102; 103; 104; 105; 106; 107; 108; 109; 110].

Definition path_z : list byte := bytes_of [47; 122].         (* "/z" *)

Definition img_full_z : image :=
  image_of (vsfs_create std img_full path_z REG t0 t0).

(** The indices [0 .. n-1]. *)
Definition indices (n : nat) : list Z := map Z.of_nat (seq 0 n).

(** "/hi" created, then removed. *)
Definition img_hi : image :=
  image_of (vsfs_create std img_formatted path_hi REG t0 t0).
Definition img_hi_unlinked : image :=
  image_of (vsfs_unlink std img_hi path_hi t0).

(** The smallest image the formatter accepts with these constants: five
    blocks, all of them in use after the format; "/a" created in it, then
    extended to one byte. *)
Definition img_small : image :=
  snd (mkfs std blank (5 * VSFS_BLOCK_SIZE) 32 (Some t0)).
Definition img_small_a : image :=
  image_of (vsfs_create std img_small path_a REG t0 t0).
Definition img_small_a1 : image :=
  image_of (vsfs_truncate std img_small_a path_a 1 t0).

(** The size in bytes of an image of 2^32 + 256 blocks. *)
Definition size_wide : Z := (2 ^ 32 + 256) * VSFS_BLOCK_SIZE.

(** The root path, the leaf name of "/a", and a [filler] for [vsfs_readdir]
    that records the address of each name and never reports a full buffer. *)
Definition path_root : list byte := bytes_of [47].           (* "/" *)
Definition name_a : list byte := bytes_of [97].              (* "a" *)

Definition collect (b : list Z) (m : image) (a : Z) : bool * list Z :=
  (false, b ++ [a]).

(** * Part II: properties of the building blocks *)

(** Linear arithmetic with quotients and remainders by constants. *)
Ltac zlia := Z.to_euclidean_division_equations; lia.

(** ** Bytes *)

Lemma byte_val_range (b : byte) : 0 <= byte_val b < 256.
Proof.
  unfold byte_val. pose proof (Byte.to_N_bounded b) as H.
  split; [apply N2Z.is_nonneg|]. lia.
Qed.

Lemma byte_val_of (z : Z) : byte_val (byte_of z) = z mod 256.
Proof.
  unfold byte_of, byte_val.
  assert (Hr : 0 <= z mod 256 < 256) by (apply Z.mod_pos_bound; lia).
  destruct (Byte.of_N (Z.to_N (z mod 256))) as [b|] eqn:E.
  - apply Byte.to_of_N in E. rewrite E. rewrite Z2N.id; lia.
  - apply Byte.of_N_None_iff in E. lia.
Qed.

Lemma byte_of_val (b : byte) : byte_of (byte_val b) = b.
Proof.
  unfold byte_of. pose proof (byte_val_range b) as Hr.
  rewrite Z.mod_small by lia. unfold byte_val. rewrite N2Z.id.
  now rewrite Byte.of_to_N.
Qed.

Lemma byte_eqb_eq (a b : byte) : byte_eqb a b = true <-> a = b.
Proof.
  unfold byte_eqb. split; [apply Byte.byte_dec_bl | apply Byte.byte_dec_lb].
Qed.

Lemma byte_eqb_refl (a : byte) : byte_eqb a a = true.
Proof. now apply byte_eqb_eq. Qed.

(** ** Reading after writing *)

Lemma in_range_true (a n x : Z) : in_range a n x = true <-> a <= x < a + n.
Proof. unfold in_range. rewrite andb_true_iff, Z.leb_le, Z.ltb_lt. tauto. Qed.

Lemma in_range_false (a n x : Z) : in_range a n x = false <-> x < a \/ a + n <= x.
Proof.
  unfold in_range. rewrite andb_false_iff, Z.leb_gt, Z.ltb_ge. tauto.
Qed.

Lemma store_le_other n m a v x :
  x < a \/ a + n <= x -> store_le n m a v x = m x.
Proof. intros H. unfold store_le. apply in_range_false in H. now rewrite H. Qed.

Lemma store_le_in n m a v x :
  a <= x < a + n -> store_le n m a v x = byte_of (v / 256 ^ (x - a)).
Proof. intros H. unfold store_le. apply in_range_true in H. now rewrite H. Qed.

Lemma memset_other m a c n x : x < a \/ a + n <= x -> memset m a c n x = m x.
Proof. intros H. unfold memset. apply in_range_false in H. now rewrite H. Qed.

Lemma memset_in m a c n x : a <= x < a + n -> memset m a c n x = c.
Proof. intros H. unfold memset. apply in_range_true in H. now rewrite H. Qed.

Lemma memcpy_in_other m a src n x :
  x < a \/ a + n <= x -> memcpy_in m a src n x = m x.
Proof. intros H. unfold memcpy_in. apply in_range_false in H. now rewrite H. Qed.

Lemma memcpy_in_in m a src n x :
  a <= x < a + n -> memcpy_in m a src n x = nth (Z.to_nat (x - a)) src x00.
Proof. intros H. unfold memcpy_in. apply in_range_true in H. now rewrite H. Qed.

Lemma bitmap_set_other m b nbits i v x :
  x <> b + i / 8 -> bitmap_set m b nbits i v x = m x.
Proof.
  intros H. unfold bitmap_set. apply Z.eqb_neq in H. now rewrite H.
Qed.

Lemma load_le_ext n m1 m2 a :
  (forall x, a <= x < a + Z.of_nat n -> m1 x = m2 x) ->
  load_le n m1 a = load_le n m2 a.
Proof.
  revert a. induction n as [|n IH]; intros a H; simpl; [reflexivity|].
  rewrite (H a) by lia. rewrite (IH (a + 1)); [reflexivity|].
  intros x Hx. apply H. lia.
Qed.

Lemma load_le_range n m a : 0 <= load_le n m a < 256 ^ Z.of_nat n.
Proof.
  revert a. induction n as [|n IH]; intros a.
  - simpl. lia.
  - change (load_le (S n) m a) with (byte_val (m a) + 256 * load_le n m (a + 1)).
    rewrite Nat2Z.inj_succ, Z.pow_succ_r by lia.
    pose proof (byte_val_range (m a)). pose proof (IH (a + 1)). nia.
Qed.

Lemma load_store_le n m a v :
  load_le n (store_le (Z.of_nat n) m a v) a = v mod 256 ^ Z.of_nat n.
Proof.
  revert m a v. induction n as [|n IH]; intros m a v.
  - simpl. now rewrite Z.mod_1_r.
  - change (load_le (S n) ?f a) with (byte_val (f a) + 256 * load_le n f (a + 1)).
    rewrite store_le_in by lia.
    replace (a - a) with 0 by lia. rewrite Z.pow_0_r, Z.div_1_r, byte_val_of.
    rewrite (load_le_ext n _ (store_le (Z.of_nat n) m (a + 1) (v / 256))).
    + rewrite IH. rewrite Nat2Z.inj_succ, Z.pow_succ_r by lia.
      rewrite Z.rem_mul_r by lia. reflexivity.
    + intros x Hx. rewrite !store_le_in by lia.
      replace (x - a) with (Z.succ (x - (a + 1))) by lia.
      rewrite Z.pow_succ_r by lia. rewrite Z.div_div by lia. reflexivity.
Qed.

Lemma load_le_frame n (m m' : image) a :
  (forall x, a <= x < a + Z.of_nat n -> m' x = m x) ->
  load_le n m' a = load_le n m a.
Proof. apply load_le_ext. Qed.

Lemma load_u32_store_u32 m a v : load_u32 (store_u32 m a v) a = u32 v.
Proof. apply (load_store_le 4). Qed.

Lemma load_u64_store_u64 m a v : load_u64 (store_u64 m a v) a = u64 v.
Proof. apply (load_store_le 8). Qed.

Lemma load_u32_range m a : 0 <= load_u32 m a < 2 ^ 32.
Proof. apply (load_le_range 4). Qed.

Lemma load_u64_range m a : 0 <= load_u64 m a < 2 ^ 64.
Proof. apply (load_le_range 8). Qed.

Lemma load_u32_frame (m m' : image) a :
  (forall x, a <= x < a + 4 -> m' x = m x) -> load_u32 m' a = load_u32 m a.
Proof. apply (load_le_ext 4). Qed.

Lemma load_u64_frame (m m' : image) a :
  (forall x, a <= x < a + 8 -> m' x = m x) -> load_u64 m' a = load_u64 m a.
Proof. apply (load_le_ext 8). Qed.

Lemma u32_small z : 0 <= z < 2 ^ 32 -> u32 z = z.
Proof. intros. unfold u32. now apply Z.mod_small. Qed.

Lemma u64_small z : 0 <= z < 2 ^ 64 -> u64 z = z.
Proof. intros. unfold u64. now apply Z.mod_small. Qed.

Lemma s64_small z : 0 <= z < 2 ^ 63 -> s64 z = z.
Proof.
  intros H. unfold s64. rewrite Z.mod_small by lia.
  destruct (Z.ltb_spec z (2 ^ 63)); lia.
Qed.

Lemma div_round_up_small x y :
  0 <= x -> 0 < y < 2 ^ 32 -> x + y - 1 < 2 ^ 32 ->
  div_round_up x y = (x + y - 1) / y.
Proof.
  intros. unfold div_round_up.
  rewrite (u32_small x), (u32_small y) by lia.
  now rewrite u32_small by lia.
Qed.

(** ** Scans *)

Lemma first_slot_some p n i0 i :
  first_slot p n i0 = Some i ->
  i0 <= i < i0 + Z.of_nat n /\ p i = true /\
  (forall j, i0 <= j < i -> p j = false).
Proof.
  revert i0. induction n as [|n IH]; intros i0 H; simpl in H; [discriminate|].
  destruct (p i0) eqn:E.
  - inversion H; subst. repeat split; try lia. exact E.
  - apply IH in H. destruct H as (Hr & Hp & Hm). repeat split; try lia.
    + exact Hp.
    + intros j Hj. destruct (Z.eq_dec j i0) as [->|Hne]; [exact E|].
      apply Hm. lia.
Qed.

Lemma first_slot_none p n i0 :
  first_slot p n i0 = None ->
  forall j, i0 <= j < i0 + Z.of_nat n -> p j = false.
Proof.
  revert i0. induction n as [|n IH]; intros i0 H j Hj; [lia|].
  simpl in H. destruct (p i0) eqn:E; [discriminate|].
  destruct (Z.eq_dec j i0) as [->|Hne]; [exact E|].
  apply (IH (i0 + 1)); [exact H | lia].
Qed.

Lemma first_slot_ext p q n i0 :
  (forall j, i0 <= j < i0 + Z.of_nat n -> p j = q j) ->
  first_slot p n i0 = first_slot q n i0.
Proof.
  revert i0. induction n as [|n IH]; intros i0 H; simpl; [reflexivity|].
  rewrite (H i0) by lia. destruct (q i0); [reflexivity|].
  apply IH. intros j Hj. apply H. lia.
Qed.

Lemma first_slot_found p n i0 i :
  i0 <= i < i0 + Z.of_nat n -> p i = true ->
  (forall j, i0 <= j < i -> p j = false) ->
  first_slot p n i0 = Some i.
Proof.
  revert i0. induction n as [|n IH]; intros i0 Hr Hp Hm; [lia|].
  simpl. destruct (Z.eq_dec i i0) as [->|Hne].
  - now rewrite Hp.
  - rewrite (Hm i0) by lia. apply IH; [lia | exact Hp |].
    intros j Hj. apply Hm. lia.
Qed.

(** ** Writes that stay above an address *)

Ltac layout :=
  unfold fs_sb, fs_ibmap, fs_dbmap, fs_itable,
    SB_MAGIC, SB_SIZE, SB_NUM_INODES, SB_FREE_INODES, SB_NUM_BLOCKS,
    SB_FREE_BLOCKS, SB_DATA_REGION,
    I_MODE, I_NLINK, I_SIZE, I_BLOCKS, I_MTIME, I_DIRECT, D_INO, D_NAME,
    VSFS_SB_BLKNUM, VSFS_IMAP_BLKNUM, VSFS_DMAP_BLKNUM, VSFS_ITBL_BLKNUM,
    VSFS_ROOT_INO, VSFS_BLOCK_SIZE in *.

Lemma store_le_below n m a v x : x < a -> store_le n m a v x = m x.
Proof. intros. apply store_le_other. lia. Qed.

Lemma memset_below m a c n x : x < a -> memset m a c n x = m x.
Proof. intros. apply memset_other. lia. Qed.

Lemma memcpy_in_below m a src n x : x < a -> memcpy_in m a src n x = m x.
Proof. intros. apply memcpy_in_other. lia. Qed.

Lemma bitmap_set_below m b nbits i v x :
  x < b -> 0 <= i -> bitmap_set m b nbits i v x = m x.
Proof.
  intros Hx Hi. apply bitmap_set_other.
  pose proof (Z.div_pos i 8 Hi ltac:(lia)). lia.
Qed.

Lemma bitmap_init_below m b nbits x : x < b -> bitmap_init m b nbits x = m x.
Proof.
  intros Hx. unfold bitmap_init.
  assert (E : in_range b (8 * ((u32 nbits + 63) / 64)) x = false)
    by (apply in_range_false; lia).
  now rewrite E.
Qed.

Lemma set_mtime_below m a t x : x < a -> set_mtime m a t x = m x.
Proof.
  intros Hx. unfold set_mtime, store_u64, I_MTIME.
  rewrite !store_le_below by lia. reflexivity.
Qed.

Lemma u32_nonneg z : 0 <= u32 z.
Proof. unfold u32. apply Z.mod_pos_bound. lia. Qed.

Lemma u32_range z : 0 <= u32 z < 2 ^ 32.
Proof. unfold u32. apply Z.mod_pos_bound. lia. Qed.

Lemma u64_range z : 0 <= u64 z < 2 ^ 64.
Proof. unfold u64. apply Z.mod_pos_bound. lia. Qed.

Lemma mark_itable_below n i nblks m x :
  x < fs_dbmap -> mark_itable n i nblks m x = m x.
Proof.
  revert i m. induction n as [|n IH]; intros i m Hx; simpl; [reflexivity|].
  rewrite IH by exact Hx. apply bitmap_set_below; [exact Hx | apply u32_nonneg].
Qed.

Lemma bitmap_alloc_some m b nbits i m' :
  bitmap_alloc m b nbits = Some (i, m') ->
  0 <= i < nbits /\ bitmap_isset m b nbits i = false /\
  (forall j, 0 <= j < i -> bitmap_isset m b nbits j = true) /\
  m' = bitmap_set m b nbits i true.
Proof.
  unfold bitmap_alloc. intros H.
  destruct (first_slot _ _ _) as [k|] eqn:E; [|discriminate].
  inversion H; subst. apply first_slot_some in E.
  destruct E as (Hr & Hp & Hm). repeat split.
  - lia.
  - lia.
  - now apply negb_true_iff in Hp.
  - intros j Hj. specialize (Hm j ltac:(lia)). now apply negb_false_iff in Hm.
Qed.

Lemma bitmap_alloc_none m b nbits :
  bitmap_alloc m b nbits = None ->
  forall j, 0 <= j < nbits -> bitmap_isset m b nbits j = true.
Proof.
  unfold bitmap_alloc. intros H j Hj.
  destruct (first_slot _ _ _) as [k|] eqn:E; [discriminate|].
  pose proof (first_slot_none _ _ _ E j ltac:(lia)) as Hn.
  now apply negb_false_iff in Hn.
Qed.

(** ** Bits *)

Lemma testbit_mod_256 z k : 0 <= k < 8 -> Z.testbit (z mod 256) k = Z.testbit z k.
Proof.
  intros H. change 256 with (2 ^ 8). apply Z.mod_pow2_bits_low. lia.
Qed.

Lemma testbit_one_shifted k j :
  0 <= k -> 0 <= j -> Z.testbit (Z.shiftl 1 k) j = (k =? j).
Proof.
  intros Hk Hj. rewrite Z.shiftl_1_l. now apply Z.pow2_bits_eqb.
Qed.

Lemma bitmap_isset_frame (m m' : image) b n n' j :
  m' (b + j / 8) = m (b + j / 8) ->
  bitmap_isset m' b n j = bitmap_isset m b n' j.
Proof. intros H. unfold bitmap_isset. now rewrite H. Qed.

Lemma bitmap_isset_set_same m b n n' i v :
  bitmap_isset (bitmap_set m b n i v) b n' i = v.
Proof.
  unfold bitmap_isset, bitmap_set. rewrite Z.eqb_refl, byte_val_of.
  assert (Hk : 0 <= i mod 8 < 8) by (apply Z.mod_pos_bound; lia).
  rewrite testbit_mod_256 by exact Hk. destruct v.
  - rewrite Z.lor_spec, testbit_one_shifted by lia.
    rewrite Z.eqb_refl. apply orb_true_r.
  - rewrite Z.ldiff_spec, testbit_one_shifted by lia.
    rewrite Z.eqb_refl. apply andb_false_r.
Qed.

Lemma bitmap_isset_set_other m b n n' i j v :
  i <> j ->
  bitmap_isset (bitmap_set m b n i v) b n' j = bitmap_isset m b n' j.
Proof.
  intros Hne. unfold bitmap_isset, bitmap_set.
  destruct (Z.eqb_spec (b + j / 8) (b + i / 8)) as [E|E]; [|reflexivity].
  rewrite byte_val_of.
  assert (Hi : 0 <= i mod 8 < 8) by (apply Z.mod_pos_bound; lia).
  assert (Hj : 0 <= j mod 8 < 8) by (apply Z.mod_pos_bound; lia).
  assert (Hk : i mod 8 <> j mod 8).
  { intros Hm. apply Hne.
    rewrite (Z.div_mod i 8), (Z.div_mod j 8) by lia. lia. }
  rewrite testbit_mod_256 by exact Hj. replace (b + i / 8) with (b + j / 8) by lia.
  destruct v.
  - rewrite Z.lor_spec, testbit_one_shifted by lia.
    destruct (Z.eqb_spec (i mod 8) (j mod 8)); [contradiction|].
    apply orb_false_r.
  - rewrite Z.ldiff_spec, testbit_one_shifted by lia.
    destruct (Z.eqb_spec (i mod 8) (j mod 8)); [contradiction|].
    apply andb_true_r.
Qed.

Lemma bitmap_isset_init m b nbits n' j :
  0 <= nbits -> nbits < 2 ^ 32 -> 0 <= j < nbits ->
  bitmap_isset (bitmap_init m b nbits) b n' j = false.
Proof.
  intros Hn Hb Hj. unfold bitmap_isset, bitmap_init.
  rewrite (u32_small nbits) by lia.
  assert (E : in_range b (8 * ((nbits + 63) / 64)) (b + j / 8) = true).
  { apply in_range_true. zlia. }
  rewrite E. replace (b + j / 8 - b) with (j / 8) by lia.
  destruct (Z.leb_spec (8 * (j / 8) + 8) nbits) as [H1|H1];
    [apply Z.testbit_0_l|].
  destruct (Z.leb_spec nbits (8 * (j / 8))) as [H2|H2]; [zlia|].
  rewrite byte_val_of.
  assert (Hk : 0 <= j mod 8 < 8) by (apply Z.mod_pos_bound; lia).
  rewrite testbit_mod_256 by exact Hk.
  apply Z.shiftl_spec_low. zlia.
Qed.

Lemma bitmap_alloc_frame m b nbits i m' x :
  bitmap_alloc m b nbits = Some (i, m') -> x <> b + i / 8 -> m' x = m x.
Proof.
  intros H Hx. apply bitmap_alloc_some in H.
  destruct H as (_ & _ & _ & ->). now apply bitmap_set_other.
Qed.

Lemma bitmap_alloc_found m b nbits i :
  first_slot (fun j => negb (bitmap_isset m b nbits j)) (Z.to_nat nbits) 0
  = Some i ->
  bitmap_alloc m b nbits = Some (i, bitmap_set m b nbits i true).
Proof. intros H. unfold bitmap_alloc. now rewrite H. Qed.


(** ** Blocks of the inode table *)

(** With an inode size that divides the block size, the number of
    inode-table blocks computed by the formatter is the ceiling of the table
    size in bytes over the block size. *)
Lemma itable_blocks n s :
  0 <= n -> 0 < s -> VSFS_BLOCK_SIZE mod s = 0 ->
  (n + VSFS_BLOCK_SIZE / s - 1) / (VSFS_BLOCK_SIZE / s)
  = (n * s + VSFS_BLOCK_SIZE - 1) / VSFS_BLOCK_SIZE.
Proof.
  intros Hn Hs Hd.
  assert (Hbs : VSFS_BLOCK_SIZE = s * (VSFS_BLOCK_SIZE / s)).
  { pose proof (Z.div_mod VSFS_BLOCK_SIZE s ltac:(lia)). lia. }
  set (k := VSFS_BLOCK_SIZE / s) in *.
  assert (Hk : 0 < k) by (unfold VSFS_BLOCK_SIZE in Hbs; nia).
  rewrite Hbs.
  set (q := (n + k - 1) / k).
  pose proof (Z.div_mod (n + k - 1) k ltac:(lia)) as Hq. fold q in Hq.
  pose proof (Z.mod_pos_bound (n + k - 1) k Hk) as Hr.
  set (r := (n + k - 1) mod k) in *.
  apply (Z.div_unique _ _ q (r * s + s - 1)); nia.
Qed.

(** ** Reading below or beside a write *)

Lemma load_le_store_le_other k n m b v a :
  a + Z.of_nat k <= b \/ b + n <= a ->
  load_le k (store_le n m b v) a = load_le k m a.
Proof.
  intros H. apply load_le_ext. intros x Hx. apply store_le_other. lia.
Qed.

Lemma load_le_memset_other k m b c n a :
  a + Z.of_nat k <= b \/ b + n <= a ->
  load_le k (memset m b c n) a = load_le k m a.
Proof.
  intros H. apply load_le_ext. intros x Hx. apply memset_other. lia.
Qed.

Lemma load_le_memcpy_in_other k m b src n a :
  a + Z.of_nat k <= b \/ b + n <= a ->
  load_le k (memcpy_in m b src n) a = load_le k m a.
Proof.
  intros H. apply load_le_ext. intros x Hx. apply memcpy_in_other. lia.
Qed.

Lemma load_le_bitmap_set_other k m b nbits i v a :
  a + Z.of_nat k <= b + i / 8 \/ b + i / 8 < a ->
  load_le k (bitmap_set m b nbits i v) a = load_le k m a.
Proof.
  intros H. apply load_le_ext. intros x Hx. apply bitmap_set_other. lia.
Qed.

Lemma set_mtime_other m a t x :
  x < a + I_MTIME \/ a + I_MTIME + 16 <= x -> set_mtime m a t x = m x.
Proof.
  intros H. unfold set_mtime, store_u64. rewrite !store_le_other by lia.
  reflexivity.
Qed.

Lemma load_le_set_mtime_other k m b t a :
  a + Z.of_nat k <= b + I_MTIME \/ b + I_MTIME + 16 <= a ->
  load_le k (set_mtime m b t) a = load_le k m a.
Proof.
  intros H. apply load_le_ext. intros x Hx. apply set_mtime_other. lia.
Qed.

Lemma i_direct_store_0 m a v : i_direct (store_u32 m (a + I_DIRECT) v) a 0 = u32 v.
Proof.
  unfold i_direct. replace (a + I_DIRECT + 4 * 0) with (a + I_DIRECT) by lia.
  apply load_u32_store_u32.
Qed.

(** Peeling writes that do not reach the bytes being read. *)
Ltac to_le :=
  unfold load_u32, load_u64, store_u32, store_u64, strncpy, strcpy in *.

Ltac peel_with solver :=
  repeat first
    [ rewrite load_le_store_le_other by solver
    | rewrite load_le_memset_other by solver
    | rewrite load_le_memcpy_in_other by solver
    | rewrite load_le_bitmap_set_other by solver
    | rewrite load_le_set_mtime_other by solver
    | rewrite store_le_other by solver
    | rewrite memset_other by solver
    | rewrite memcpy_in_other by solver
    | rewrite bitmap_set_other by solver
    | rewrite set_mtime_other by solver ].

Lemma load4_store4 m a v : load_le 4 (store_le 4 m a v) a = u32 v.
Proof. exact (load_u32_store_u32 m a v). Qed.

Lemma load8_store8 m a v : load_le 8 (store_le 8 m a v) a = u64 v.
Proof. exact (load_u64_store_u64 m a v). Qed.

Lemma strcmp_mem_eq s a (m : image) :
  (forall k, 0 <= k <= strlen s -> m (a + k) = nth (Z.to_nat k) (cstr s) x00) ->
  strcmp_mem m a s = true.
Proof.
  revert a. induction s as [|c s IH]; intros a H.
  - cbn [strcmp_mem]. specialize (H 0 ltac:(cbn [strlen]; lia)).
    rewrite Z.add_0_r in H. rewrite H. reflexivity.
  - cbn [strcmp_mem strlen cstr] in *. destruct (byte_eqb c x00) eqn:Ec.
    + specialize (H 0 ltac:(lia)). rewrite Z.add_0_r in H. rewrite H. reflexivity.
    + assert (Hl : 0 <= strlen s).
      { clear. induction s as [|d s IHs]; cbn [strlen]; [lia|].
        destruct (byte_eqb d x00); lia. }
      rewrite (IH (a + 1)).
      * pose proof (H 0 ltac:(lia)) as H0. rewrite Z.add_0_r in H0. rewrite H0.
        cbn [nth Z.to_nat]. now rewrite byte_eqb_refl.
      * intros k Hk. replace (a + 1 + k) with (a + (k + 1)) by lia.
        rewrite H by lia. rewrite Z2Nat.inj_add by lia. 
        rewrite Nat.add_comm. reflexivity.
Qed.

(** ** Facts that depend on the constants *)

Section Layout_facts.

Variable P : params.
Hypothesis OK : params_ok P.

Lemma inode_size_bounds : 44 <= INODE_SIZE P <= VSFS_BLOCK_SIZE.
Proof.
  pose proof (inode_holds_fields P OK) as Hf.
  pose proof (inode_divides P OK) as Hd.
  pose proof (num_direct_min P OK) as Hn.
  unfold I_INDIRECT, I_DIRECT in Hf. split; [lia|].
  destruct (Z_le_gt_dec (INODE_SIZE P) VSFS_BLOCK_SIZE) as [H|H]; [exact H|].
  rewrite Z.mod_small in Hd by (unfold VSFS_BLOCK_SIZE in *; lia).
  discriminate.
Qed.

Lemma dentry_size_bounds : 7 <= DENTRY_SIZE P <= VSFS_BLOCK_SIZE.
Proof.
  pose proof (name_max_min P OK) as Hn.
  pose proof (dentry_divides P OK) as Hd.
  unfold DENTRY_SIZE in *. split; [lia|].
  destruct (Z_le_gt_dec (4 + (VSFS_NAME_MAX P + 1)) VSFS_BLOCK_SIZE) as [H|H];
    [exact H|].
  rewrite Z.mod_small in Hd by (unfold VSFS_BLOCK_SIZE in *; lia).
  discriminate.
Qed.

Lemma mark_itable_keeps n i nblks m j :
  bitmap_isset m fs_dbmap nblks j = true ->
  bitmap_isset (mark_itable n i nblks m) fs_dbmap nblks j = true.
Proof.
  revert i m. induction n as [|n IH]; intros i m H; cbn [mark_itable]; [exact H|].
  apply IH.
  destruct (Z.eq_dec (u32 (VSFS_DMAP_BLKNUM + 1 + i)) j) as [<-|Hne].
  - apply bitmap_isset_set_same.
  - rewrite bitmap_isset_set_other by exact Hne. exact H.
Qed.

Lemma mark_itable_sets n i0 nblks m i :
  i0 <= i < i0 + Z.of_nat n -> 0 <= 3 + i < 2 ^ 32 ->
  bitmap_isset (mark_itable n i0 nblks m) fs_dbmap nblks (3 + i) = true.
Proof.
  revert i0 m. induction n as [|n IH]; intros i0 m Hr Hb; [lia|].
  cbn [mark_itable]. destruct (Z.eq_dec i i0) as [->|Hne].
  - apply mark_itable_keeps.
    replace (u32 (VSFS_DMAP_BLKNUM + 1 + i0)) with (3 + i0)
      by (unfold VSFS_DMAP_BLKNUM; rewrite u32_small; lia).
    apply bitmap_isset_set_same.
  - apply IH; lia.
Qed.

Lemma mark_itable_other n i0 nblks m j :
  (forall i, i0 <= i < i0 + Z.of_nat n -> u32 (VSFS_DMAP_BLKNUM + 1 + i) <> j) ->
  bitmap_isset (mark_itable n i0 nblks m) fs_dbmap nblks j
  = bitmap_isset m fs_dbmap nblks j.
Proof.
  revert i0 m. induction n as [|n IH]; intros i0 m H; cbn [mark_itable]; [reflexivity|].
  rewrite IH by (intros i Hi; apply H; lia).
  apply bitmap_isset_set_other. apply H. lia.
Qed.


Lemma clear_entries_below n i e m x :
  x < e + i * DENTRY_SIZE P -> clear_entries P n i e m x = m x.
Proof.
  pose proof dentry_size_bounds as HD.
  revert i m. induction n as [|n IH]; intros i m Hx; cbn [clear_entries];
    [reflexivity|].
  rewrite IH by lia. unfold store_u32, D_INO. apply store_le_other. lia.
Qed.

Lemma load_le_clear_entries_below k n i e m a :
  a + Z.of_nat k <= e + i * DENTRY_SIZE P ->
  load_le k (clear_entries P n i e m) a = load_le k m a.
Proof.
  intros H. apply load_le_ext. intros x Hx. apply clear_entries_below. lia.
Qed.

Lemma clear_entries_sets n i e m j :
  i <= j < i + Z.of_nat n ->
  load_le 4 (clear_entries P n i e m) (e + j * DENTRY_SIZE P + D_INO)
  = VSFS_INO_MAX P.
Proof.
  pose proof dentry_size_bounds as HD. pose proof (ino_max_range P OK) as HI.
  revert i m. induction n as [|n IH]; intros i m Hj; [lia|].
  cbn [clear_entries]. destruct (Z.eq_dec j i) as [->|Hne].
  - rewrite load_le_clear_entries_below by (unfold D_INO; simpl Z.of_nat; lia).
    unfold store_u32. rewrite load4_store4. apply u32_small. lia.
  - apply IH. lia.
Qed.

Lemma num_dentries_round :
  div_round_up VSFS_BLOCK_SIZE (DENTRY_SIZE P) = NUM_DENTRIES P.
Proof.
  pose proof dentry_size_bounds as HD. pose proof (dentry_divides P OK) as Hd.
  rewrite div_round_up_small by (unfold VSFS_BLOCK_SIZE in *; lia).
  unfold NUM_DENTRIES.
  pose proof (Z.div_mod VSFS_BLOCK_SIZE (DENTRY_SIZE P) ltac:(lia)) as Hq.
  rewrite Hd in Hq. symmetry.
  apply (Z.div_unique _ _ _ (DENTRY_SIZE P - 1)); lia.
Qed.

Lemma num_dentries_bounds :
  1 <= NUM_DENTRIES P /\ NUM_DENTRIES P * DENTRY_SIZE P = VSFS_BLOCK_SIZE.
Proof.
  pose proof dentry_size_bounds as HD. pose proof (dentry_divides P OK) as Hd.
  unfold NUM_DENTRIES.
  pose proof (Z.div_mod VSFS_BLOCK_SIZE (DENTRY_SIZE P) ltac:(lia)) as Hq.
  rewrite Hd in Hq. split; [|lia].
  apply Z.div_le_lower_bound; lia.
Qed.

(** The directory entries are read in the block named by the first direct
    pointer of the root inode. *)
Lemma get_dir_entry_root m i :
  0 <= i < NUM_DENTRIES P ->
  get_dir_entry P m (fs_itable P 0) i
  = i_direct m (fs_itable P 0) 0 * VSFS_BLOCK_SIZE + i * DENTRY_SIZE P.
Proof.
  intros Hi. pose proof dentry_size_bounds as HD.
  pose proof num_dentries_bounds as [HK1 HK2].
  pose proof (num_direct_min P OK) as Hnd.
  assert (Hr : 0 <= i * DENTRY_SIZE P < VSFS_BLOCK_SIZE) by nia.
  unfold get_dir_entry, get_address.
  rewrite u32_small by (unfold VSFS_BLOCK_SIZE in *; lia).
  rewrite Z.div_small by lia. rewrite Z.mod_small by lia.
  destruct (Z.leb_spec (VSFS_NUM_DIRECT P) 0); [lia|]. reflexivity.
Qed.

End Layout_facts.

Ltac solver := first [ assumption | layout; zlia ].

Ltac peel :=
  repeat first
    [ rewrite load_le_clear_entries_below by solver
    | rewrite clear_entries_below by solver
    | progress (peel_with solver) ].

Lemma forallb_indices (p : Z -> bool) n :
  forallb p (indices n) = true ->
  forall i, 0 <= i < Z.of_nat n -> p i = true.
Proof.
  intros H i Hi. rewrite forallb_forall in H. apply H.
  unfold indices. apply in_map_iff. exists (Z.to_nat i). split; [lia|].
  apply in_seq. lia.
Qed.


(** ** Frames of the directory scan *)

Lemma first_slot_all_false p n i0 :
  (forall j, i0 <= j < i0 + Z.of_nat n -> p j = false) ->
  first_slot p n i0 = None.
Proof.
  revert i0. induction n as [|n IH]; intros i0 H; cbn [first_slot]; [reflexivity|].
  rewrite (H i0) by lia. apply IH. intros j Hj. apply H. lia.
Qed.

Section Directory_frame.

Variable P : params.
Hypothesis OK : params_ok P.

(** The entries of the root directory depend on the first direct pointer of
    the root inode and on the bytes of the block it names. *)
Lemma dentry_ino_frame (m m' : image) j :
  0 <= j < NUM_DENTRIES P ->
  (forall x, fs_itable P 0 + I_DIRECT <= x < fs_itable P 0 + I_DIRECT + 4 ->
             m' x = m x) ->
  (forall x, i_direct m (fs_itable P 0) 0 * VSFS_BLOCK_SIZE <= x
             < i_direct m (fs_itable P 0) 0 * VSFS_BLOCK_SIZE + VSFS_BLOCK_SIZE ->
             m' x = m x) ->
  get_dir_entry P m' (fs_itable P 0) j = get_dir_entry P m (fs_itable P 0) j /\
  dentry_ino P m' j = dentry_ino P m j.
Proof.
  intros Hj Hroot Hblock.
  pose proof (dentry_size_bounds P OK) as HD.
  pose proof (num_dentries_bounds P OK) as [HK1 HK2].
  assert (Hd : i_direct m' (fs_itable P 0) 0 = i_direct m (fs_itable P 0) 0).
  { unfold i_direct. apply load_u32_frame. intros x Hx. apply Hroot. lia. }
  assert (He : get_dir_entry P m' (fs_itable P 0) j
               = get_dir_entry P m (fs_itable P 0) j).
  { rewrite !(get_dir_entry_root P OK) by exact Hj. now rewrite Hd. }
  split; [exact He|].
  unfold dentry_ino. rewrite He. apply load_u32_frame. intros x Hx.
  apply Hblock. rewrite (get_dir_entry_root P OK) in Hx by exact Hj.
  unfold D_INO in Hx. nia.
Qed.

End Directory_frame.


(** ** Counter arithmetic; the range of a lookup *)

Lemma u32_sub_l x y : u32 (u32 x - y) = u32 (x - y).
Proof. unfold u32. apply Zminus_mod_idemp_l. Qed.

Lemma u32_add_l x y : u32 (u32 x + y) = u32 (x + y).
Proof. unfold u32. apply Zplus_mod_idemp_l. Qed.

Section Lookup_range.

Variable P : params.

Lemma path_lookup_found_range m path ino :
  path_lookup P m path = Found ino -> 0 <= ino < 2 ^ 32.
Proof.
  unfold path_lookup. intros H.
  destruct (negb _); [discriminate|].
  destruct (is_root_path path).
  - inversion H. unfold VSFS_ROOT_INO. lia.
  - destruct (first_slot _ _ _); [|discriminate].
    inversion H. apply load_u32_range.
Qed.

End Lookup_range.


(** ** Bounded iteration *)

Lemma run_add {S R : Type} (j k : nat) (step : S -> S + R) (s : S) :
  run (j + k) step s
  = match run j step s with
    | inl s' => run k step s'
    | inr r => inr r
    end.
Proof.
  revert s. induction j as [|j IH]; intros s; [reflexivity|].
  cbn [run Nat.add]. destruct (step s) as [s'|r]; [apply IH|reflexivity].
Qed.

Lemma iterate_run {S R : Type} (n : nat) (step : S -> S + R) (s : S) :
  iterate n step s = run (2 ^ n) step s.
Proof.
  revert s. induction n as [|n IH]; intros s.
  - change (2 ^ 0)%nat with 1%nat. cbn [iterate run].
    destruct (step s); reflexivity.
  - cbn [iterate]. rewrite Nat.pow_succ_r'.
    replace (2 * 2 ^ n)%nat with (2 ^ n + 2 ^ n)%nat by lia.
    rewrite run_add, <- IH. destruct (iterate n step s) as [s'|r].
    + apply IH.
    + reflexivity.
Qed.

Lemma iterate_finished {S R : Type} (n j : nat) (step : S -> S + R) s r :
  run j step s = inr r -> (j <= 2 ^ n)%nat -> iterate n step s = inr r.
Proof.
  intros H Hj. rewrite iterate_run.
  replace (2 ^ n)%nat with (j + (2 ^ n - j))%nat by lia.
  rewrite run_add, H. reflexivity.
Qed.

Lemma strcmp_mem_frame (m m' : image) a s :
  (forall x, a <= x -> m' x = m x) ->
  strcmp_mem m' a s = strcmp_mem m a s.
Proof.
  revert a. induction s as [|c s IH]; intros a H; cbn [strcmp_mem].
  - now rewrite H by lia.
  - rewrite H by lia. rewrite (IH (a + 1)); [reflexivity|].
    intros x Hx. apply H. lia.
Qed.

Section Unlink_loop.

Variable P : params.
Variable inode : Z.
Variable bc : Z.
Variable nb : Z.
Variable d : Z -> Z.

Hypothesis inode_above : VSFS_ITBL_BLKNUM * VSFS_BLOCK_SIZE <= inode.
Hypothesis d_range : forall k, 0 <= k < bc -> 0 <= d k < 8 * VSFS_BLOCK_SIZE.
Hypothesis d_below : forall k, 0 <= k < bc -> d k < nb.
Hypothesis d_apart :
  forall j k, 0 <= j < bc -> 0 <= k < bc -> d j = d k -> j = k.

(** The block-freeing loop of [vsfs_unlink], started at round [i] with
    [n] blocks left, on an image whose inode holds the block count [bc] and
    the pointers [d], which are pairwise distinct, below the number of blocks
    [nb] and, from [i] on, marked allocated. *)
Lemma unlink_loop n : forall i m,
  0 <= i -> i + Z.of_nat n = bc ->
  i_blocks m inode = bc ->
  (forall k, 0 <= k < bc -> i_direct m inode k = d k) ->
  sb_num_blocks m = nb ->
  (forall k, i <= k < bc -> bitmap_isset m fs_dbmap 0 (d k) = true) ->
  exists mf,
    run (n + 1) (unlink_free_step inode) (i, m) = inr (Some mf) /\
    sb_free_blocks mf = u32 (sb_free_blocks m + Z.of_nat n) /\
    (forall x, x < fs_dbmap \/ fs_dbmap + VSFS_BLOCK_SIZE <= x ->
               x < fs_sb + SB_FREE_BLOCKS \/ fs_sb + SB_FREE_BLOCKS + 4 <= x ->
               mf x = m x) /\
    (forall k, i <= k < bc -> bitmap_isset mf fs_dbmap 0 (d k) = false) /\
    (forall j, 0 <= j -> bitmap_isset m fs_dbmap 0 j = false ->
               bitmap_isset mf fs_dbmap 0 j = false) /\
    (forall j, 0 <= j -> (forall k, i <= k < bc -> d k <> j) ->
               bitmap_isset mf fs_dbmap 0 j = bitmap_isset m fs_dbmap 0 j).
Proof.
  induction n as [|n IH]; intros i m Hi Hn Hbc Hd Hnb Hset.
  - exists m. cbn [Nat.add run unlink_free_step].
    rewrite Hbc. destruct (Z.ltb_spec i bc); [lia|].
    split; [reflexivity|]. split.
    { rewrite Z.add_0_r. symmetry. apply u32_small. apply load_u32_range. }
    split; [reflexivity|]. split; [intros k Hk; lia|].
    split; [tauto|reflexivity].
  - set (mb := bitmap_set m fs_dbmap (sb_num_blocks m) (d i) false).
    set (m1 := store_u32 mb (fs_sb + SB_FREE_BLOCKS) (sb_free_blocks mb + 1)).
    assert (Hdi : i_direct m inode i = d i) by (apply Hd; lia).
    pose proof (d_range i ltac:(lia)) as Hri.
    assert (Hfree : bitmap_free m fs_dbmap (sb_num_blocks m) (i_direct m inode i)
                    = Some mb).
    { unfold bitmap_free. rewrite Hdi, Hnb.
      destruct (Z.ltb_spec (d i) nb) as [_|Hge];
        [|pose proof (d_below i ltac:(lia)); lia].
      change (bitmap_isset m fs_dbmap nb (d i))
        with (bitmap_isset m fs_dbmap 0 (d i)).
      rewrite (Hset i) by lia. unfold mb. now rewrite Hnb. }
    assert (Hfr : forall x,
              x <> fs_dbmap + d i / 8 ->
              x < fs_sb + SB_FREE_BLOCKS \/ fs_sb + SB_FREE_BLOCKS + 4 <= x ->
              m1 x = m x).
    { intros x Hx1 Hx2. unfold m1, mb. to_le.
      peel_with ltac:(layout; zlia). reflexivity. }
    assert (Hload : forall a, fs_dbmap + VSFS_BLOCK_SIZE <= a ->
                      load_u32 m1 a = load_u32 m a).
    { intros a Ha. apply load_u32_frame. intros x Hx. apply Hfr; layout; zlia. }
    assert (Hbit : forall j, 0 <= j -> bitmap_isset m1 fs_dbmap 0 j
              = if Z.eq_dec (d i) j then false else bitmap_isset m fs_dbmap 0 j).
    { intros j Hj0. unfold m1.
      rewrite (bitmap_isset_frame mb _ fs_dbmap 0 0 j).
      - unfold mb. destruct (Z.eq_dec (d i) j) as [<-|Hne].
        + apply bitmap_isset_set_same.
        + apply bitmap_isset_set_other. exact Hne.
      - to_le. peel_with ltac:(layout; zlia). reflexivity. }
    destruct (IH (i + 1) m1) as (mf & Hrun & Hfb & Hframe & Hclr & Hmono & Hoth).
    + lia.
    + lia.
    + unfold i_blocks. rewrite Hload by (layout; lia). exact Hbc.
    + intros k Hk. unfold i_direct. rewrite Hload.
      * apply Hd. exact Hk.
      * layout. lia.
    + rewrite <- Hnb. unfold sb_num_blocks. apply load_u32_frame.
      intros x Hx. apply Hfr; layout; zlia.
    + intros k Hk. pose proof (d_range k ltac:(lia)) as Hrk.
      rewrite Hbit by lia.
      destruct (Z.eq_dec (d i) (d k)) as [E|_].
      * apply d_apart in E; lia.
      * apply Hset. lia.
    + exists mf.
      split.
      { change (S n + 1)%nat with (S (n + 1)). cbn [run unlink_free_step].
        rewrite Hbc. destruct (Z.ltb_spec i bc); [|lia].
        rewrite Hfree. exact Hrun. }
      split.
      { rewrite Hfb. unfold sb_free_blocks at 1. unfold m1.
        rewrite load_u32_store_u32, u32_add_l.
        replace (sb_free_blocks mb) with (sb_free_blocks m).
        - f_equal. lia.
        - unfold sb_free_blocks, mb. to_le.
          peel_with ltac:(layout; zlia). reflexivity. }
      split.
      { intros x Hx1 Hx2. rewrite Hframe by assumption.
        apply Hfr; [layout; zlia | exact Hx2]. }
      split.
      { intros k Hk. destruct (Z.eq_dec k i) as [->|Hne].
        - apply Hmono; [lia|]. rewrite Hbit by lia.
          destruct (Z.eq_dec (d i) (d i)); [reflexivity|]. contradiction.
        - apply Hclr. lia. }
      split.
      { intros j Hj0 Hj. apply Hmono; [exact Hj0|]. rewrite Hbit by exact Hj0.
        destruct (Z.eq_dec (d i) j); [reflexivity|exact Hj]. }
      { intros j Hj0 Hj. rewrite Hoth; [|exact Hj0|intros k Hk; apply Hj; lia].
        rewrite Hbit by exact Hj0. destruct (Z.eq_dec (d i) j) as [E|E]; [|reflexivity].
        exfalso. apply (Hj i); [lia|exact E]. }
Qed.

End Unlink_loop.

Section Lookup_slot.

Variable P : params.
Hypothesis OK : params_ok P.

Lemma path_lookup_found_slot m path ino :
  path_lookup P m path = Found ino -> is_root_path path = false ->
  exists i0,
    first_slot (name_matches P m path) (Z.to_nat (NUM_DENTRIES P)) 0 = Some i0 /\
    dentry_ino P m i0 = ino /\ 0 <= i0 < NUM_DENTRIES P.
Proof.
  unfold path_lookup. intros H Hnr. rewrite Hnr in H.
  destruct (negb _); [discriminate|].
  destruct (first_slot _ _ _) as [i0|] eqn:E; [|discriminate].
  exists i0. split; [reflexivity|]. split; [now inversion H|].
  apply first_slot_some in E. destruct E as (Hr & _).
  pose proof (num_dentries_bounds P OK) as [HK1 _].
  rewrite Z2Nat.id in Hr by lia. lia.
Qed.

End Lookup_slot.


(** ** Fuel *)

Lemma strlen_nonneg s : 0 <= strlen s.
Proof.
  induction s as [|c s IH]; cbn [strlen]; [lia|].
  destruct (byte_eqb c x00); lia.
Qed.

(** After a successful comparison the name in the image is as long as the
    string it was compared with, and the length of that string is enough
    fuel to measure it. *)
Lemma strlen_mem_matches m a s fuel :
  strcmp_mem m a s = true -> (length s <= fuel)%nat ->
  strlen_mem fuel m a = strlen s.
Proof.
  revert a fuel. induction s as [|c s IH]; intros a fuel H Hf.
  - cbn [strcmp_mem strlen] in *. destruct fuel; [reflexivity|].
    cbn [strlen_mem]. now rewrite H.
  - cbn [strcmp_mem strlen] in *. destruct (byte_eqb c x00) eqn:Ec.
    + destruct fuel; [reflexivity|]. cbn [strlen_mem]. now rewrite H.
    + apply andb_true_iff in H. destruct H as [H1 H2].
      apply byte_eqb_eq in H1.
      destruct fuel as [|fuel]; [cbn [length] in Hf; lia|].
      cbn [strlen_mem]. rewrite H1, Ec. f_equal. apply IH; [exact H2|].
      cbn [length] in Hf. lia.
Qed.

(** The counter of the block-freeing loop of [vsfs_unlink] advances by one
    per round. *)
Lemma unlink_run_counter inode k : forall i m,
  (exists r, run k (unlink_free_step inode) (i, m) = inr r) \/
  (exists m', run k (unlink_free_step inode) (i, m) = inl (i + Z.of_nat k, m')).
Proof.
  induction k as [|k IH]; intros i m.
  - right. exists m. cbn [run]. f_equal. f_equal. lia.
  - cbn [run unlink_free_step]. destruct (i <? i_blocks m inode).
    + destruct (bitmap_free m fs_dbmap (sb_num_blocks m) (i_direct m inode i))
        as [mb|]; [|left; exists None; reflexivity].
      destruct (IH (i + 1)
                  (store_u32 mb (fs_sb + SB_FREE_BLOCKS) (sb_free_blocks mb + 1)))
        as [[r H]|[m' H]].
      * left. exists r. exact H.
      * right. exists m'. rewrite H. f_equal. f_equal. lia.
    + left. exists (Some m). reflexivity.
Qed.

(** The loop always ends within its fuel: the block count is a 32-bit value,
    so the counter reaches it in at most [2 ^ 32] rounds. *)
Lemma unlink_loop_total inode m :
  exists r, iterate 33 (unlink_free_step inode) (0, m) = inr r.
Proof.
  set (K := Z.to_nat (2 ^ 32)).
  assert (HK : (K + 1 <= 2 ^ 33)%nat).
  { apply Nat2Z.inj_le. unfold K.
    rewrite Nat2Z.inj_add, Z2Nat.id, Nat2Z.inj_pow by lia.
    change (Z.of_nat 2 ^ Z.of_nat 33) with (2 ^ 33).
    change (Z.of_nat 1) with 1. lia. }
  destruct (unlink_run_counter inode K 0 m) as [[r H]|[m' H]].
  - exists r. apply (iterate_finished 33 K); [exact H | lia].
  - exists (Some m'). apply (iterate_finished 33 (K + 1)); [|exact HK].
    rewrite run_add, H. cbn [run unlink_free_step].
    pose proof (load_u32_range m' (inode + I_BLOCKS)) as Hr.
    fold (i_blocks m' inode) in Hr.
    destruct (Z.ltb_spec (0 + Z.of_nat K) (i_blocks m' inode)) as [Hlt|_];
      [|reflexivity].
    unfold K in Hlt. rewrite Z2Nat.id in Hlt by lia. lia.
Qed.

(** ** The concrete constants are admissible *)

Lemma std_ok : params_ok std.
Proof.
  constructor; vm_compute; repeat split; first [reflexivity | discriminate].
Qed.


Lemma some_pair_inj {A B : Type} (a c : A) (b d : B) :
  Some (a, b) = Some (c, d) -> a = c /\ b = d.
Proof. intros H. inversion H. split; reflexivity. Qed.

(** ** Counting clear bits *)

Lemma range_cons lo n :
  map (fun k => lo + Z.of_nat k) (seq 0 (S n))
  = lo :: map (fun k => lo + 1 + Z.of_nat k) (seq 0 n).
Proof.
  cbn [seq map]. f_equal; [lia|].
  rewrite <- seq_shift, map_map. apply map_ext. intros k. lia.
Qed.

Lemma count_same (p q : Z -> bool) n : forall lo,
  (forall j, lo <= j < lo + Z.of_nat n -> q j = p j) ->
  length (filter q (map (fun k => lo + Z.of_nat k) (seq 0 n)))
  = length (filter p (map (fun k => lo + Z.of_nat k) (seq 0 n))).
Proof.
  induction n as [|n IH]; intros lo H; [reflexivity|].
  rewrite range_cons. cbn [filter]. rewrite (H lo) by lia.
  destruct (p lo); cbn [length]; rewrite (IH (lo + 1)); try reflexivity;
    intros j Hj; apply H; lia.
Qed.

Lemma count_none (p : Z -> bool) n : forall lo,
  (forall j, lo <= j < lo + Z.of_nat n -> p j = false) ->
  length (filter p (map (fun k => lo + Z.of_nat k) (seq 0 n))) = 0%nat.
Proof.
  induction n as [|n IH]; intros lo H; [reflexivity|].
  rewrite range_cons. cbn [filter]. rewrite (H lo) by lia.
  apply IH. intros j Hj. apply H. lia.
Qed.

Lemma count_one_less (p q : Z -> bool) n : forall lo i,
  lo <= i < lo + Z.of_nat n -> p i = true -> q i = false ->
  (forall j, lo <= j < lo + Z.of_nat n -> j <> i -> q j = p j) ->
  length (filter p (map (fun k => lo + Z.of_nat k) (seq 0 n)))
  = S (length (filter q (map (fun k => lo + Z.of_nat k) (seq 0 n)))).
Proof.
  induction n as [|n IH]; intros lo i Hi Hp Hq H; [lia|].
  rewrite !range_cons. cbn [filter].
  destruct (Z.eq_dec i lo) as [->|Hne].
  - rewrite Hp, Hq. cbn [length]. f_equal. symmetry. apply count_same.
    intros j Hj. apply H; lia.
  - rewrite (H lo) by lia.
    destruct (p lo); cbn [length]; rewrite (IH (lo + 1) i); try reflexivity;
      try assumption; try lia; intros j Hj Hji; apply H; lia.
Qed.

Lemma count_clear_same (m m' : image) b lo hi :
  (forall j, lo <= j < hi -> bitmap_isset m' b hi j = bitmap_isset m b hi j) ->
  count_clear m' b lo hi = count_clear m b lo hi.
Proof.
  intros H. unfold count_clear. f_equal. apply count_same.
  intros j Hj. rewrite H; [reflexivity|lia].
Qed.

Lemma count_clear_full (m : image) b lo hi :
  (forall j, lo <= j < hi -> bitmap_isset m b hi j = true) ->
  count_clear m b lo hi = 0.
Proof.
  intros H. unfold count_clear. rewrite count_none; [reflexivity|].
  intros j Hj. rewrite H; [reflexivity|lia].
Qed.

Lemma count_clear_taken (m m' : image) b lo hi i :
  lo <= i < hi ->
  bitmap_isset m b hi i = false -> bitmap_isset m' b hi i = true ->
  (forall j, lo <= j < hi -> j <> i ->
             bitmap_isset m' b hi j = bitmap_isset m b hi j) ->
  count_clear m b lo hi = count_clear m' b lo hi + 1.
Proof.
  intros Hi H0 H1 H. unfold count_clear.
  rewrite (count_one_less _ (fun j => negb (bitmap_isset m' b hi j)) _ lo i).
  - lia.
  - lia.
  - now rewrite H0.
  - now rewrite H1.
  - intros j Hj Hji. rewrite H; [reflexivity|lia|exact Hji].
Qed.

Lemma count_clear_nonneg (m : image) b lo hi : 0 <= count_clear m b lo hi.
Proof. unfold count_clear. lia. Qed.

(** ** The allocation loop of truncate *)

(** When the allocation loop of [vsfs_truncate] gives up, it has taken
    every block that was free: the bitmap has no clear bit below the block
    count, the counter is lower by the number of bits that were clear, which
    is less than the number of rounds asked for, and nothing else changed. *)
Lemma truncate_alloc_fails n : forall m m',
  truncate_alloc n m = (false, m') ->
  sb_num_blocks m <= 8 * VSFS_BLOCK_SIZE ->
  let nb := sb_num_blocks m in
  let k := count_clear m fs_dbmap 0 nb in
  k < Z.of_nat n /\
  sb_free_blocks m' = u32 (sb_free_blocks m - k) /\
  (forall j, 0 <= j < nb -> bitmap_isset m' fs_dbmap nb j = true) /\
  (forall x, x < fs_dbmap \/ fs_dbmap + VSFS_BLOCK_SIZE <= x ->
             x < fs_sb + SB_FREE_BLOCKS \/ fs_sb + SB_FREE_BLOCKS + 4 <= x ->
             m' x = m x).
Proof.
  induction n as [|n IH]; intros m m' H Hnb nb k.
  - cbn [truncate_alloc] in H. discriminate.
  - cbn [truncate_alloc] in H.
    destruct (bitmap_alloc m fs_dbmap (sb_num_blocks m)) as [[blk m1]|] eqn:E.
    + apply bitmap_alloc_some in E. destruct E as (Hb & Hclr & _ & ->).
      fold nb in Hb, Hclr, H.
      set (m2 := store_u32 _ _ _) in H.
      assert (F2 : forall x, x <> fs_dbmap + blk / 8 ->
                x < fs_sb + SB_FREE_BLOCKS \/ fs_sb + SB_FREE_BLOCKS + 4 <= x ->
                m2 x = m x).
      { intros x Hx1 Hx2. unfold m2. to_le.
        peel_with ltac:(layout; zlia). reflexivity. }
      assert (Hnb2 : sb_num_blocks m2 = nb).
      { unfold nb, sb_num_blocks. apply load_u32_frame. intros x Hx.
        apply F2; layout; zlia. }
      assert (Hbit : forall j, 0 <= j -> bitmap_isset m2 fs_dbmap nb j
                = if Z.eq_dec blk j then true else bitmap_isset m fs_dbmap nb j).
      { intros j Hj0. unfold m2.
        rewrite (bitmap_isset_frame
                   (bitmap_set (bitmap_set m fs_dbmap nb blk true) fs_dbmap
                      (sb_num_blocks (bitmap_set m fs_dbmap nb blk true)) blk true)
                   _ fs_dbmap nb nb j).
        - destruct (Z.eq_dec blk j) as [<-|Hne].
          + apply bitmap_isset_set_same.
          + rewrite !bitmap_isset_set_other by exact Hne. reflexivity.
        - to_le. apply store_le_other. layout. zlia. }
      destruct (IH m2 m' H) as (Hk & Hfb & Hall & Hfr).
      { rewrite Hnb2. exact Hnb. }
      rewrite Hnb2 in Hk, Hfb, Hall.
      assert (Hcount : k = count_clear m2 fs_dbmap 0 nb + 1).
      { unfold k. apply (count_clear_taken m m2 fs_dbmap 0 nb blk).
        - lia.
        - exact Hclr.
        - rewrite Hbit by lia.
          destruct (Z.eq_dec blk blk); [reflexivity|contradiction].
        - intros j Hj Hne. rewrite Hbit by lia.
          destruct (Z.eq_dec blk j); [|reflexivity]. now subst. }
      assert (Hfb2 : sb_free_blocks m2 = u32 (sb_free_blocks m - 1)).
      { unfold sb_free_blocks at 1. unfold m2. rewrite load_u32_store_u32.
        f_equal. f_equal. unfold sb_free_blocks. to_le.
        peel_with ltac:(layout; zlia). reflexivity. }
      split; [lia|]. split.
      { rewrite Hfb, Hfb2, u32_sub_l. f_equal. lia. }
      split; [exact Hall|].
      intros x Hx1 Hx2. rewrite Hfr by assumption.
      apply F2; [layout; zlia|exact Hx2].
    + apply pair_equal_spec in H. destruct H as [_ <-].
      pose proof (bitmap_alloc_none _ _ _ E) as Hall. fold nb in Hall.
      assert (Hk0 : k = 0) by (apply count_clear_full; exact Hall).
      split; [lia|]. split.
      { rewrite Hk0, Z.sub_0_r. symmetry. apply u32_small. apply load_u32_range. }
      split; [exact Hall|reflexivity].
Qed.


(** When the allocation loop of [vsfs_truncate] completes its [n] rounds,
    [n] bits that were clear below the block count are set, no bit is
    cleared, the counter is lower by [n], and nothing else changed. *)
Lemma truncate_alloc_succeeds n : forall m m',
  truncate_alloc n m = (true, m') ->
  sb_num_blocks m <= 8 * VSFS_BLOCK_SIZE ->
  let nb := sb_num_blocks m in
  let k := count_clear m fs_dbmap 0 nb in
  Z.of_nat n <= k /\
  sb_free_blocks m' = u32 (sb_free_blocks m - Z.of_nat n) /\
  count_clear m' fs_dbmap 0 nb = k - Z.of_nat n /\
  (forall j, 0 <= j -> bitmap_isset m fs_dbmap nb j = true ->
             bitmap_isset m' fs_dbmap nb j = true) /\
  (forall j, nb <= j ->
             bitmap_isset m' fs_dbmap nb j = bitmap_isset m fs_dbmap nb j) /\
  (forall x, x < fs_dbmap \/ fs_dbmap + VSFS_BLOCK_SIZE <= x ->
             x < fs_sb + SB_FREE_BLOCKS \/ fs_sb + SB_FREE_BLOCKS + 4 <= x ->
             m' x = m x).
Proof.
  induction n as [|n IH]; intros m m' H Hnb nb k.
  - cbn [truncate_alloc] in H. apply pair_equal_spec in H. destruct H as [_ <-].
    pose proof (count_clear_nonneg m fs_dbmap 0 nb). fold k in H.
    split; [simpl; lia|]. split.
    { simpl. rewrite Z.sub_0_r. symmetry. apply u32_small. apply load_u32_range. }
    split; [simpl; fold k; lia|]. split; [tauto|]. split; reflexivity.
  - cbn [truncate_alloc] in H.
    destruct (bitmap_alloc m fs_dbmap (sb_num_blocks m)) as [[blk m1]|] eqn:E;
      [|discriminate].
    apply bitmap_alloc_some in E. destruct E as (Hb & Hclr & _ & ->).
    fold nb in Hb, Hclr, H.
    set (m2 := store_u32 _ _ _) in H.
    assert (F2 : forall x, x <> fs_dbmap + blk / 8 ->
              x < fs_sb + SB_FREE_BLOCKS \/ fs_sb + SB_FREE_BLOCKS + 4 <= x ->
              m2 x = m x).
    { intros x Hx1 Hx2. unfold m2. to_le.
      peel_with ltac:(layout; zlia). reflexivity. }
    assert (Hnb2 : sb_num_blocks m2 = nb).
    { unfold nb, sb_num_blocks. apply load_u32_frame. intros x Hx.
      apply F2; layout; zlia. }
    assert (Hbit : forall j, 0 <= j -> bitmap_isset m2 fs_dbmap nb j
              = if Z.eq_dec blk j then true else bitmap_isset m fs_dbmap nb j).
    { intros j Hj0. unfold m2.
      rewrite (bitmap_isset_frame
                 (bitmap_set (bitmap_set m fs_dbmap nb blk true) fs_dbmap
                    (sb_num_blocks (bitmap_set m fs_dbmap nb blk true)) blk true)
                 _ fs_dbmap nb nb j).
      - destruct (Z.eq_dec blk j) as [<-|Hne].
        + apply bitmap_isset_set_same.
        + rewrite !bitmap_isset_set_other by exact Hne. reflexivity.
      - to_le. apply store_le_other. layout. zlia. }
    destruct (IH m2 m' H) as (Hk & Hfb & Hcnt & Hmono & Habove & Hfr).
    { rewrite Hnb2. exact Hnb. }
    rewrite Hnb2 in Hk, Hcnt, Hmono, Habove.
    assert (Hcount : k = count_clear m2 fs_dbmap 0 nb + 1).
    { unfold k. apply (count_clear_taken m m2 fs_dbmap 0 nb blk).
      - lia.
      - exact Hclr.
      - rewrite Hbit by lia.
        destruct (Z.eq_dec blk blk); [reflexivity|contradiction].
      - intros j Hj Hne. rewrite Hbit by lia.
        destruct (Z.eq_dec blk j); [|reflexivity]. now subst. }
    assert (Hfb2 : sb_free_blocks m2 = u32 (sb_free_blocks m - 1)).
    { unfold sb_free_blocks at 1. unfold m2. rewrite load_u32_store_u32.
      f_equal. f_equal. unfold sb_free_blocks. to_le.
      peel_with ltac:(layout; zlia). reflexivity. }
    split; [lia|]. split.
    { rewrite Hfb, Hfb2, u32_sub_l. f_equal. lia. }
    split; [lia|]. split.
    { intros j Hj Hs. apply Hmono; [exact Hj|]. rewrite Hbit by exact Hj.
      destruct (Z.eq_dec blk j); [reflexivity|exact Hs]. }
    split.
    { intros j Hj. rewrite Habove by exact Hj. rewrite Hbit by lia.
      destruct (Z.eq_dec blk j); [lia|reflexivity]. }
    intros x Hx1 Hx2. rewrite Hfr by assumption.
    apply F2; [layout; zlia|exact Hx2].
Qed.

(** ** The freeing loop of truncate *)

Section Truncate_free_loop.

Variable P : params.
Variable inode : Z.
Variable nb : Z.
Variable d : Z -> Z.

Hypothesis inode_above : VSFS_ITBL_BLKNUM * VSFS_BLOCK_SIZE <= inode.

(** The freeing loop of [vsfs_truncate], started at round [i] with [n]
    rounds to go; [d j] is the direct pointer read at round [j].  The
    pointers read are pairwise distinct, below the number of blocks [nb],
    inside the one-block bitmap, and marked allocated. *)
Lemma truncate_free_run n : forall i m,
  0 <= i -> i + Z.of_nat n <= VSFS_NUM_DIRECT P ->
  (forall j, i <= j < i + Z.of_nat n ->
     i_direct m inode (VSFS_NUM_DIRECT P - 1 - j) = d j) ->
  sb_num_blocks m = nb ->
  (forall j, i <= j < i + Z.of_nat n ->
     0 <= d j < nb /\ d j < 8 * VSFS_BLOCK_SIZE /\
     bitmap_isset m fs_dbmap 0 (d j) = true) ->
  (forall j j', i <= j < i + Z.of_nat n -> i <= j' < i + Z.of_nat n ->
     d j = d j' -> j = j') ->
  exists mf,
    truncate_free P n i inode m = Some mf /\
    sb_free_blocks mf = u32 (sb_free_blocks m + Z.of_nat n) /\
    (forall x, x < fs_dbmap \/ fs_dbmap + VSFS_BLOCK_SIZE <= x ->
               x < fs_sb + SB_FREE_BLOCKS \/ fs_sb + SB_FREE_BLOCKS + 4 <= x ->
               mf x = m x) /\
    (forall j, i <= j < i + Z.of_nat n ->
               bitmap_isset mf fs_dbmap 0 (d j) = false) /\
    (forall b, 0 <= b -> (forall j, i <= j < i + Z.of_nat n -> d j <> b) ->
               bitmap_isset mf fs_dbmap 0 b = bitmap_isset m fs_dbmap 0 b).
Proof.
  induction n as [|n IH]; intros i m Hi Hn Hd Hnb Hset Hapart.
  - exists m. cbn [truncate_free]. split; [reflexivity|]. split.
    { simpl. rewrite Z.add_0_r. symmetry. apply u32_small. apply load_u32_range. }
    split; [reflexivity|]. split; [intros j Hj; lia|reflexivity].
  - set (mb := bitmap_set m fs_dbmap (sb_num_blocks m) (d i) false).
    set (m1 := store_u32 mb (fs_sb + SB_FREE_BLOCKS) (sb_free_blocks mb + 1)).
    destruct (Hset i ltac:(lia)) as (Hri & Hri8 & Hsi).
    assert (Hfree : bitmap_free m fs_dbmap (sb_num_blocks m)
                      (i_direct m inode (VSFS_NUM_DIRECT P - 1 - i))
                    = Some mb).
    { unfold bitmap_free. rewrite (Hd i) by lia. rewrite Hnb.
      destruct (Z.ltb_spec (d i) nb); [|lia].
      change (bitmap_isset m fs_dbmap nb (d i))
        with (bitmap_isset m fs_dbmap 0 (d i)).
      rewrite Hsi. unfold mb. now rewrite Hnb. }
    assert (Hfr : forall x,
              x <> fs_dbmap + d i / 8 ->
              x < fs_sb + SB_FREE_BLOCKS \/ fs_sb + SB_FREE_BLOCKS + 4 <= x ->
              m1 x = m x).
    { intros x Hx1 Hx2. unfold m1, mb. to_le.
      peel_with ltac:(layout; zlia). reflexivity. }
    assert (Hload : forall a, fs_dbmap + VSFS_BLOCK_SIZE <= a ->
                      load_u32 m1 a = load_u32 m a).
    { intros a Ha. apply load_u32_frame. intros x Hx. apply Hfr; layout; zlia. }
    assert (Hbit : forall b, 0 <= b -> bitmap_isset m1 fs_dbmap 0 b
              = if Z.eq_dec (d i) b then false else bitmap_isset m fs_dbmap 0 b).
    { intros b Hb0. unfold m1.
      rewrite (bitmap_isset_frame mb _ fs_dbmap 0 0 b).
      - unfold mb. destruct (Z.eq_dec (d i) b) as [<-|Hne].
        + apply bitmap_isset_set_same.
        + apply bitmap_isset_set_other. exact Hne.
      - to_le. peel_with ltac:(layout; zlia). reflexivity. }
    destruct (IH (i + 1) m1) as (mf & Hrun & Hfb & Hframe & Hclr & Hoth).
    + lia.
    + lia.
    + intros j Hj. unfold i_direct. rewrite Hload.
      * apply Hd. lia.
      * layout. lia.
    + rewrite <- Hnb. unfold sb_num_blocks. apply load_u32_frame.
      intros x Hx. apply Hfr; layout; zlia.
    + intros j Hj. destruct (Hset j ltac:(lia)) as (Hrj & Hrj8 & Hsj).
      split; [exact Hrj|]. split; [exact Hrj8|].
      rewrite Hbit by lia.
      destruct (Z.eq_dec (d i) (d j)) as [E|_]; [|exact Hsj].
      apply Hapart in E; lia.
    + intros j j' Hj Hj'. apply Hapart; lia.
    + exists mf. split.
      { cbn [truncate_free]. rewrite Hfree. exact Hrun. }
      split.
      { rewrite Hfb. unfold sb_free_blocks at 1. unfold m1.
        rewrite load_u32_store_u32, u32_add_l.
        replace (sb_free_blocks mb) with (sb_free_blocks m).
        - f_equal. lia.
        - unfold sb_free_blocks, mb. to_le.
          peel_with ltac:(layout; zlia). reflexivity. }
      split.
      { intros x Hx1 Hx2. rewrite Hframe by assumption.
        apply Hfr; [layout; zlia | exact Hx2]. }
      split.
      { intros j Hj. destruct (Z.eq_dec j i) as [->|Hne].
        - rewrite Hoth.
          + rewrite Hbit by lia.
            destruct (Z.eq_dec (d i) (d i)); [reflexivity|contradiction].
          + lia.
          + intros j' Hj' E. apply Hapart in E; lia.
        - apply Hclr. lia. }
      { intros b Hb Hnot. rewrite Hoth; [|exact Hb|intros j Hj; apply Hnot; lia].
        rewrite Hbit by exact Hb.
        destruct (Z.eq_dec (d i) b) as [E|E]; [|reflexivity].
        exfalso. apply (Hnot i); [lia|exact E]. }
Qed.

End Truncate_free_loop.

(** * Part III: the claims *)

(** ** C1: write followed by read *)

(** C1.  After thirteen successful writes at offset 0 the file "/a" is
    22528 bytes long.  A four-byte write at offset 20480 succeeds and
    returns 4; the read of the same range returns 4 bytes that differ from
    the buffer.  The file's block pointers are all zero (no allocated block
    is ever stored in the inode), so the write lands in block 0 of the image,
    which is also where [get_address] looks for the indirect pointers. *)
Theorem write_then_read_differs :
  write_zeros img_a grow_sizes = Some img_grown /\
  path_lookup std img_grown path_a = Found 1 /\
  S_ISREG (i_mode img_grown (fs_itable std 1)) = true /\
  i_size img_grown (fs_itable std 1) = 22528 /\
  exists m',
    vsfs_write std img_grown path_a (bytes_of [1; 0; 0; 0]) 4 20480 t0 t0
    = Some (4, m') /\
    vsfs_read std m' path_a 4 20480 = Some (4, bytes_of [3; 0; 0; 0]).
Proof.
  split.
  { unfold img_grown.
    assert (E : match write_zeros img_a grow_sizes with
                | Some _ => true | None => false end = true)
      by (vm_compute; reflexivity).
    destruct (write_zeros img_a grow_sizes); [reflexivity|discriminate]. }
  split; [vm_compute; reflexivity|].
  split; [vm_compute; reflexivity|].
  split; [vm_compute; reflexivity|].
  exists (image_of
            (vsfs_write std img_grown path_a (bytes_of [1; 0; 0; 0]) 4 20480 t0 t0)).
  split.
  - assert (E : result_of (vsfs_write std img_grown path_a
                             (bytes_of [1; 0; 0; 0]) 4 20480 t0 t0) = Some 4)
      by (vm_compute; reflexivity).
    destruct (vsfs_write std img_grown path_a (bytes_of [1; 0; 0; 0]) 4 20480 t0 t0)
      as [[r m']|]; simpl in E; [|discriminate].
    now inversion E.
  - vm_compute. reflexivity.
Qed.

(** ** C2: operations that fail *)

Section Errors.

Variable P : params.
Hypothesis OK : params_ok P.

Lemma lookup_ino_range m path ino :
  lookup_ino P (path_lookup P m path) = Some ino -> 0 <= ino < 2 ^ 32.
Proof.
  destruct (path_lookup P m path) as [i| |] eqn:E; cbn [lookup_ino];
    intros H; inversion H; subst.
  - apply (path_lookup_found_range P m path). exact E.
  - pose proof (ino_max_range P OK). lia.
Qed.

(** [vsfs_create] that fails after it allocated the inode: no slot of the
    root directory was free, and nothing is undone. *)
Lemma create_no_slot m path mode now_i now_p r m' ino m1 :
  vsfs_create P m path mode now_i now_p = Some (r, m') -> r < 0 ->
  sb_free_inodes m <> 0 ->
  bitmap_alloc m fs_ibmap (sb_num_inodes m) = Some (ino, m1) ->
  sb_num_inodes m <= 8 * VSFS_BLOCK_SIZE ->
  bitmap_isset m fs_ibmap (sb_num_inodes m) 0 = true ->
  VSFS_ITBL_BLKNUM * VSFS_BLOCK_SIZE + sb_num_inodes m * INODE_SIZE P
    <= i_direct m (fs_itable P 0) 0 * VSFS_BLOCK_SIZE ->
  (forall i, 0 <= i < NUM_DENTRIES P -> dentry_ino P m i <> VSFS_INO_MAX P) /\
  bitmap_isset m fs_ibmap (sb_num_inodes m) ino = false /\
  bitmap_isset m' fs_ibmap (sb_num_inodes m) ino = true /\
  sb_free_inodes m' = sb_free_inodes m - 1 /\
  sb_free_blocks m' = sb_free_blocks m /\
  (forall x, fs_dbmap <= x < fs_dbmap + VSFS_BLOCK_SIZE -> m' x = m x) /\
  (forall x, i_direct m (fs_itable P 0) 0 * VSFS_BLOCK_SIZE <= x
             < i_direct m (fs_itable P 0) 0 * VSFS_BLOCK_SIZE + VSFS_BLOCK_SIZE ->
             m' x = m x).
Proof.
  intros H Hr Hfree Halloc Hnum Hroot Hdir.
  pose proof (inode_size_bounds P OK) as HS.
  pose proof (bitmap_alloc_some _ _ _ _ _ Halloc) as (Hino & Hclear & _ & Hm1).
  assert (Hino0 : ino <> 0) by (intros ->; rewrite Hroot in Hclear; discriminate).
  assert (Hmul1 : INODE_SIZE P <= ino * INODE_SIZE P) by nia.
  assert (Hmul2 : ino * INODE_SIZE P + INODE_SIZE P
                  <= sb_num_inodes m * INODE_SIZE P) by nia.
  pose proof (inode_holds_fields P OK) as Hfields. unfold I_INDIRECT in Hfields.
  pose proof (num_direct_min P OK) as Hnd.
  pose proof (load_u32_range m (fs_sb + SB_FREE_INODES)) as Hfr.
  fold (sb_free_inodes m) in Hfr.
  set (D := i_direct m (fs_itable P 0) 0) in *.
  unfold vsfs_create in H.
  destruct (S_ISREG mode); cbn [negb] in H; [|discriminate].
  destruct (Z.eqb_spec (sb_free_inodes m) 0) as [E0|_]; [contradiction|].
  rewrite Halloc in H.
  match type of H with
  | context [set_mtime ?mm (fs_itable P ino) now_i] =>
      set (mx := set_mtime mm (fs_itable P ino) now_i) in H
  end.
  assert (Hframe : forall x,
            x <> fs_ibmap + ino / 8 ->
            x < fs_itable P ino \/ fs_itable P ino + INODE_SIZE P <= x ->
            x < fs_sb + SB_FREE_INODES \/ fs_sb + SB_FREE_INODES + 4 <= x ->
            mx x = m x).
  { intros x Hx1 Hx2 Hx3. unfold mx. subst m1. to_le.
    peel_with ltac:(layout; zlia). reflexivity. }
  pose proof (num_dentries_bounds P OK) as [HK1 HK2].
  destruct (first_slot (fun i => dentry_ino P mx i =? VSFS_INO_MAX P)
              (Z.to_nat (NUM_DENTRIES P)) 0) as [i|] eqn:Hscan.
  { destruct (leaf_name path); [|discriminate]. inversion H. lia. }
  inversion H; subst r m'. clear H.
  split.
  { intros j Hj.
    pose proof (first_slot_none _ _ _ Hscan j) as Hn. cbv beta in Hn.
    rewrite Z2Nat.id in Hn by lia. specialize (Hn ltac:(lia)).
    apply Z.eqb_neq in Hn.
    rewrite (proj2 (dentry_ino_frame P OK m mx j ltac:(lia)
                      ltac:(intros x Hx; apply Hframe; layout; zlia)
                      ltac:(intros x Hx; apply Hframe; layout; zlia))) in Hn.
    exact Hn. }
  split; [exact Hclear|].
  repeat split.
  - rewrite (bitmap_isset_frame
               (bitmap_set m1 fs_ibmap (sb_num_inodes m1) ino true) mx
               fs_ibmap (sb_num_inodes m) (sb_num_inodes m) ino).
    + apply bitmap_isset_set_same.
    + unfold mx. to_le. peel_with ltac:(layout; zlia). reflexivity.
  - unfold sb_free_inodes in *. unfold mx. subst m1. to_le.
    peel_with ltac:(layout; zlia). rewrite load4_store4.
    peel_with ltac:(layout; zlia). apply u32_small. lia.
  - unfold sb_free_blocks. apply load_u32_frame. intros x Hx.
    apply Hframe; layout; zlia.
  - intros x Hx. apply Hframe; layout; zlia.
  - intros x Hx. apply Hframe; layout; zlia.
Qed.

(** The error codes of [vsfs_truncate]; EFBIG is found before any store. *)
Lemma truncate_errors m path size now r m' :
  vsfs_truncate P m path size now = Some (r, m') -> r < 0 ->
  r = - EFBIG /\ m' = m \/ r = - ENOSPC.
Proof.
  unfold vsfs_truncate. intros H Hr.
  destruct (_ <? div_round_up size VSFS_BLOCK_SIZE);
    [apply some_pair_inj in H; destruct H as [<- <-]; left; split; reflexivity|].
  destruct (lookup_ino P (path_lookup P m path)) as [ino|]; [|discriminate].
  destruct (u64 size =? _); [apply some_pair_inj in H; lia|].
  destruct (truncate_blocks P _ _ _) as [[[|] ml]|]; try discriminate;
    apply some_pair_inj in H; [lia|right; now destruct H as [<- _]].
Qed.

(** C2 (amended).  No operation of the engine undoes a store.  A call that
    returns an error leaves the image as it was only when the error is found
    before the first store.  [vsfs_unlink] and [vsfs_utimens] return no
    error.  [vsfs_create] fails only with -ENOSPC: with the image unchanged
    when free_inodes is 0 or the inode bitmap has no clear bit, and
    otherwise because no slot of the root directory is free, keeping the
    inode it allocated (its bit, clear before, is set and free_inodes is one
    lower), while free_blocks, the data bitmap and the directory block stay
    as they were.  [vsfs_truncate] fails with -EFBIG and the image
    unchanged, or with -ENOSPC after it zero-filled [old size, new size) and
    allocated every block that was free: the zero fill stays, the data
    bitmap has no clear bit below num_blocks, free_blocks is lower by the
    number of bits that were clear (fewer than the call needed), and the
    size and block count of the inode are not updated.  [vsfs_write] of
    fewer than 2^31 bytes fails with -EFBIG and the image unchanged, or as
    the [vsfs_truncate] it calls failed.  What is said of the bitmaps and
    counters holds, in an image mapped with [mapped] bytes: for create, when
    the inode bitmap fits one block, the root inode is marked allocated, the
    inode table lies below the root directory block and that block inside
    the mapping; for truncate, when the data bitmap fits one block, the
    inode and the zero-filled range lie inside the mapping, and that range
    lies neither over num_blocks or free_blocks, nor over the data bitmap,
    nor over the size and block count of the inode. *)
Theorem failed_operations c m r m' mapped :
  perform P c m = Some (r, m') -> r < 0 ->
  match c with
  | Op_create path mode now_i now_p =>
      r = - ENOSPC /\
      ((sb_free_inodes m = 0
        \/ bitmap_alloc m fs_ibmap (sb_num_inodes m) = None) /\ m' = m
       \/ exists ino m1,
            sb_free_inodes m <> 0 /\
            bitmap_alloc m fs_ibmap (sb_num_inodes m) = Some (ino, m1) /\
            (sb_num_inodes m <= 8 * VSFS_BLOCK_SIZE ->
             bitmap_isset m fs_ibmap (sb_num_inodes m) 0 = true ->
             VSFS_ITBL_BLKNUM * VSFS_BLOCK_SIZE
               + sb_num_inodes m * INODE_SIZE P
               <= i_direct m (fs_itable P 0) 0 * VSFS_BLOCK_SIZE ->
             i_direct m (fs_itable P 0) 0 * VSFS_BLOCK_SIZE + VSFS_BLOCK_SIZE
               <= mapped ->
             (forall i, 0 <= i < NUM_DENTRIES P ->
                dentry_ino P m i <> VSFS_INO_MAX P) /\
             bitmap_isset m fs_ibmap (sb_num_inodes m) ino = false /\
             bitmap_isset m' fs_ibmap (sb_num_inodes m) ino = true /\
             sb_free_inodes m' = sb_free_inodes m - 1 /\
             sb_free_blocks m' = sb_free_blocks m /\
             (forall x, fs_dbmap <= x < fs_dbmap + VSFS_BLOCK_SIZE ->
                m' x = m x) /\
             (forall x, i_direct m (fs_itable P 0) 0 * VSFS_BLOCK_SIZE <= x
                        < i_direct m (fs_itable P 0) 0 * VSFS_BLOCK_SIZE
                          + VSFS_BLOCK_SIZE ->
                m' x = m x)))
  | Op_unlink _ _ => False
  | Op_utimens _ _ _ => False
  | Op_truncate path size now =>
      r = - EFBIG /\ m' = m
      \/ r = - ENOSPC /\
         exists ino,
           lookup_ino P (path_lookup P m path) = Some ino /\
           let a := fs_itable P ino in
           let new_blocks := div_round_up size VSFS_BLOCK_SIZE in
           let zf := get_address P m a (i_size m a) in
           let zl :=
             if i_size m a <? u64 size then u64 (size - i_size m a) else 0 in
           let apart p q := zl <= 0 \/ zf + zl <= p \/ q <= zf in
           let nb := sb_num_blocks m in
           let k := count_clear m fs_dbmap 0 nb in
           nb <= 8 * VSFS_BLOCK_SIZE ->
           a + INODE_SIZE P <= mapped ->
           zf + zl <= mapped ->
           apart (fs_sb + SB_NUM_BLOCKS) (fs_sb + SB_FREE_BLOCKS + 4) ->
           apart fs_dbmap (fs_dbmap + VSFS_BLOCK_SIZE) ->
           apart (a + I_SIZE) (a + I_BLOCKS + 4) ->
           i_blocks m a < new_blocks /\
           k < Z.min (new_blocks - i_blocks m a) (VSFS_NUM_DIRECT P) /\
           sb_free_blocks m' = u32 (sb_free_blocks m - k) /\
           (forall j, 0 <= j < nb -> bitmap_isset m' fs_dbmap nb j = true) /\
           (forall x, zf <= x < zf + zl -> m' x = x00) /\
           i_size m' a = i_size m a /\
           i_blocks m' a = i_blocks m a /\
           (forall x, x < zf \/ zf + zl <= x ->
                      x < fs_dbmap \/ fs_dbmap + VSFS_BLOCK_SIZE <= x ->
                      x < fs_sb + SB_FREE_BLOCKS
                      \/ fs_sb + SB_FREE_BLOCKS + 4 <= x ->
                      m' x = m x)
  | Op_write path buf size offset now_t now =>
      0 <= size < 2 ^ 31 ->
      r = - EFBIG /\ m' = m
      \/ r = - ENOSPC /\
         perform P (Op_truncate path (s64 (offset + size)) now_t) m
         = Some (r, m')
  end.
Proof.
  intros H Hr. destruct c as [path mode now_i now_p | path now
    | path mtime now | path size now | path buf size offset now_t now];
    cbn [perform] in H.
  - (* create *)
    pose proof H as H0. unfold vsfs_create in H0.
    destruct (S_ISREG mode); cbn [negb] in H0; [|discriminate].
    destruct (Z.eqb_spec (sb_free_inodes m) 0) as [E0|E0].
    { apply some_pair_inj in H0. destruct H0 as [<- <-].
      split; [reflexivity|]. left. split; [left; exact E0|reflexivity]. }
    destruct (bitmap_alloc m fs_ibmap (sb_num_inodes m)) as [[ino m1]|] eqn:Halloc.
    2:{ apply some_pair_inj in H0. destruct H0 as [<- <-].
        split; [reflexivity|]. left.
        split; [right; reflexivity|reflexivity]. }
    assert (Hcode : r = - ENOSPC).
    { destruct (first_slot _ _ _).
      - destruct (leaf_name path); [|discriminate].
        apply some_pair_inj in H0. lia.
      - apply some_pair_inj in H0. now destruct H0 as [<- _]. }
    split; [exact Hcode|]. right. exists ino, m1.
    split; [exact E0|]. split; [reflexivity|].
    intros Hnum Hroot Hdir _.
    exact (create_no_slot m path mode now_i now_p r m' ino m1 H Hr E0 Halloc
             Hnum Hroot Hdir).
  - (* unlink *)
    unfold vsfs_unlink in H.
    destruct (lookup_ino P (path_lookup P m path)) as [ino|]; [|discriminate].
    destruct (unlink_free_inode _ _ _) as [m2|]; [|discriminate].
    destruct (iterate 33 _ _) as [s|[mf|]]; try discriminate.
    destruct (first_slot _ _ _); apply some_pair_inj in H; lia.
  - (* utimens *)
    unfold vsfs_utimens in H.
    destruct (snd mtime =? UTIME_OMIT); [apply some_pair_inj in H; lia|].
    destruct (lookup_ino P (path_lookup P m path)) as [ino|]; [|discriminate].
    destruct (snd mtime =? UTIME_NOW); apply some_pair_inj in H; lia.
  - (* truncate *)
    unfold vsfs_truncate in H.
    destruct (_ <? div_round_up size VSFS_BLOCK_SIZE);
      [apply some_pair_inj in H; destruct H as [<- <-]; left; split;
       reflexivity|].
    destruct (lookup_ino P (path_lookup P m path)) as [ino|] eqn:Hl;
      [|discriminate].
    destruct (u64 size =? _); [apply some_pair_inj in H; lia|].
    destruct (truncate_blocks P _ _ _) as [[[|] ml]|] eqn:Eb;
      try discriminate; apply some_pair_inj in H; [lia|].
    destruct H as [<- <-].
    right. split; [reflexivity|]. exists ino. split; [reflexivity|].
    intros a new_blocks zf zl apart nb k Hnb _ _ Hz1 Hz2 Hz3.
    unfold apart in *. clear apart. fold a in Eb.
    set (mz := if i_size m a <? u64 size
               then memset m (get_address P m a (i_size m a)) x00
                      (u64 (size - i_size m a))
               else m) in *.
    pose proof (lookup_ino_range m path ino Hl) as Hino.
    pose proof (inode_size_bounds P OK) as HS.
    pose proof (num_direct_min P OK) as Hnd.
    assert (Ha : fs_dbmap + VSFS_BLOCK_SIZE <= a)
      by (unfold a; layout; nia).
    assert (Fz : forall x, x < zf \/ zf + zl <= x -> mz x = m x).
    { intros x Hx. unfold mz, zl, zf in *.
      destruct (i_size m a <? u64 size); [|reflexivity].
      apply memset_other. exact Hx. }
    assert (Zz : forall x, zf <= x < zf + zl -> mz x = x00).
    { intros x Hx. unfold mz, zl, zf in *.
      destruct (i_size m a <? u64 size); [|lia].
      apply memset_in. exact Hx. }
    assert (Hbz : i_blocks mz a = i_blocks m a).
    { unfold i_blocks. apply load_u32_frame. intros x Hx. apply Fz.
      layout. lia. }
    assert (Hnbz : sb_num_blocks mz = nb).
    { unfold nb, sb_num_blocks. apply load_u32_frame. intros x Hx. apply Fz.
      layout. lia. }
    assert (Hfbz : sb_free_blocks mz = sb_free_blocks m).
    { unfold sb_free_blocks. apply load_u32_frame. intros x Hx. apply Fz.
      layout. lia. }
    assert (Hkz : count_clear mz fs_dbmap 0 nb = k).
    { apply count_clear_same. intros j Hj. apply bitmap_isset_frame.
      apply Fz. layout. zlia. }
    clearbody mz.
    unfold truncate_blocks in Eb. rewrite Hbz in Eb.
    destruct (Z.ltb_spec (i_blocks m a) (div_round_up size VSFS_BLOCK_SIZE))
      as [Hgrow|Hshrink].
    2:{ destruct (truncate_free P _ _ _ _); discriminate. }
    fold new_blocks in Hgrow, Eb.
    set (cnt := if VSFS_NUM_DIRECT P <? new_blocks - i_blocks m a
                then VSFS_NUM_DIRECT P else new_blocks - i_blocks m a) in *.
    assert (Hcnt : cnt = Z.min (new_blocks - i_blocks m a) (VSFS_NUM_DIRECT P)).
    { unfold cnt. destruct (Z.ltb_spec (VSFS_NUM_DIRECT P)
                              (new_blocks - i_blocks m a)); lia. }
    assert (Eb' : truncate_alloc (Z.to_nat cnt) mz = (false, ml))
      by (now inversion Eb).
    clear Eb. rename Eb' into Eb.
    destruct (truncate_alloc_fails _ _ _ Eb) as (Hk & Hfb & Hall & Hfr).
    { rewrite Hnbz. exact Hnb. }
    rewrite Hnbz, Hkz in Hk, Hfb. rewrite Hnbz in Hall.
    rewrite Z2Nat.id in Hk by lia.
    split; [exact Hgrow|]. split; [lia|]. split; [now rewrite Hfb, Hfbz|].
    split; [exact Hall|]. split.
    { intros x Hx. rewrite Hfr by (layout; lia). now apply Zz. }
    split.
    { unfold i_size. apply load_u64_frame. intros x Hx.
      rewrite Hfr by (layout; lia). apply Fz. layout. lia. }
    split.
    { unfold i_blocks. apply load_u32_frame. intros x Hx.
      rewrite Hfr by (layout; lia). apply Fz. layout. lia. }
    intros x Hx1 Hx2 Hx3. rewrite Hfr by assumption. now apply Fz.
  - (* write *)
    intros Hsize. unfold vsfs_write in H.
    destruct (lookup_ino P (path_lookup P m path)) as [ino|]; [|discriminate].
    destruct (i_size m (fs_itable P ino) <? u64 offset);
      [apply some_pair_inj in H; destruct H as [<- <-]; left; split;
       reflexivity|].
    assert (Hs32 : s32 size = size).
    { unfold s32. rewrite Z.mod_small by lia.
      destruct (Z.ltb_spec size (2 ^ 31)); lia. }
    destruct (i_size m (fs_itable P ino) <? u64 (u64 offset + size)).
    + destruct (vsfs_truncate P m path (s64 (offset + size)) now_t)
        as [[res mt]|] eqn:Et; [|discriminate].
      destruct (Z.ltb_spec res 0) as [Hneg|Hpos].
      * apply some_pair_inj in H. destruct H as [<- <-].
        destruct (truncate_errors _ _ _ _ _ _ Et Hneg) as [[E1 E2]|E1].
        -- left. split; assumption.
        -- right. split; [exact E1|]. exact Et.
      * apply some_pair_inj in H. lia.
    + change (0 <? 0) with false in H. cbv iota in H.
      apply some_pair_inj in H. lia.
Qed.

End Errors.


Lemma failed_operations_witness :
  (perform std (Op_create path_z REG t0 t0) img_full
   = Some (- ENOSPC, img_full_z) /\
   sb_free_inodes img_full_z = sb_free_inodes img_full - 1 /\
   sb_free_blocks img_full_z = sb_free_blocks img_full) /\
  (perform std (Op_truncate path_a 1 t0) img_small_a
   = Some (- ENOSPC, img_small_a1) /\
   img_small_a1 0 = x00 /\
   i_size img_small_a1 (fs_itable std 1) = i_size img_small_a (fs_itable std 1)).
Proof.
  split.
  - assert (Hc : perform std (Op_create path_z REG t0 t0) img_full
                 = Some (- ENOSPC, img_full_z)).
    { cbn [perform]. unfold img_full_z.
      assert (E : result_of (vsfs_create std img_full path_z REG t0 t0)
                  = Some (- ENOSPC)) by (vm_compute; reflexivity).
      destruct (vsfs_create std img_full path_z REG t0 t0) as [[r m']|];
        simpl in E; [|discriminate].
      inversion E. reflexivity. }
    assert (Halloc :
      bitmap_alloc img_full fs_ibmap (sb_num_inodes img_full)
      = Some (15, bitmap_set img_full fs_ibmap (sb_num_inodes img_full) 15 true)).
    { apply bitmap_alloc_found. vm_compute. reflexivity. }
    assert (Hfree : sb_free_inodes img_full = 17) by (vm_compute; reflexivity).
    split; [exact Hc|].
    destruct (failed_operations std std_ok _ _ _ _ MiB Hc ltac:(reflexivity))
      as [_ [[[E|E] _]|(ino & m1 & _ & _ & Hx)]].
    + rewrite Hfree in E. discriminate.
    + rewrite Halloc in E. discriminate.
    + destruct Hx as (_ & _ & _ & Hfi & Hfb & _).
      * vm_compute. discriminate.
      * vm_compute. reflexivity.
      * vm_compute. discriminate.
      * vm_compute. discriminate.
      * split; assumption.
  - assert (Ht : perform std (Op_truncate path_a 1 t0) img_small_a
                 = Some (- ENOSPC, img_small_a1)).
    { cbn [perform]. unfold img_small_a1.
      assert (E : result_of (vsfs_truncate std img_small_a path_a 1 t0)
                  = Some (- ENOSPC)) by (vm_compute; reflexivity).
      destruct (vsfs_truncate std img_small_a path_a 1 t0) as [[r m']|];
        simpl in E; [|discriminate].
      inversion E. reflexivity. }
    split; [exact Ht|].
    destruct (failed_operations std std_ok _ _ _ _ (5 * VSFS_BLOCK_SIZE) Ht
                ltac:(reflexivity))
      as [[E _]|[_ (ino & Hl & Hx)]]; [discriminate|].
    assert (Hino : ino = 1).
    { assert (E : lookup_ino std (path_lookup std img_small_a path_a) = Some 1)
        by (vm_compute; reflexivity).
      rewrite E in Hl. now inversion Hl. }
    subst ino. cbv zeta in Hx.
    destruct Hx as (_ & _ & _ & _ & Hzero & Hsize & _).
    + vm_compute. discriminate.
    + vm_compute. discriminate.
    + vm_compute. discriminate.
    + right; left. vm_compute. discriminate.
    + right; left. vm_compute. discriminate.
    + right; left. vm_compute. discriminate.
    + split; [|exact Hsize]. apply Hzero.
      split; [vm_compute; discriminate|vm_compute; reflexivity].
Defined.

(** C2 as stated fails: with all sixteen slots of the root directory in use
    and 17 free inodes, creating "/z" returns -ENOSPC and the allocation of
    inode 15 is not rolled back: its bit is set, free_inodes is 16, and no
    directory slot names inode 15. *)
Lemma create_failure_leaks_inode :
  result_of (vsfs_create std img_full path_z REG t0 t0) = Some (- ENOSPC) /\
  sb_free_inodes img_full = 17 /\
  sb_free_inodes img_full_z = 16 /\
  bitmap_isset img_full fs_ibmap 32 15 = false /\
  bitmap_isset img_full_z fs_ibmap 32 15 = true /\
  forallb (fun i => negb (dentry_ino std img_full_z i =? 15)) (indices 16) = true.
Proof. vm_compute. repeat split. Qed.


(** ** C3: truncate *)

(** C3.  In the image of 256 blocks and 32 inodes that holds the empty file
    "/a", [vsfs_truncate] of "/a" to one byte returns 0 and sets exactly one
    bit of the data bitmap, bit 5, but the block is not recorded as the
    file's block: the block count is 1 while every direct pointer and the
    indirect pointer of the inode are still 0.  The loop of [vsfs_truncate]
    receives the block number from [bitmap_alloc] in a local and never
    stores it in the inode. *)
Lemma truncate_block_not_recorded :
  result_of (vsfs_truncate std img_a path_a 1 t0) = Some 0 /\
  bitmap_isset img_a fs_dbmap 256 5 = false /\
  bitmap_isset img_a1 fs_dbmap 256 5 = true /\
  forallb (fun j => (j =? 5)
                    || Bool.eqb (bitmap_isset img_a fs_dbmap 256 j)
                                (bitmap_isset img_a1 fs_dbmap 256 j))
          (indices 256) = true /\
  i_blocks img_a1 (fs_itable std 1) = 1 /\
  forallb (fun k => i_direct img_a1 (fs_itable std 1) k =? 0) (indices 5) = true /\
  i_indirect std img_a1 (fs_itable std 1) = 0.
Proof. vm_compute. repeat split. Qed.

(** ** C4: unlink *)

(** C4.  In the image that holds the file "/hi" in slot 2 of the root
    directory, [vsfs_unlink] of "/hi" returns 0 and sets the inode number of
    the slot to INO_MAX, but the name is not cleared: the slot still holds
    the bytes "hi" and their terminator.  The [memset] of [vsfs_unlink]
    starts at the entry, not at its name, and is as long as the name: its two
    bytes fall on the inode number, which the next statement overwrites. *)
Lemma unlink_keeps_name :
  result_of (vsfs_unlink std img_hi path_hi t0) = Some 0 /\
  dentry_ino std img_hi 2 = 1 /\
  dentry_ino std img_hi_unlinked 2 = VSFS_INO_MAX std /\
  memcpy_out img_hi_unlinked (dentry_name std img_hi_unlinked 2) 3
  = bytes_of [104; 105; 0].
Proof. vm_compute. repeat split. Qed.

(** ** C5: zero fill *)

(** C5.  The file "/a" is 28 bytes long; truncating it to 32 bytes succeeds,
    and the read of the 4 new bytes at offset 28 returns a non-zero byte.
    The zeroed range lies in block 0 of the image, over the free-block
    counter, which the same call then increments. *)
Theorem truncate_then_read_not_zero :
  path_lookup std img_a28 path_a = Found 1 /\
  i_size img_a28 (fs_itable std 1) = 28 /\
  result_of (vsfs_truncate std img_a28 path_a 32 t0) = Some 0 /\
  vsfs_read std (image_of (vsfs_truncate std img_a28 path_a 32 t0)) path_a 4 28
  = Some (4, bytes_of [1; 0; 0; 0]).
Proof. vm_compute. repeat split. Qed.

(** ** C6: free counters *)

(** C6.  The counters agree with the bitmaps after formatting, after the
    creation of "/a" and after its extension to one byte; after the removal
    of "/a" the free-block counter is 251 while 250 data-region bits are
    clear: [vsfs_unlink] clears the bit named by the inode's first direct
    pointer, which is 0, not the block allocated by [vsfs_truncate]. *)
Theorem unlink_breaks_free_block_count :
  counters_match img_formatted /\
  counters_match img_a /\
  result_of (vsfs_truncate std img_a path_a 1 t0) = Some 0 /\
  counters_match img_a1 /\
  result_of (vsfs_unlink std img_a1 path_a t0) = Some 0 /\
  sb_free_blocks img_a1_unlinked = 251 /\
  count_clear img_a1_unlinked fs_dbmap
    (sb_data_region img_a1_unlinked) (sb_num_blocks img_a1_unlinked) = 250 /\
  ~ counters_match img_a1_unlinked.
Proof.
  assert (H1 : sb_free_blocks img_a1_unlinked = 251) by (vm_compute; reflexivity).
  assert (H2 : count_clear img_a1_unlinked fs_dbmap
                 (sb_data_region img_a1_unlinked) (sb_num_blocks img_a1_unlinked)
               = 250) by (vm_compute; reflexivity).
  repeat split; try (vm_compute; reflexivity); try assumption.
  intros [_ H]. rewrite H1, H2 in H. discriminate.
Qed.

(** ** C7: the block count recorded by the formatter *)

(** C7.  An image of 2^32 + 256 blocks is formatted with 32 inodes.  The
    format succeeds and the superblock records the size of the image,
    (2^32 + 256) * BLOCK_SIZE bytes, but num_blocks is 256 and free_blocks
    is 251: [mkfs] narrows size / BLOCK_SIZE to the 32-bit type of block
    numbers before it compares it with BLK_MIN and BLK_MAX, so the image is
    not refused and the block count recorded is not that of the image. *)
Lemma mkfs_block_count_truncated :
  size_wide / VSFS_BLOCK_SIZE = 2 ^ 32 + 256 /\
  VSFS_BLK_MAX std < size_wide / VSFS_BLOCK_SIZE /\
  fst (mkfs std blank size_wide 32 (Some t0)) = true /\
  sb_size (snd (mkfs std blank size_wide 32 (Some t0))) = size_wide /\
  sb_num_blocks (snd (mkfs std blank size_wide 32 (Some t0))) = 256 /\
  sb_free_blocks (snd (mkfs std blank size_wide 32 (Some t0))) = 251.
Proof. vm_compute. repeat split. Qed.

(** ** C8: a failed format *)

Section Formatter_failure.

Variable P : params.

Lemma sb_magic_frame (m m' : image) :
  (forall x, x < VSFS_BLOCK_SIZE -> m' x = m x) -> sb_magic m' = sb_magic m.
Proof.
  intros H. unfold sb_magic. apply load_u64_frame. intros x Hx.
  apply H. layout. lia.
Qed.

Lemma fs_ctx_init_frame (m m' : image) :
  (forall x, x < VSFS_BLOCK_SIZE -> m' x = m x) ->
  forall sz, fs_ctx_init P m' sz = fs_ctx_init P m sz.
Proof.
  intros H sz. unfold fs_ctx_init. f_equal; f_equal.
  - apply load_u64_frame. intros x Hx. apply H. layout. lia.
  - apply load_u64_frame. intros x Hx. apply H. layout. lia.
Qed.

(** A format that fails writes nothing into block 0. *)
Lemma mkfs_failure_block0 m size n_inodes clock m' :
  mkfs P m size n_inodes clock = (false, m') ->
  forall x, x < VSFS_BLOCK_SIZE -> m' x = m x.
Proof.
  intros H.
  unfold mkfs in H.
  destruct (VSFS_INO_MAX P <=? n_inodes); [now inversion H|].
  destruct (_ || _); [now inversion H|].
  destruct clock as [now|].
  - destruct (bitmap_alloc _ _ _) as [[blk mb]|] eqn:E; [discriminate|].
    inversion H; subst m'. clear H E. intros x Hx. layout.
    unfold store_u32, store_u64.
    rewrite !store_le_below, set_mtime_below by lia.
    rewrite bitmap_set_below by lia.
    change (2 * 4096) with fs_dbmap.
    rewrite mark_itable_below by (layout; lia). layout.
    rewrite !bitmap_set_below, bitmap_init_below, memset_below by lia.
    rewrite bitmap_init_below, memset_below by lia. reflexivity.
  - inversion H; subst m'. clear H. intros x Hx. layout.
    rewrite bitmap_set_below by lia.
    change (2 * 4096) with fs_dbmap.
    rewrite mark_itable_below by (layout; lia). layout.
    rewrite !bitmap_set_below, bitmap_init_below, memset_below by lia.
    rewrite bitmap_init_below, memset_below by lia. reflexivity.
Qed.

(** C8 (amended).  A run of the formatter that fails does not write the
    magic, and it leaves block 0 byte for byte as it was unless it zeroed
    the image: with the zero flag, a run that is not refused for an existing
    file system fills the image with zeros before it formats, and the zeros
    stay when the format fails.  So after a failing run that did not zero
    the image, the magic field is what it was and mount answers as it did
    before the run: it refuses an image that did not carry the magic, and
    still accepts one that did.  After a failing run that zeroed an image of
    at least 8 bytes the magic field is 0, and mount refuses the image when
    MAGIC is not 0. *)
Theorem mkfs_failure_keeps_superblock m size n_inodes force zero clock r m' :
  mkfs_main P m size n_inodes force zero clock = (r, m') ->
  r <> Some 0 ->
  let zeroed := zero && (force || negb (vsfs_is_present P m)) in
  (forall x, x < VSFS_BLOCK_SIZE ->
     m' x = if zeroed && in_range 0 size x then x00 else m x) /\
  (zeroed = false ->
     sb_magic m' = sb_magic m /\
     (forall sz, fs_ctx_init P m' sz = fs_ctx_init P m sz) /\
     (vsfs_is_present P m = false -> forall sz, fs_ctx_init P m' sz = false)) /\
  (zeroed = true -> 8 <= size ->
     sb_magic m' = 0 /\
     (VSFS_MAGIC P <> 0 -> forall sz, fs_ctx_init P m' sz = false)).
Proof.
  intros H Hr zeroed.
  assert (F : forall x, x < VSFS_BLOCK_SIZE ->
                m' x = if zeroed && in_range 0 size x then x00 else m x).
  { unfold mkfs_main in H. subst zeroed.
    destruct force; cbn [negb andb orb] in *.
    - destruct (mkfs P _ size n_inodes clock) as [ok mf] eqn:E.
      destruct ok; [inversion H; subst; congruence|].
      inversion H; subst mf. intros x Hx.
      rewrite (mkfs_failure_block0 _ _ _ _ _ E x Hx).
      destruct zero; cbn [andb]; reflexivity.
    - destruct (vsfs_is_present P m); cbn [negb andb] in *.
      + inversion H; subst. intros x _. rewrite andb_false_r. reflexivity.
      + destruct (mkfs P _ size n_inodes clock) as [ok mf] eqn:E.
        destruct ok; [inversion H; subst; congruence|].
        inversion H; subst mf. intros x Hx.
        rewrite (mkfs_failure_block0 _ _ _ _ _ E x Hx).
        rewrite andb_true_r.
        destruct zero; cbn [andb]; reflexivity. }
  split; [exact F|]. split.
  - intros Hz.
    assert (F' : forall x, x < VSFS_BLOCK_SIZE -> m' x = m x).
    { intros x Hx. rewrite (F x Hx), Hz. reflexivity. }
    split; [now apply sb_magic_frame|].
    split; [now apply fs_ctx_init_frame|].
    intros Hp sz. rewrite (fs_ctx_init_frame _ _ F').
    unfold fs_ctx_init. fold (sb_magic m).
    unfold vsfs_is_present in Hp. now rewrite Hp.
  - intros Hz Hsize.
    assert (Hm : sb_magic m' = 0).
    { unfold sb_magic.
      rewrite (load_u64_frame blank m'); [vm_compute; reflexivity|].
      intros x Hx. layout. rewrite F by (layout; lia). rewrite Hz.
      unfold in_range. cbn [andb].
      destruct (Z.leb_spec 0 x); [|lia].
      destruct (Z.ltb_spec x (0 + size)); [|lia]. reflexivity. }
    split; [exact Hm|].
    intros HM sz. unfold fs_ctx_init. fold (sb_magic m'). rewrite Hm.
    destruct (Z.eqb_spec 0 (VSFS_MAGIC P)); [congruence|reflexivity].
Qed.

End Formatter_failure.

Lemma mkfs_failure_keeps_superblock_witness :
  (fst (mkfs_main std img_a MiB 32 true true None) = None /\
   sb_magic (snd (mkfs_main std img_a MiB 32 true true None)) = 0 /\
   fs_ctx_init std (snd (mkfs_main std img_a MiB 32 true true None)) MiB = false) /\
  (fst (mkfs_main std blank MiB 32 false false None) = None /\
   sb_magic (snd (mkfs_main std blank MiB 32 false false None)) = sb_magic blank).
Proof.
  split.
  - assert (E : mkfs_main std img_a MiB 32 true true None
                = (None, snd (mkfs_main std img_a MiB 32 true true None))).
    { rewrite (surjective_pairing (mkfs_main std img_a MiB 32 true true None)) at 1.
      f_equal. }
    split; [vm_compute; reflexivity|].
    destruct (mkfs_failure_keeps_superblock std _ _ _ _ _ _ _ _ E
                ltac:(discriminate)) as (_ & _ & Hz).
    destruct Hz as [Hm Hf].
    + reflexivity.
    + vm_compute. discriminate.
    + split; [exact Hm|]. apply Hf. vm_compute. discriminate.
  - assert (E : mkfs_main std blank MiB 32 false false None
                = (None, snd (mkfs_main std blank MiB 32 false false None))).
    { rewrite (surjective_pairing (mkfs_main std blank MiB 32 false false None)) at 1.
      f_equal. }
    split; [vm_compute; reflexivity|].
    destruct (mkfs_failure_keeps_superblock std _ _ _ _ _ _ _ _ E
                ltac:(discriminate)) as (_ & Hn & _).
    exact (proj1 (Hn eq_refl)).
Defined.

(** C8 as stated fails: formatting an image that already holds a file system
    can fail (here the clock fails, after both bitmaps were rewritten) and
    the image still carries the magic, so mount accepts it. *)
Lemma mkfs_failure_magic_remains :
  fst (mkfs std img_a MiB 32 None) = false /\
  vsfs_is_present std (snd (mkfs std img_a MiB 32 None)) = true /\
  fs_ctx_init std (snd (mkfs std img_a MiB 32 None)) MiB = true.
Proof. vm_compute. repeat split. Qed.

(** ** C9: getattr *)

Section Attributes.

Variable P : params.



End Attributes.



(** ** C10: writes past the end of the file *)

Section Write_guard.

Variable P : params.

(** C10.  For an existing file, a write whose offset is strictly greater
    than the current size returns -EFBIG and leaves the image as it was,
    whatever the free counters and bitmaps say. *)
Theorem write_past_eof_is_efbig m path buf size offset now_t now ino :
  path_lookup P m path = Found ino ->
  i_size m (fs_itable P ino) < offset < 2 ^ 63 ->
  vsfs_write P m path buf size offset now_t now = Some (- EFBIG, m).
Proof.
  intros Hl Ho. unfold vsfs_write. rewrite Hl. simpl.
  pose proof (load_u64_range m (fs_itable P ino + I_SIZE)) as Hs.
  fold (i_size m (fs_itable P ino)) in Hs.
  rewrite u64_small by lia.
  destruct (Z.ltb_spec (i_size m (fs_itable P ino)) offset); [reflexivity|lia].
Qed.

End Write_guard.

Lemma write_past_eof_is_efbig_witness :
  path_lookup std img_a path_a = Found 1 /\
  i_size img_a (fs_itable std 1) < 5 < 2 ^ 63 /\
  vsfs_write std img_a path_a (bytes_of [120]) 1 5 t0 t0
  = Some (- EFBIG, img_a).
Proof.
  assert (Hl : path_lookup std img_a path_a = Found 1) by (vm_compute; reflexivity).
  assert (Hs : i_size img_a (fs_itable std 1) < 5 < 2 ^ 63)
    by (vm_compute; split; reflexivity).
  split; [exact Hl|]. split; [exact Hs|].
  exact (write_past_eof_is_efbig std img_a path_a (bytes_of [120]) 1 5 t0 t0 1 Hl Hs).
Defined.


(** * Part IV: further properties of the code *)

(** ** util.h *)

Lemma u64_land_ones z : u64 z = Z.land z (Z.ones 64).
Proof. unfold u64. now rewrite Z.land_ones by lia. Qed.

Lemma pow2_range64 k : 0 <= k < 64 -> 0 < 2 ^ k < 2 ^ 64.
Proof.
  intros H. split; [apply Z.pow_pos_nonneg; lia|].
  apply Z.pow_lt_mono_r; lia.
Qed.

Lemma land_pow2_pred k : 0 <= k -> Z.land (2 ^ k) (2 ^ k - 1) = 0.
Proof.
  intros H. replace (2 ^ k - 1) with (Z.ones k) by (rewrite Z.ones_equiv; lia).
  rewrite Z.land_ones by lia. apply Z.mod_same. 
  pose proof (Z.pow_pos_nonneg 2 k). lia.
Qed.

Lemma land_pred_zero x : 0 < x -> Z.land x (x - 1) = 0 -> x = 2 ^ Z.log2 x.
Proof.
  intros Hx H. pose proof (Z.log2_spec x Hx) as [Hlo Hhi].
  pose proof (Z.log2_nonneg x) as Hk.
  destruct (Z.eq_dec x (2 ^ Z.log2 x)) as [E|E]; [exact E|exfalso].
  assert (Hl : Z.log2 (x - 1) = Z.log2 x).
  { apply Z.log2_unique; [exact Hk|]. lia. }
  assert (Hb : Z.testbit (Z.land x (x - 1)) (Z.log2 x) = true).
  { rewrite Z.land_spec. rewrite Z.bit_log2 by exact Hx.
    rewrite <- Hl. rewrite Z.bit_log2; [reflexivity|].
    pose proof (Z.pow_pos_nonneg 2 (Z.log2 x)). lia. }
  rewrite H in Hb. rewrite Z.bits_0 in Hb. discriminate.
Qed.

Lemma is_powerof2_pow2 k : 0 <= k < 64 -> is_powerof2 (2 ^ k) = true.
Proof.
  intros H. pose proof (pow2_range64 k H). unfold is_powerof2.
  rewrite (u64_small (2 ^ k)) by lia. rewrite u64_small by lia.
  rewrite land_pow2_pred by lia. reflexivity.
Qed.

Lemma land_neg_pow2 y k :
  0 <= y < 2 ^ 64 -> 0 <= k < 64 ->
  Z.land y (u64 (u64 (Z.lnot (u64 (2 ^ k))) + 1)) = 2 ^ k * (y / 2 ^ k).
Proof.
  intros Hy Hk. pose proof (pow2_range64 k Hk) as Hp.
  rewrite (u64_small (2 ^ k)) by lia.
  assert (E : u64 (u64 (Z.lnot (2 ^ k)) + 1) = u64 (Z.lnot (Z.ones k))).
  { unfold u64. rewrite Zplus_mod_idemp_l. f_equal.
    rewrite Z.ones_equiv. unfold Z.lnot. lia. }
  rewrite E, u64_land_ones.
  rewrite (Z.land_comm (Z.lnot (Z.ones k))), Z.land_assoc.
  rewrite <- u64_land_ones, (u64_small y) by exact Hy.
  rewrite <- Z.ldiff_land, Z.ldiff_ones_r by lia.
  rewrite Z.shiftr_div_pow2, Z.shiftl_mul_pow2 by lia. lia.
Qed.

Lemma align_up_pow2 x k :
  0 <= x -> 0 <= k < 64 -> x + 2 ^ k - 1 < 2 ^ 64 ->
  align_up x (2 ^ k) = Some (2 ^ k * ((x + 2 ^ k - 1) / 2 ^ k)).
Proof.
  intros Hx Hk Hb. pose proof (pow2_range64 k Hk) as Hp.
  unfold align_up. rewrite is_powerof2_pow2 by exact Hk. cbn [negb].
  rewrite <- (land_neg_pow2 (x + 2 ^ k - 1) k) by lia.
  rewrite (u64_small x) by lia.
  rewrite (u64_small (2 ^ k)) by lia.
  rewrite (u64_small (x + 2 ^ k - 1)) by lia.
  reflexivity.
Qed.

(** X1.  For a positive y, when [x + y - 1] fits 32 bits, [div_round_up x y]
    is the integer ceiling of x / y: the least r with x <= y * r. *)
Theorem div_round_up_ceiling x y :
  0 <= x -> 0 < y < 2 ^ 32 -> x + y - 1 < 2 ^ 32 ->
  y * (div_round_up x y - 1) < x <= y * div_round_up x y.
Proof.
  intros Hx Hy Hb. rewrite div_round_up_small by lia.
  pose proof (Z.div_mod (x + y - 1) y ltac:(lia)) as Hq.
  pose proof (Z.mod_pos_bound (x + y - 1) y ltac:(lia)) as Hr.
  set (q := (x + y - 1) / y) in *. set (r := (x + y - 1) mod y) in *.
  clearbody q r. nia.
Qed.

Lemma div_round_up_ceiling_witness :
  4096 * (div_round_up 4097 4096 - 1) < 4097 <= 4096 * div_round_up 4097 4096.
Proof. apply (div_round_up_ceiling 4097 4096); lia. Defined.

(** X2.  [is_powerof2] answers true for 0 and for the powers of two below
    2^64, and for no other value of a [size_t]. *)
Theorem is_powerof2_spec x :
  0 <= x < 2 ^ 64 ->
  (is_powerof2 x = true <-> x = 0 \/ exists k, 0 <= k < 64 /\ x = 2 ^ k).
Proof.
  intros Hx. split.
  - intros H. destruct (Z.eq_dec x 0) as [E|E]; [left; exact E|right].
    unfold is_powerof2 in H. rewrite (u64_small x) in H by exact Hx.
    rewrite u64_small in H by lia. apply Z.eqb_eq in H.
    apply land_pred_zero in H; [|lia].
    exists (Z.log2 x). split; [|exact H].
    split; [apply Z.log2_nonneg|]. apply Z.log2_lt_pow2; lia.
  - intros [->|(k & Hk & ->)]; [reflexivity|]. now apply is_powerof2_pow2.
Qed.

Lemma is_powerof2_spec_witness :
  0 <= 4096 < 2 ^ 64 /\
  (is_powerof2 4096 = true <-> 4096 = 0 \/ exists k, 0 <= k < 64 /\ 4096 = 2 ^ k).
Proof.
  assert (H : 0 <= 4096 < 2 ^ 64) by (split; [discriminate|reflexivity]).
  split; [exact H|]. exact (is_powerof2_spec 4096 H).
Defined.

(** X3.  For an alignment that is a power of two, [is_aligned] passes its
    assertion and tells whether x is a multiple of the alignment. *)
Theorem is_aligned_spec x k :
  0 <= x < 2 ^ 64 -> 0 <= k < 64 ->
  is_aligned x (2 ^ k) = Some (x mod 2 ^ k =? 0).
Proof.
  intros Hx Hk. pose proof (pow2_range64 k Hk) as Hp. unfold is_aligned.
  rewrite is_powerof2_pow2 by exact Hk. cbn [negb].
  rewrite (u64_small x), (u64_small (2 ^ k)) by lia.
  rewrite u64_small by lia.
  replace (2 ^ k - 1) with (Z.ones k) by (rewrite Z.ones_equiv; lia).
  rewrite Z.land_ones by lia. reflexivity.
Qed.

Lemma is_aligned_spec_witness :
  is_aligned 8192 (2 ^ 12) = Some (8192 mod 2 ^ 12 =? 0).
Proof. apply (is_aligned_spec 8192 12); lia. Defined.

(** X4.  For an alignment 2^k and an x with x + 2^k - 1 < 2^64, [align_up]
    passes its assertion and returns the least multiple of the alignment
    that is not below x. *)
Theorem align_up_spec x k :
  0 <= x -> 0 <= k < 64 -> x + 2 ^ k - 1 < 2 ^ 64 ->
  exists r, align_up x (2 ^ k) = Some r /\
            r mod 2 ^ k = 0 /\ x <= r < x + 2 ^ k.
Proof.
  intros Hx Hk Hb. pose proof (pow2_range64 k Hk) as Hp.
  exists (2 ^ k * ((x + 2 ^ k - 1) / 2 ^ k)).
  split; [now apply align_up_pow2|]. split.
  - rewrite Z.mul_comm. apply Z.mod_mul. lia.
  - pose proof (Z.div_mod (x + 2 ^ k - 1) (2 ^ k) ltac:(lia)) as Hq.
    pose proof (Z.mod_pos_bound (x + 2 ^ k - 1) (2 ^ k) ltac:(lia)) as Hr.
    set (q := (x + 2 ^ k - 1) / 2 ^ k) in *.
    set (r := (x + 2 ^ k - 1) mod 2 ^ k) in *.
    clearbody q r. lia.
Qed.

Lemma align_up_spec_witness :
  exists r, align_up 5000 (2 ^ 12) = Some r /\
            r mod 2 ^ 12 = 0 /\ 5000 <= r < 5000 + 2 ^ 12.
Proof. apply (align_up_spec 5000 12); lia. Defined.

(** X5.  An alignment of 0 passes the assertion of both functions, because
    [is_powerof2 0] holds: [is_aligned x 0] tells whether x is 0, and
    [align_up x 0] is 0 whatever x is. *)
Theorem zero_alignment_accepted x :
  0 <= x < 2 ^ 64 ->
  is_aligned x 0 = Some (x =? 0) /\ align_up x 0 = Some 0.
Proof.
  intros Hx. unfold is_aligned, align_up.
  change (is_powerof2 0) with true. cbn [negb].
  rewrite (u64_small x) by exact Hx.
  change (u64 (u64 0 - 1)) with (Z.ones 64).
  rewrite <- u64_land_ones, (u64_small x) by exact Hx.
  change (u64 (u64 (Z.lnot (u64 0)) + 1)) with 0.
  now rewrite Z.land_0_r.
Qed.

Lemma zero_alignment_accepted_witness :
  is_aligned 7 0 = Some (7 =? 0) /\ align_up 7 0 = Some 0.
Proof. apply (zero_alignment_accepted 7); lia. Defined.


(** ** Strings, lists and conversions *)

Lemma s64_u64 z : - 2 ^ 63 <= z < 2 ^ 63 -> s64 (u64 z) = z.
Proof.
  intros H. unfold s64, u64. rewrite Z.mod_mod by lia.
  destruct (Z.ltb_spec (z mod 2 ^ 64) (2 ^ 63)); zlia.
Qed.

Lemma s32_small z : 0 <= z < 2 ^ 31 -> s32 z = z.
Proof.
  intros H. unfold s32. rewrite Z.mod_small by lia.
  destruct (Z.ltb_spec z (2 ^ 31)); lia.
Qed.

Lemma strcmp_mem_true s a (m : image) :
  strcmp_mem m a s = true ->
  forall k, 0 <= k <= strlen s -> m (a + k) = nth (Z.to_nat k) (cstr s) x00.
Proof.
  revert a. induction s as [|c s IH]; intros a H k Hk.
  - cbn [strcmp_mem strlen cstr] in *. assert (k = 0) by lia. subst k.
    rewrite Z.add_0_r. now apply byte_eqb_eq in H.
  - cbn [strcmp_mem strlen cstr] in *. destruct (byte_eqb c x00) eqn:Ec.
    + assert (k = 0) by lia. subst k. rewrite Z.add_0_r.
      now apply byte_eqb_eq in H.
    + apply andb_true_iff in H. destruct H as [H1 H2].
      apply byte_eqb_eq in H1.
      destruct (Z.eq_dec k 0) as [->|Hne].
      * rewrite Z.add_0_r. exact H1.
      * replace (a + k) with (a + 1 + (k - 1)) by lia.
        rewrite (IH (a + 1) H2 (k - 1)) by lia.
        replace (Z.to_nat k) with (S (Z.to_nat (k - 1))) by lia. reflexivity.
Qed.

Lemma strcmp_mem_ext (m m' : image) a s :
  (forall k, 0 <= k <= strlen s -> m' (a + k) = m (a + k)) ->
  strcmp_mem m' a s = strcmp_mem m a s.
Proof.
  revert a. induction s as [|c s IH]; intros a H; cbn [strcmp_mem strlen] in *.
  - specialize (H 0 ltac:(lia)). rewrite Z.add_0_r in H. now rewrite H.
  - pose proof (strlen_nonneg s) as Hs.
    destruct (byte_eqb c x00).
    + specialize (H 0 ltac:(lia)). rewrite Z.add_0_r in H. now rewrite H.
    + pose proof (H 0 ltac:(lia)) as H0. rewrite Z.add_0_r in H0. rewrite H0.
      rewrite (IH (a + 1)); [reflexivity|].
      intros k Hk. replace (a + 1 + k) with (a + (k + 1)) by lia.
      apply H. lia.
Qed.

Lemma strlen_cstr s : strlen (cstr s) = strlen s.
Proof.
  induction s as [|c s IH]; cbn [cstr strlen]; [reflexivity|].
  destruct (byte_eqb c x00) eqn:E; [reflexivity|].
  cbn [strlen]. rewrite E. now rewrite IH.
Qed.

Lemma strcmp_mem_cstr (m : image) a s :
  strcmp_mem m a (cstr s) = strcmp_mem m a s.
Proof.
  revert a. induction s as [|c s IH]; intros a; cbn [cstr strcmp_mem];
    [reflexivity|].
  destruct (byte_eqb c x00) eqn:E; [reflexivity|].
  cbn [strcmp_mem]. rewrite E. now rewrite IH.
Qed.

Lemma nth_app_nul (l : list byte) k : nth k (l ++ [x00]) x00 = nth k l x00.
Proof.
  destruct (Nat.lt_ge_cases k (length l)) as [H|H].
  - now apply app_nth1.
  - rewrite app_nth2 by exact H. rewrite (nth_overflow l) by exact H.
    destruct (k - length l)%nat as [|[|j]]; reflexivity.
Qed.

(** The bytes written by [strcpy] compare equal to the string copied. *)
Lemma strcmp_mem_strcpy m dst s :
  strcmp_mem (strcpy m dst s) dst s = true.
Proof.
  apply strcmp_mem_eq. intros k Hk. unfold strcpy.
  rewrite memcpy_in_in by lia. replace (dst + k - dst) with k by lia.
  apply nth_app_nul.
Qed.

Lemma load_le_zero n (m : image) a :
  (forall x, a <= x < a + Z.of_nat n -> m x = x00) -> load_le n m a = 0.
Proof.
  revert a. induction n as [|n IH]; intros a H; cbn [load_le]; [reflexivity|].
  rewrite (H a) by lia. rewrite (IH (a + 1)); [reflexivity|].
  intros x Hx. apply H. lia.
Qed.

Lemma strlen_tl path :
  hd x00 path = slash -> strlen (tl path) = strlen path - 1.
Proof.
  destruct path as [|c s]; cbn [hd tl strlen]; [discriminate|].
  intros ->. change (byte_eqb slash x00) with false. cbv iota. lia.
Qed.

Lemma slots_apart d i j : 0 <= d -> j + 1 <= i -> j * d + d <= i * d.
Proof. intros. nia. Qed.

Lemma map_nth_seq (l : list byte) :
  map (fun i => nth i l x00) (seq 0 (length l)) = l.
Proof.
  induction l as [|c l IH]; [reflexivity|].
  cbn [length seq map nth]. f_equal.
  rewrite <- seq_shift, map_map. exact IH.
Qed.

Lemma filter_nothing {A : Type} (p : A -> bool) l :
  (forall x, In x l -> p x = false) -> filter p l = [].
Proof.
  induction l as [|a l IH]; intros H; [reflexivity|].
  cbn [filter]. rewrite (H a) by (left; reflexivity).
  apply IH. intros x Hx. apply H. now right.
Qed.

Lemma filter_indices_two (p : Z -> bool) n :
  (2 <= n)%nat -> p 0 = true -> p 1 = true ->
  (forall i, 2 <= i < Z.of_nat n -> p i = false) ->
  filter p (indices n) = [0; 1].
Proof.
  intros Hn H0 H1 Hrest. destruct n as [|[|k]]; try lia.
  unfold indices. cbn [seq map filter]. change (Z.of_nat 0) with 0.
  change (Z.of_nat 1) with 1. rewrite H0, H1. f_equal. f_equal.
  apply filter_nothing. intros x Hx. apply in_map_iff in Hx.
  destruct Hx as (i & <- & Hi). apply in_seq in Hi. apply Hrest. lia.
Qed.

Lemma root_path_shape path :
  is_root_path path = true -> hd x00 path = slash /\ strlen path = 1.
Proof.
  unfold is_root_path. destruct path as [|c s]; cbn [cstr]; [discriminate|].
  destruct (byte_eqb c x00) eqn:Ec; [discriminate|].
  cbn [strlen hd]. rewrite Ec.
  destruct s as [|d s]; cbn [cstr strlen].
  - intros H. apply byte_eqb_eq in H. split; [exact H|reflexivity].
  - destruct (byte_eqb d x00); [|discriminate].
    intros H. apply byte_eqb_eq in H. split; [exact H|reflexivity].
Qed.

Lemma path_lookup_root P m path :
  is_root_path path = true -> path_lookup P m path = Found VSFS_ROOT_INO.
Proof.
  intros H. destruct (root_path_shape path H) as [Hh _].
  unfold path_lookup. now rewrite Hh, byte_eqb_refl, H.
Qed.


(** ** Addressing, lookup, reading and times *)


Section Lookup_read_times.

Variable P : params.
Hypothesis OK : params_ok P.


(** X6.  Within one block of a file [get_address] is contiguous: when k more
    bytes stay in the block of the offset, the address of offset + k is the
    address of the offset plus k. *)
Theorem get_address_within_block m inode off k :
  0 <= off -> 0 <= k -> off mod VSFS_BLOCK_SIZE + k < VSFS_BLOCK_SIZE ->
  off + k < 2 ^ 32 ->
  get_address P m inode (off + k) = get_address P m inode off + k.
Proof.
  intros Ho Hk Hb Hr. unfold get_address.
  rewrite !u32_small by lia.
  replace ((off + k) / VSFS_BLOCK_SIZE) with (off / VSFS_BLOCK_SIZE)
    by (unfold VSFS_BLOCK_SIZE in *; zlia).
  replace ((off + k) mod VSFS_BLOCK_SIZE) with (off mod VSFS_BLOCK_SIZE + k)
    by (unfold VSFS_BLOCK_SIZE in *; zlia).
  lia.
Qed.

(** X7.  For an absolute path other than "/", [path_lookup] succeeds with the
    inode number of the first slot of the root directory that is in use
    (its inode number is not INO_MAX) and whose name is the path without
    its leading slash; it answers NotFound exactly when no slot is such. *)
Theorem path_lookup_spec m path :
  hd x00 path = slash -> is_root_path path = false ->
  let named i :=
    dentry_ino P m i <> VSFS_INO_MAX P /\
    forall k, 0 <= k <= strlen (tl path) ->
      m (dentry_name P m i + k) = nth (Z.to_nat k) (cstr (tl path)) x00 in
  (forall ino,
     path_lookup P m path = Found ino <->
     exists i, 0 <= i < NUM_DENTRIES P /\ named i /\
               (forall j, 0 <= j < i -> ~ named j) /\
               dentry_ino P m i = ino) /\
  (path_lookup P m path = NotFound <->
   forall i, 0 <= i < NUM_DENTRIES P -> ~ named i).
Proof.
  intros Habs Hnr named.
  pose proof (num_dentries_bounds P OK) as [HK1 _].
  assert (Hnm : forall i, name_matches P m path i = true <-> named i).
  { intros i. unfold name_matches, named. rewrite andb_true_iff, negb_true_iff.
    rewrite Z.eqb_neq. split.
    - intros [H1 H2]. split; [exact H1|]. now apply strcmp_mem_true.
    - intros [H1 H2]. split; [exact H1|]. now apply strcmp_mem_eq. }
  assert (Hnf : forall i, name_matches P m path i = false <-> ~ named i).
  { intros i. rewrite <- Hnm. destruct (name_matches P m path i); split;
      try discriminate; try reflexivity; intros H; exfalso; now apply H. }
  unfold path_lookup. rewrite Habs, byte_eqb_refl, Hnr. cbn [negb].
  split.
  - intros ino. split.
    + destruct (first_slot _ _ _) as [i|] eqn:E; [|discriminate].
      intros H. inversion H; subst ino. apply first_slot_some in E.
      destruct E as (Hr & Hp & Hm). rewrite Z2Nat.id in Hr by lia.
      exists i. split; [lia|]. split; [now apply Hnm|]. split; [|reflexivity].
      intros j Hj. apply Hnf. apply Hm. lia.
    + intros (i & Hi & Hn & Hm & <-).
      rewrite (first_slot_found _ _ 0 i); [reflexivity| | |].
      * rewrite Z2Nat.id by lia. lia.
      * now apply Hnm.
      * intros j Hj. apply Hnf. apply Hm. lia.
  - split.
    + destruct (first_slot _ _ _) as [i|] eqn:E; [discriminate|].
      intros _ i Hi. apply Hnf.
      apply (first_slot_none _ _ _ E). rewrite Z2Nat.id by lia. lia.
    + intros H. rewrite first_slot_all_false; [reflexivity|].
      intros j Hj. rewrite Z2Nat.id in Hj by lia. apply Hnf. apply H. lia.
Qed.

(** X8.  In an image mapped with [mapped] bytes, for an existing file whose
    inode record lies inside the mapping and an offset within the direct
    blocks, when the bytes to copy lie inside the mapping: [vsfs_read]
    returns min(size, file size - offset) bytes, and none when the offset is
    at or past the end of the file; the bytes are those of the image from
    the address of the offset on. *)
Theorem read_spec m path size offset ino mapped :
  path_lookup P m path = Found ino ->
  0 <= offset < 2 ^ 63 -> 0 <= size < 2 ^ 31 ->
  let inode := fs_itable P ino in
  let n := Z.max 0 (Z.min size (i_size m inode - offset)) in
  inode + INODE_SIZE P <= mapped ->
  u32 offset / VSFS_BLOCK_SIZE < VSFS_NUM_DIRECT P ->
  get_address P m inode offset + n <= mapped ->
  vsfs_read P m path size offset
  = Some (n, memcpy_out m (get_address P m inode offset) n) /\
  length (memcpy_out m (get_address P m inode offset) n) = Z.to_nat n.
Proof.
  intros Hl Ho Hs inode n _ _ _.
  pose proof (load_u64_range m (inode + I_SIZE)) as Hsz.
  fold (i_size m inode) in Hsz.
  split.
  - unfold vsfs_read. rewrite Hl. cbn [lookup_ino]. fold inode.
    rewrite (u64_small offset) by lia. rewrite (u64_small (offset + size)) by lia.
    destruct (Z.ltb_spec (i_size m inode) offset) as [H1|H1].
    + replace n with 0 by lia. reflexivity.
    + destruct (Z.ltb_spec (i_size m inode) (offset + size)) as [H2|H2].
      * rewrite u64_small by lia. replace n with (i_size m inode - offset) by lia.
        f_equal. f_equal. unfold s32.
        rewrite Z.mod_small by lia.
        destruct (Z.ltb_spec (i_size m inode - offset) (2 ^ 31)); lia.
      * replace n with size by lia. f_equal. f_equal. unfold s32.
        rewrite Z.mod_small by lia.
        destruct (Z.ltb_spec size (2 ^ 31)); lia.
  - unfold memcpy_out. rewrite length_map, length_seq. reflexivity.
Qed.


End Lookup_read_times.


Lemma get_address_within_block_witness :
  get_address std img_a (fs_itable std 1) (4000 + 95)
  = get_address std img_a (fs_itable std 1) 4000 + 95.
Proof.
  apply (get_address_within_block std img_a (fs_itable std 1) 4000 95);
    vm_compute; first [reflexivity | discriminate].
Defined.

Lemma path_lookup_spec_witness :
  exists i, 0 <= i < NUM_DENTRIES std /\ dentry_ino std img_a i = 1.
Proof.
  assert (H1 : hd x00 path_a = slash) by reflexivity.
  assert (H2 : is_root_path path_a = false) by reflexivity.
  assert (Hl : path_lookup std img_a path_a = Found 1)
    by (vm_compute; reflexivity).
  destruct (path_lookup_spec std std_ok img_a path_a H1 H2) as [Hf _].
  destruct (proj1 (Hf 1) Hl) as (i & Hi & _ & _ & Hd).
  exists i. split; assumption.
Defined.

Lemma read_spec_witness :
  path_lookup std img_a24 path_a = Found 1 /\
  i_size img_a24 (fs_itable std 1) = 24 /\
  exists out, vsfs_read std img_a24 path_a 10 20 = Some (4, out) /\
              length out = 4%nat.
Proof.
  assert (Hl : path_lookup std img_a24 path_a = Found 1)
    by (vm_compute; reflexivity).
  assert (Hs : i_size img_a24 (fs_itable std 1) = 24)
    by (vm_compute; reflexivity).
  split; [exact Hl|]. split; [exact Hs|].
  pose proof (read_spec std img_a24 path_a 10 20 1 MiB Hl
                ltac:(lia) ltac:(lia)) as H.
  cbv zeta in H. rewrite Hs in H. change (Z.max 0 (Z.min 10 (24 - 20))) with 4 in H.
  eexists. apply H.
  - vm_compute. discriminate.
  - vm_compute. reflexivity.
  - vm_compute. discriminate.
Defined.



(** ** Frames of the lookup; listing the directory *)


Section Frames_and_listing.

Variable P : params.
Hypothesis OK : params_ok P.


(** The directory scan depends on the first direct pointer of the root inode
    and on the bytes from the start of the block it names. *)
Lemma name_matches_frame (m m' : image) path j :
  0 <= j < NUM_DENTRIES P ->
  (forall x, fs_itable P 0 + I_DIRECT <= x < fs_itable P 0 + I_DIRECT + 4 ->
             m' x = m x) ->
  (forall x, i_direct m (fs_itable P 0) 0 * VSFS_BLOCK_SIZE <= x -> m' x = m x) ->
  name_matches P m' path j = name_matches P m path j.
Proof.
  intros Hj Hroot Hblock.
  pose proof (dentry_size_bounds P OK) as HD.
  destruct (dentry_ino_frame P OK m m' j Hj Hroot
              ltac:(intros x Hx; apply Hblock; lia)) as [He Hi].
  unfold name_matches, dentry_name. rewrite Hi, He. f_equal.
  apply strcmp_mem_frame. intros x Hx. apply Hblock.
  rewrite (get_dir_entry_root P OK) in Hx by exact Hj. unfold D_NAME in Hx. nia.
Qed.

Lemma path_lookup_frame (m m' : image) path :
  (forall x, fs_itable P 0 + I_DIRECT <= x < fs_itable P 0 + I_DIRECT + 4 ->
             m' x = m x) ->
  (forall x, i_direct m (fs_itable P 0) 0 * VSFS_BLOCK_SIZE <= x -> m' x = m x) ->
  path_lookup P m' path = path_lookup P m path.
Proof.
  intros Hroot Hblock. pose proof (num_dentries_bounds P OK) as [HK1 _].
  unfold path_lookup.
  destruct (negb _); [reflexivity|]. destruct (is_root_path path); [reflexivity|].
  rewrite (first_slot_ext (name_matches P m' path) (name_matches P m path)).
  - destruct (first_slot _ _ _) as [i|] eqn:E; [|reflexivity].
    apply first_slot_some in E. destruct E as (Hr & _).
    rewrite Z2Nat.id in Hr by lia. f_equal.
    apply (dentry_ino_frame P OK m m' i ltac:(lia) Hroot).
    intros x Hx. apply Hblock. lia.
  - intros j Hj. rewrite Z2Nat.id in Hj by lia.
    apply name_matches_frame; [lia|exact Hroot|exact Hblock].
Qed.

(** X10.  After [vsfs_utimens] on an existing path whose inode lies below the
    root directory block, [vsfs_getattr] of the same path reports the new
    modification time and the mode, link count, size and block count it
    reported before. *)
Theorem utimens_then_getattr m path mtime now st ino :
  path_lookup P m path = Found ino ->
  strlen path < VSFS_PATH_MAX P -> strlen path < VSFS_NAME_MAX P + 1 ->
  snd mtime <> UTIME_OMIT ->
  let a := fs_itable P ino in
  let t := if snd mtime =? UTIME_NOW then now else mtime in
  - 2 ^ 63 <= fst t < 2 ^ 63 -> - 2 ^ 63 <= snd t < 2 ^ 63 ->
  a + I_MTIME + 16 <= i_direct m (fs_itable P 0) 0 * VSFS_BLOCK_SIZE ->
  exists m',
    vsfs_utimens P m path mtime now = Some (0, m') /\
    vsfs_getattr P m' path st
    = (0, {| st_mode := i_mode m a; st_nlink := i_nlink m a;
             st_size := s64 (i_size m a);
             st_blocks := div_round_up (i_size m a) 512;
             st_mtim := t |}).
Proof.
  intros Hl Hp1 Hp2 Homit a t Ht1 Ht2 Hdir.
  pose proof (path_lookup_found_range P m path ino Hl) as Hino.
  pose proof (inode_size_bounds P OK) as HS.
  assert (Ha : fs_itable P 0 <= a) by (unfold a, fs_itable; nia).
  assert (Ha' : ino = 0 \/ fs_itable P 0 + INODE_SIZE P <= a)
    by (unfold a, fs_itable; nia).
  pose proof (inode_holds_fields P OK) as Hf. unfold I_INDIRECT in Hf.
  pose proof (num_direct_min P OK) as Hnd.
  unfold vsfs_utimens.
  destruct (Z.eqb_spec (snd mtime) UTIME_OMIT); [contradiction|].
  rewrite Hl. cbn [lookup_ino]. fold a.
  exists (set_mtime m a t). split.
  { unfold t. destruct (snd mtime =? UTIME_NOW); reflexivity. }
  assert (F : forall x, x < a + I_MTIME \/ a + I_MTIME + 16 <= x ->
                        set_mtime m a t x = m x)
    by (intros x Hx; now apply set_mtime_other).
  assert (Hl' : path_lookup P (set_mtime m a t) path = Found ino).
  { rewrite <- Hl. apply path_lookup_frame.
    - intros x Hx. apply F. destruct Ha' as [->|Ha']; [fold a|]; layout; lia.
    - intros x Hx. apply F. lia. }
  unfold vsfs_getattr.
  destruct (Z.leb_spec (VSFS_PATH_MAX P) (strlen path)); [lia|].
  destruct (Z.leb_spec (VSFS_NAME_MAX P + 1) (strlen path)); [lia|].
  cbn [orb]. rewrite Hl'. fold a.
  assert (E4 : forall o, o + 4 <= I_MTIME ->
             load_u32 (set_mtime m a t) (a + o) = load_u32 m (a + o)).
  { intros o Ho. apply load_u32_frame. intros x Hx. apply F. lia. }
  assert (E8 : i_size (set_mtime m a t) a = i_size m a).
  { unfold i_size. apply load_u64_frame. intros x Hx. apply F. layout. lia. }
  f_equal. unfold i_mode, i_nlink. rewrite !E4 by (layout; lia). rewrite E8.
  f_equal.
  unfold i_mtime, set_mtime. to_le.
  rewrite load8_store8.
  rewrite load_le_store_le_other by (simpl Z.of_nat; lia).
  rewrite load8_store8. rewrite !s64_u64 by lia.
  destruct t; reflexivity.
Qed.


Lemma readdir_loop_never_full {B : Type} (filler : B -> image -> Z -> bool * B)
    m n :
  (forall b a, fst (filler b m a) = false) ->
  forall i buf,
    readdir_loop P filler m n i buf
    = (0, fold_left (fun b j => snd (filler b m (dentry_name P m j)))
            (filter (fun j => negb (dentry_ino P m j =? VSFS_INO_MAX P))
               (map (fun k => i + Z.of_nat k) (seq 0 n)))
            buf).
Proof.
  intros Hf. induction n as [|n IH]; intros i buf; [reflexivity|].
  cbn [readdir_loop seq map filter]. rewrite Z.add_0_r.
  rewrite <- seq_shift, map_map.
  rewrite (map_ext (fun k => i + Z.of_nat (S k)) (fun k => i + 1 + Z.of_nat k))
    by (intros k; lia).
  destruct (negb (dentry_ino P m i =? VSFS_INO_MAX P)).
  - cbn [fold_left]. pose proof (Hf buf (dentry_name P m i)) as H.
    destruct (filler buf m (dentry_name P m i)) as [full buf'].
    cbn [fst snd] in *. subst full. apply IH.
  - apply IH.
Qed.


End Frames_and_listing.


Lemma utimens_then_getattr_witness :
  path_lookup std img_a path_a = Found 1 /\
  exists m',
    vsfs_utimens std img_a path_a (5, 7) t0 = Some (0, m') /\
    st_mtim (snd (vsfs_getattr std m' path_a stat_zero)) = (5, 7).
Proof.
  assert (Hl : path_lookup std img_a path_a = Found 1)
    by (vm_compute; reflexivity).
  split; [exact Hl|].
  destruct (utimens_then_getattr std std_ok img_a path_a (5, 7) t0 stat_zero 1 Hl
              ltac:(vm_compute; reflexivity)
              ltac:(vm_compute; reflexivity)
              ltac:(vm_compute; discriminate)
              ltac:(vm_compute; split; [discriminate|reflexivity])
              ltac:(vm_compute; split; [discriminate|reflexivity])
              ltac:(vm_compute; discriminate))
    as (m' & Hr & Hg).
  exists m'. split; [exact Hr|]. rewrite Hg. reflexivity.
Defined.



(** ** Creating a file *)


Section Create_effect.

Variable P : params.
Hypothesis OK : params_ok P.


(** A successful [vsfs_create]: what it writes, and what it leaves alone. *)
Lemma create_effect m path mode now_i now_p ino m1 i leaf :
  S_ISREG mode = true ->
  sb_free_inodes m <> 0 ->
  sb_num_inodes m <= 8 * VSFS_BLOCK_SIZE ->
  bitmap_isset m fs_ibmap (sb_num_inodes m) 0 = true ->
  VSFS_ITBL_BLKNUM * VSFS_BLOCK_SIZE + sb_num_inodes m * INODE_SIZE P
    <= i_direct m (fs_itable P 0) 0 * VSFS_BLOCK_SIZE ->
  bitmap_alloc m fs_ibmap (sb_num_inodes m) = Some (ino, m1) ->
  first_slot (fun j => dentry_ino P m j =? VSFS_INO_MAX P)
    (Z.to_nat (NUM_DENTRIES P)) 0 = Some i ->
  leaf_name path = Some leaf ->
  let a := fs_itable P ino in
  let e := i_direct m (fs_itable P 0) 0 * VSFS_BLOCK_SIZE + i * DENTRY_SIZE P in
  exists m',
    vsfs_create P m path mode now_i now_p = Some (0, m') /\
    0 < ino < sb_num_inodes m /\ 0 <= i < NUM_DENTRIES P /\
    (* the bytes written *)
    load_u32 m' (a + I_MODE) = u32 mode /\
    load_u32 m' (a + I_NLINK) = 1 /\
    load_u64 m' (a + I_SIZE) = 0 /\
    load_u32 m' (a + I_BLOCKS) = 0 /\
    load_u64 m' (a + I_MTIME) = u64 (fst now_i) /\
    load_u64 m' (a + I_MTIME + 8) = u64 (snd now_i) /\
    (forall x, a + I_DIRECT <= x < a + INODE_SIZE P -> m' x = x00) /\
    load_u32 m' (fs_sb + SB_FREE_INODES) = sb_free_inodes m - 1 /\
    bitmap_isset m fs_ibmap 0 ino = false /\
    bitmap_isset m' fs_ibmap 0 ino = true /\
    (forall j, j <> ino -> 0 <= j < 8 * VSFS_BLOCK_SIZE ->
       bitmap_isset m' fs_ibmap 0 j = bitmap_isset m fs_ibmap 0 j) /\
    load_u32 m' (e + D_INO) = ino /\
    strcmp_mem m' (e + D_NAME) leaf = true /\
    load_u64 m' (fs_itable P 0 + I_MTIME) = u64 (fst now_p) /\
    load_u64 m' (fs_itable P 0 + I_MTIME + 8) = u64 (snd now_p) /\
    (* the bytes left alone *)
    (forall x,
       x <> fs_ibmap + ino / 8 ->
       x < fs_sb + SB_FREE_INODES \/ fs_sb + SB_FREE_INODES + 4 <= x ->
       x < a \/ a + INODE_SIZE P <= x ->
       x < fs_itable P 0 + I_MTIME \/ fs_itable P 0 + I_MTIME + 16 <= x ->
       x < e \/ e + D_NAME + strlen leaf + 1 <= x ->
       m' x = m x).
Proof.
  intros Hreg Hfree Hnum Hroot Hdir Halloc Hslot Hleaf a e.
  pose proof (inode_size_bounds P OK) as HS.
  pose proof (dentry_size_bounds P OK) as HD.
  pose proof (num_dentries_bounds P OK) as [HK1 HK2].
  pose proof (bitmap_alloc_some _ _ _ _ _ Halloc) as (Hino & Hclear & _ & Hm1).
  assert (Hino0 : ino <> 0) by (intros ->; rewrite Hroot in Hclear; discriminate).
  assert (Hmul1 : INODE_SIZE P <= ino * INODE_SIZE P) by nia.
  assert (Hmul2 : ino * INODE_SIZE P + INODE_SIZE P
                  <= sb_num_inodes m * INODE_SIZE P) by nia.
  pose proof (inode_holds_fields P OK) as Hfields. unfold I_INDIRECT in Hfields.
  pose proof (num_direct_min P OK) as Hnd.
  pose proof (load_u32_range m (fs_sb + SB_FREE_INODES)) as Hfr.
  fold (sb_free_inodes m) in Hfr.
  pose proof (strlen_nonneg leaf) as Hlf.
  pose proof (first_slot_some _ _ _ _ Hslot) as (Hi & Hfree_i & Hused).
  rewrite Z2Nat.id in Hi by lia.
  set (D := i_direct m (fs_itable P 0) 0) in *.
  assert (He : D * VSFS_BLOCK_SIZE <= e) by (unfold e; nia).
  unfold vsfs_create. rewrite Hreg. cbn [negb].
  destruct (Z.eqb_spec (sb_free_inodes m) 0) as [E0|_]; [contradiction|].
  rewrite Halloc. fold a.
  match goal with
  | |- context [first_slot _ _ _] =>
      match goal with
      | |- context [set_mtime ?mm a now_i] =>
          set (mx := set_mtime mm a now_i)
      end
  end.
  assert (Hframe : forall x,
            x <> fs_ibmap + ino / 8 ->
            x < a \/ a + INODE_SIZE P <= x ->
            x < fs_sb + SB_FREE_INODES \/ fs_sb + SB_FREE_INODES + 4 <= x ->
            mx x = m x).
  { intros x Hx1 Hx2 Hx3. unfold mx, a in *. subst m1. to_le.
    peel_with ltac:(layout; zlia). reflexivity. }
  assert (Hdf : forall j, 0 <= j < NUM_DENTRIES P ->
            get_dir_entry P mx (fs_itable P 0) j
            = get_dir_entry P m (fs_itable P 0) j /\
            dentry_ino P mx j = dentry_ino P m j).
  { intros j Hj. apply (dentry_ino_frame P OK m mx j Hj).
    - intros x Hx. apply Hframe; unfold a; layout; zlia.
    - intros x Hx. fold D in Hx. apply Hframe; unfold a; layout; zlia. }
  assert (Hscan : first_slot (fun j => dentry_ino P mx j =? VSFS_INO_MAX P)
                    (Z.to_nat (NUM_DENTRIES P)) 0 = Some i).
  { rewrite <- Hslot. apply first_slot_ext. intros j Hj.
    rewrite Z2Nat.id in Hj by lia. now rewrite (proj2 (Hdf j ltac:(lia))). }
  rewrite Hscan, Hleaf.
  rewrite (proj1 (Hdf i ltac:(lia))), (get_dir_entry_root P OK) by lia.
  fold D. fold e.
  eexists. split; [reflexivity|].
  split; [lia|]. split; [lia|].
  assert (Hsbm1 : sb_free_inodes
                    (memset (bitmap_set m1 fs_ibmap (sb_num_inodes m1) ino true)
                       a x00 (INODE_SIZE P)) = sb_free_inodes m).
  { unfold sb_free_inodes, a. subst m1. to_le.
    peel_with ltac:(layout; zlia). reflexivity. }
  split.
  { unfold mx, a. to_le. peel_with ltac:(unfold e, a in *; layout; zlia).
    apply load4_store4. }
  split.
  { unfold mx, a. to_le. peel_with ltac:(unfold e, a in *; layout; zlia).
    rewrite load4_store4. reflexivity. }
  split.
  { unfold mx, a. to_le. peel_with ltac:(unfold e, a in *; layout; zlia).
    rewrite load8_store8. reflexivity. }
  split.
  { unfold mx, a. to_le. peel_with ltac:(unfold e, a in *; layout; zlia).
    rewrite load4_store4. reflexivity. }
  split.
  { unfold mx, a, set_mtime. to_le. peel_with ltac:(unfold e, a in *; layout; zlia).
    apply load8_store8. }
  split.
  { unfold mx, a, set_mtime. to_le. peel_with ltac:(unfold e, a in *; layout; zlia).
    apply load8_store8. }
  split.
  { intros x Hx. unfold mx, a in *. to_le.
    peel_with ltac:(unfold e, a in *; layout; zlia).
    apply memset_in. layout. lia. }
  split.
  { unfold mx. to_le. peel_with ltac:(unfold e, a in *; layout; zlia).
    rewrite load4_store4. fold a. rewrite Hsbm1. apply u32_small. lia. }
  split; [exact Hclear|].
  assert (Hib : forall x, fs_ibmap <= x < fs_ibmap + VSFS_BLOCK_SIZE ->
            set_mtime (strcpy (store_u32 mx (e + D_INO) ino) (e + D_NAME) leaf)
              (fs_itable P 0) now_p x
            = bitmap_set m1 fs_ibmap (sb_num_inodes m1) ino true x).
  { intros x Hx. unfold mx. to_le.
    peel_with ltac:(unfold e, a in *; layout; zlia). reflexivity. }
  split.
  { rewrite (bitmap_isset_frame
               (bitmap_set m1 fs_ibmap (sb_num_inodes m1) ino true) _
               fs_ibmap 0 0 ino).
    - apply bitmap_isset_set_same.
    - apply Hib. layout. zlia. }
  split.
  { intros j Hj Hj0.
    rewrite (bitmap_isset_frame
               (bitmap_set m1 fs_ibmap (sb_num_inodes m1) ino true) _
               fs_ibmap 0 0 j) by (apply Hib; layout; zlia).
    rewrite bitmap_isset_set_other by congruence. subst m1.
    apply bitmap_isset_set_other. congruence. }
  assert (Hde : forall x, D * VSFS_BLOCK_SIZE <= x ->
            set_mtime (strcpy (store_u32 mx (e + D_INO) ino) (e + D_NAME) leaf)
              (fs_itable P 0) now_p x
            = strcpy (store_u32 mx (e + D_INO) ino) (e + D_NAME) leaf x).
  { intros x Hx. apply set_mtime_other. layout. zlia. }
  split.
  { rewrite (load_u32_frame
               (strcpy (store_u32 mx (e + D_INO) ino) (e + D_NAME) leaf))
      by (intros x Hx; apply Hde; layout; lia).
    to_le. peel_with ltac:(layout; zlia).
    rewrite load4_store4. apply u32_small. layout. lia. }
  split.
  { rewrite (strcmp_mem_frame
               (strcpy (store_u32 mx (e + D_INO) ino) (e + D_NAME) leaf))
      by (intros x Hx; apply Hde; layout; lia).
    apply strcmp_mem_strcpy. }
  split.
  { unfold set_mtime. to_le. peel_with ltac:(layout; zlia). apply load8_store8. }
  split.
  { unfold set_mtime. to_le. peel_with ltac:(layout; zlia). apply load8_store8. }
  intros x Hx1 Hx2 Hx3 Hx4 Hx5.
  rewrite set_mtime_other by exact Hx4. unfold strcpy, store_u32.
  rewrite memcpy_in_other by (layout; lia).
  rewrite store_le_other by (layout; lia).
  apply Hframe; assumption.
Qed.

End Create_effect.


Section Create.

Variable P : params.
Hypothesis OK : params_ok P.


(** X12.  In an image whose inode table lies below the root directory block
    and whose root inode is allocated, [vsfs_create] with a free inode and
    a free directory slot returns 0; the inode that [bitmap_alloc] gives,
    whose bit was clear and is now set, holds the mode given, link count
    1, size 0, block count 0, the clock reading and no block pointer;
    free_inodes is one lower; no other bit of the inode bitmap, neither
    num_inodes, num_blocks nor free_blocks, and no byte of the data bitmap
    changes. *)
Theorem create_success m path mode now_i now_p ino m1 i leaf :
  S_ISREG mode = true -> 0 <= mode < 2 ^ 32 ->
  - 2 ^ 63 <= fst now_i < 2 ^ 63 -> - 2 ^ 63 <= snd now_i < 2 ^ 63 ->
  sb_free_inodes m <> 0 ->
  sb_num_inodes m <= 8 * VSFS_BLOCK_SIZE ->
  bitmap_isset m fs_ibmap (sb_num_inodes m) 0 = true ->
  VSFS_ITBL_BLKNUM * VSFS_BLOCK_SIZE + sb_num_inodes m * INODE_SIZE P
    <= i_direct m (fs_itable P 0) 0 * VSFS_BLOCK_SIZE ->
  bitmap_alloc m fs_ibmap (sb_num_inodes m) = Some (ino, m1) ->
  first_slot (fun j => dentry_ino P m j =? VSFS_INO_MAX P)
    (Z.to_nat (NUM_DENTRIES P)) 0 = Some i ->
  leaf_name path = Some leaf ->
  let a := fs_itable P ino in
  exists m',
    vsfs_create P m path mode now_i now_p = Some (0, m') /\
    (i_mode m' a = mode /\ i_nlink m' a = 1 /\ i_size m' a = 0 /\
     i_blocks m' a = 0 /\ i_mtime m' a = now_i /\
     (forall k, 0 <= k < VSFS_NUM_DIRECT P -> i_direct m' a k = 0) /\
     i_indirect P m' a = 0) /\
    (bitmap_isset m fs_ibmap (sb_num_inodes m) ino = false /\
     bitmap_isset m' fs_ibmap (sb_num_inodes m') ino = true /\
     forall j, 0 <= j < 8 * VSFS_BLOCK_SIZE -> j <> ino ->
       bitmap_isset m' fs_ibmap (sb_num_inodes m') j
       = bitmap_isset m fs_ibmap (sb_num_inodes m) j) /\
    (sb_free_inodes m' = sb_free_inodes m - 1 /\
     sb_num_inodes m' = sb_num_inodes m /\
     sb_num_blocks m' = sb_num_blocks m /\
     sb_free_blocks m' = sb_free_blocks m /\
     forall x, fs_dbmap <= x < fs_dbmap + VSFS_BLOCK_SIZE -> m' x = m x).
Proof.
  intros Hreg Hmode Ht1 Ht2 Hfree Hnum Hroot Hdir Halloc Hslot Hleaf a.
  destruct (create_effect P OK m path mode now_i now_p ino m1 i leaf
              Hreg Hfree Hnum Hroot Hdir Halloc Hslot Hleaf)
    as (m' & Hr & Hino & Hi & Hmo & Hnl & Hsz & Hbl & Hm1 & Hm2 & Hz & Hfi
        & Hc & Hs & Ho & _ & _ & _ & _ & F).
  fold a in Hmo, Hnl, Hsz, Hbl, Hm1, Hm2, Hz, F.
  pose proof (inode_size_bounds P OK) as HS.
  pose proof (dentry_size_bounds P OK) as HD.
  pose proof (inode_holds_fields P OK) as Hfields. unfold I_INDIRECT in Hfields.
  pose proof (num_direct_min P OK) as Hnd.
  assert (Ha1 : fs_itable P 0 + INODE_SIZE P <= a) by (unfold a, fs_itable; nia).
  assert (Ha2 : a + INODE_SIZE P
                <= i_direct m (fs_itable P 0) 0 * VSFS_BLOCK_SIZE)
    by (unfold a, fs_itable in *; nia).
  exists m'. split; [exact Hr|]. split; [|split].
  - unfold i_mode, i_nlink, i_size, i_blocks, i_mtime, i_direct, i_indirect.
    rewrite Hmo, Hnl, Hsz, Hbl, Hm1, Hm2. rewrite !s64_u64 by lia.
    split; [apply u32_small; lia|]. do 3 (split; [reflexivity|]).
    split; [now destruct now_i|]. split.
    + intros k Hk. apply (load_le_zero 4). intros x Hx. apply Hz.
      simpl Z.of_nat in Hx. layout. lia.
    + apply (load_le_zero 4). intros x Hx. apply Hz.
      simpl Z.of_nat in Hx. unfold I_INDIRECT in *. layout. lia.
  - split; [exact Hc|]. split; [exact Hs|].
    intros j Hj Hne. apply Ho; [exact Hne|exact Hj].
  - assert (Fsb : forall o, SB_FREE_INODES + 4 <= o \/ o + 4 <= SB_FREE_INODES ->
              0 <= o -> o + 4 <= VSFS_BLOCK_SIZE ->
              load_u32 m' (fs_sb + o) = load_u32 m (fs_sb + o)).
    { intros o Ho1 Ho2 Ho3. apply load_u32_frame. intros x Hx.
      apply F; layout; zlia. }
    split; [exact Hfi|].
    unfold sb_num_inodes, sb_num_blocks, sb_free_blocks.
    rewrite !Fsb by (layout; lia). do 3 (split; [reflexivity|]).
    intros x Hx. apply F; layout; zlia.
Qed.

(** X13.  Under the same conditions, and for a leaf name of at most NAME_MAX
    characters, [vsfs_create] fills the first free slot of the root
    directory with the new inode number and the leaf name, leaves every
    other slot as it was, and sets the modification time of the root
    inode. *)
Theorem create_directory_entry m path mode now_i now_p ino m1 i leaf :
  S_ISREG mode = true ->
  sb_free_inodes m <> 0 ->
  sb_num_inodes m <= 8 * VSFS_BLOCK_SIZE ->
  bitmap_isset m fs_ibmap (sb_num_inodes m) 0 = true ->
  VSFS_ITBL_BLKNUM * VSFS_BLOCK_SIZE + sb_num_inodes m * INODE_SIZE P
    <= i_direct m (fs_itable P 0) 0 * VSFS_BLOCK_SIZE ->
  bitmap_alloc m fs_ibmap (sb_num_inodes m) = Some (ino, m1) ->
  first_slot (fun j => dentry_ino P m j =? VSFS_INO_MAX P)
    (Z.to_nat (NUM_DENTRIES P)) 0 = Some i ->
  leaf_name path = Some leaf ->
  strlen leaf <= VSFS_NAME_MAX P ->
  exists m',
    vsfs_create P m path mode now_i now_p = Some (0, m') /\
    dentry_ino P m i = VSFS_INO_MAX P /\
    (forall j, 0 <= j < i -> dentry_ino P m j <> VSFS_INO_MAX P) /\
    dentry_ino P m' i = ino /\
    strcmp_mem m' (dentry_name P m' i) leaf = true /\
    (forall j, 0 <= j < NUM_DENTRIES P -> j <> i ->
       dentry_ino P m' j = dentry_ino P m j /\
       dentry_name P m' j = dentry_name P m j /\
       forall k, 0 <= k <= VSFS_NAME_MAX P ->
         m' (dentry_name P m' j + k) = m (dentry_name P m j + k)) /\
    i_mtime m' (fs_itable P 0)
    = (s64 (u64 (fst now_p)), s64 (u64 (snd now_p))).
Proof.
  intros Hreg Hfree Hnum Hroot Hdir Halloc Hslot Hleaf Hlen.
  destruct (create_effect P OK m path mode now_i now_p ino m1 i leaf
              Hreg Hfree Hnum Hroot Hdir Halloc Hslot Hleaf)
    as (m' & Hr & Hino & Hi & _ & _ & _ & _ & _ & _ & _ & _
        & _ & _ & _ & Hdi & Hdn & Hp1 & Hp2 & F).
  pose proof (inode_size_bounds P OK) as HS.
  pose proof (dentry_size_bounds P OK) as HD.
  pose proof (num_dentries_bounds P OK) as [HK1 HK2].
  pose proof (inode_holds_fields P OK) as Hfields. unfold I_INDIRECT in Hfields.
  pose proof (num_direct_min P OK) as Hnd.
  pose proof (strlen_nonneg leaf) as Hlf.
  pose proof (first_slot_some _ _ _ _ Hslot) as (_ & Hfree_i & Hused).
  set (a := fs_itable P ino) in *.
  set (D := i_direct m (fs_itable P 0) 0) in *.
  assert (Ha1 : fs_itable P 0 + INODE_SIZE P <= a) by (unfold a, fs_itable; nia).
  assert (Ha2 : a + INODE_SIZE P <= D * VSFS_BLOCK_SIZE)
    by (unfold a, fs_itable in *; nia).
  assert (HD' : i_direct m' (fs_itable P 0) 0 = D).
  { unfold D, i_direct. apply load_u32_frame. intros x Hx.
    apply F; fold D; unfold DENTRY_SIZE in *; layout; zlia. }
  assert (Hge : forall j, 0 <= j < NUM_DENTRIES P ->
            get_dir_entry P m' (fs_itable P 0) j
            = D * VSFS_BLOCK_SIZE + j * DENTRY_SIZE P /\
            get_dir_entry P m (fs_itable P 0) j
            = D * VSFS_BLOCK_SIZE + j * DENTRY_SIZE P).
  { intros j Hj. rewrite !(get_dir_entry_root P OK) by exact Hj.
    rewrite HD'. fold D. split; reflexivity. }
  exists m'. split; [exact Hr|].
  split; [now apply Z.eqb_eq in Hfree_i|].
  split.
  { intros j Hj. apply Z.eqb_neq. apply Hused. lia. }
  split.
  { unfold dentry_ino. rewrite (proj1 (Hge i Hi)). exact Hdi. }
  split.
  { unfold dentry_name. rewrite (proj1 (Hge i Hi)). exact Hdn. }
  split.
  - intros j Hj Hne.
    destruct (Hge j Hj) as [E1 E2].
    assert (Hslotj : forall x,
              D * VSFS_BLOCK_SIZE + j * DENTRY_SIZE P <= x
              < D * VSFS_BLOCK_SIZE + j * DENTRY_SIZE P + DENTRY_SIZE P ->
              m' x = m x).
    { intros x Hx. fold D in F.
      assert (Hsep : j * DENTRY_SIZE P + DENTRY_SIZE P <= i * DENTRY_SIZE P
                     \/ i * DENTRY_SIZE P + DENTRY_SIZE P <= j * DENTRY_SIZE P).
      { destruct (Z_lt_ge_dec j i); [left|right]; apply slots_apart; lia. }
      apply F; unfold DENTRY_SIZE in *; layout; zlia. }
    split; [|split].
    + unfold dentry_ino. rewrite E1, E2. apply load_u32_frame.
      intros x Hx. apply Hslotj. layout. lia.
    + unfold dentry_name. now rewrite E1, E2.
    + intros k Hk. unfold dentry_name. rewrite E1, E2. apply Hslotj.
      unfold DENTRY_SIZE. layout. lia.
  - unfold i_mtime. now rewrite Hp1, Hp2.
Qed.

End Create.


Lemma create_success_witness :
  exists m',
    vsfs_create std img_formatted path_a REG t0 t0 = Some (0, m') /\
    i_mode m' (fs_itable std 1) = REG /\
    sb_free_inodes m' = sb_free_inodes img_formatted - 1.
Proof.
  assert (Halloc :
    bitmap_alloc img_formatted fs_ibmap (sb_num_inodes img_formatted)
    = Some (1, bitmap_set img_formatted fs_ibmap
                 (sb_num_inodes img_formatted) 1 true)).
  { apply bitmap_alloc_found. vm_compute. reflexivity. }
  destruct (create_success std std_ok img_formatted path_a REG t0 t0 1 _ 2 name_a
              ltac:(reflexivity)
              ltac:(vm_compute; split; [discriminate|reflexivity])
              ltac:(vm_compute; split; [discriminate|reflexivity])
              ltac:(vm_compute; split; [discriminate|reflexivity])
              ltac:(vm_compute; discriminate)
              ltac:(vm_compute; discriminate)
              ltac:(vm_compute; reflexivity)
              ltac:(vm_compute; discriminate)
              Halloc
              ltac:(vm_compute; reflexivity)
              ltac:(vm_compute; reflexivity))
    as (m' & Hr & (Hmode & _) & _ & (Hfi & _)).
  exists m'. repeat split; assumption.
Defined.

Lemma create_directory_entry_witness :
  exists m',
    vsfs_create std img_formatted path_a REG t0 t0 = Some (0, m') /\
    dentry_ino std m' 2 = 1 /\
    strcmp_mem m' (dentry_name std m' 2) name_a = true.
Proof.
  assert (Halloc :
    bitmap_alloc img_formatted fs_ibmap (sb_num_inodes img_formatted)
    = Some (1, bitmap_set img_formatted fs_ibmap
                 (sb_num_inodes img_formatted) 1 true)).
  { apply bitmap_alloc_found. vm_compute. reflexivity. }
  destruct (create_directory_entry std std_ok img_formatted path_a REG t0 t0
              1 _ 2 name_a
              ltac:(reflexivity)
              ltac:(vm_compute; discriminate)
              ltac:(vm_compute; discriminate)
              ltac:(vm_compute; reflexivity)
              ltac:(vm_compute; discriminate)
              Halloc
              ltac:(vm_compute; reflexivity)
              ltac:(vm_compute; reflexivity)
              ltac:(vm_compute; discriminate))
    as (m' & Hr & _ & _ & Hd & Hn & _).
  exists m'. repeat split; assumption.
Defined.


(** ** Removing a file *)


Section Unlink_effect.

Variable P : params.
Hypothesis OK : params_ok P.


(** The effect of [vsfs_unlink] on an existing file, with the bytes of the
    root directory it leaves alone. *)
Lemma unlink_effect m path now ino :
  path_lookup P m path = Found ino ->
  is_root_path path = false ->
  let a := fs_itable P ino in
  let bc := i_blocks m a in
  let root_dir := i_direct m (fs_itable P 0) 0 in
  0 < ino < sb_num_inodes m ->
  sb_num_inodes m <= 8 * VSFS_BLOCK_SIZE ->
  VSFS_ITBL_BLKNUM * VSFS_BLOCK_SIZE + sb_num_inodes m * INODE_SIZE P
    <= root_dir * VSFS_BLOCK_SIZE ->
  bc <= VSFS_NUM_DIRECT P ->
  (forall k, 0 <= k < bc -> i_direct m a k < 8 * VSFS_BLOCK_SIZE) ->
  (u32 (i_nlink m a - 1) = 0 ->
   bitmap_isset m fs_ibmap (sb_num_inodes m) ino = true) ->
  (forall k, 0 <= k < bc ->
     i_direct m a k < sb_num_blocks m /\
     bitmap_isset m fs_dbmap (sb_num_blocks m) (i_direct m a k) = true) ->
  (forall j k, 0 <= j < bc -> 0 <= k < bc ->
     i_direct m a j = i_direct m a k -> j = k) ->
  exists i0 m',
    first_slot (name_matches P m path) (Z.to_nat (NUM_DENTRIES P)) 0 = Some i0 /\
    dentry_ino P m i0 = ino /\
    vsfs_unlink P m path now = Some (0, m') /\
    i_nlink m' a = u32 (i_nlink m a - 1) /\
    (u32 (i_nlink m a - 1) = 0 ->
     bitmap_isset m' fs_ibmap (sb_num_inodes m) ino = false /\
     sb_free_inodes m' = u32 (sb_free_inodes m + 1)) /\
    (u32 (i_nlink m a - 1) <> 0 ->
     bitmap_isset m' fs_ibmap (sb_num_inodes m) ino
     = bitmap_isset m fs_ibmap (sb_num_inodes m) ino /\
     sb_free_inodes m' = sb_free_inodes m) /\
    sb_free_blocks m' = u32 (sb_free_blocks m + bc) /\
    (forall k, 0 <= k < bc ->
       bitmap_isset m' fs_dbmap (sb_num_blocks m) (i_direct m a k) = false) /\
    (forall j, 0 <= j < 8 * VSFS_BLOCK_SIZE ->
       (forall k, 0 <= k < bc -> i_direct m a k <> j) ->
       bitmap_isset m' fs_dbmap (sb_num_blocks m) j
       = bitmap_isset m fs_dbmap (sb_num_blocks m) j) /\
    dentry_ino P m' i0 = VSFS_INO_MAX P /\
    i_direct m' (fs_itable P 0) 0 = root_dir /\
    sb_num_inodes m' = sb_num_inodes m /\
    (forall x, root_dir * VSFS_BLOCK_SIZE <= x ->
       x < root_dir * VSFS_BLOCK_SIZE + i0 * DENTRY_SIZE P
       \/ root_dir * VSFS_BLOCK_SIZE + i0 * DENTRY_SIZE P
          + Z.max 4 (strlen (tl path)) <= x ->
       m' x = m x).
Proof.
  intros Hl Hnr a bc root_dir Hino Hnum Hdir Hbcnd Hptr Hibit Hdset Hdapart.
  destruct (path_lookup_found_slot P OK m path ino Hl Hnr) as (i0 & Hscan & Hi0 & Hi0r).
  exists i0.
  pose proof (inode_size_bounds P OK) as HS.
  pose proof (dentry_size_bounds P OK) as HD.
  pose proof (num_dentries_bounds P OK) as [HK1 HK2].
  pose proof (inode_holds_fields P OK) as Hfields. unfold I_INDIRECT in Hfields.
  pose proof (ino_max_range P OK) as Hinomax.
  pose proof (load_u32_range m (a + I_BLOCKS)) as Hbcr. fold (i_blocks m a) in Hbcr.
  fold bc in Hbcr.
  assert (Ha1 : fs_itable P 0 + INODE_SIZE P <= a) by (unfold a, fs_itable; nia).
  assert (Ha2 : a + INODE_SIZE P <= root_dir * VSFS_BLOCK_SIZE)
    by (unfold a, fs_itable; nia).
  assert (Hroot0 : fs_itable P 0 = VSFS_ITBL_BLKNUM * VSFS_BLOCK_SIZE)
    by (unfold fs_itable; lia).
  assert (Hde : forall i, 0 <= i < NUM_DENTRIES P ->
            root_dir * VSFS_BLOCK_SIZE <= get_dir_entry P m (fs_itable P 0) i).
  { intros i Hi. rewrite (get_dir_entry_root P OK) by exact Hi. fold root_dir. nia. }
  unfold vsfs_unlink. rewrite Hl. cbn [lookup_ino]. fold a.
  set (m1 := store_u32 m (a + I_NLINK) (i_nlink m a - 1)).
  assert (Hn1 : i_nlink m1 a = u32 (i_nlink m a - 1)).
  { unfold i_nlink at 1. unfold m1. apply load_u32_store_u32. }
  assert (Hf1 : forall x, x < a + I_NLINK \/ a + I_NLINK + 4 <= x -> m1 x = m x).
  { intros x Hx. unfold m1, store_u32. apply store_le_other. lia. }
  set (m2 := if i_nlink m1 a =? 0
             then store_u32
                    (bitmap_set m1 fs_ibmap (sb_num_inodes m1) ino false)
                    (fs_sb + SB_FREE_INODES)
                    (sb_free_inodes
                       (bitmap_set m1 fs_ibmap (sb_num_inodes m1) ino false) + 1)
             else m1).
  assert (Hu : u32 ino = ino) by (apply u32_small; unfold VSFS_BLOCK_SIZE in *; lia).
  assert (Hfi : unlink_free_inode a ino m1 = Some m2).
  { unfold unlink_free_inode, m2. rewrite Hn1.
    destruct (Z.eqb_spec (u32 (i_nlink m a - 1)) 0) as [Hz|_]; [|reflexivity].
    unfold bitmap_free. rewrite Hu.
    assert (Hni : sb_num_inodes m1 = sb_num_inodes m).
    { unfold sb_num_inodes. apply load_u32_frame. intros x Hx.
      apply Hf1. layout. lia. }
    rewrite Hni at 1.
    destruct (Z.ltb_spec ino (sb_num_inodes m)); [|lia]. cbn [andb].
    rewrite (bitmap_isset_frame m m1 fs_ibmap (sb_num_inodes m1) 0 ino)
      by (apply Hf1; layout; zlia).
    change (bitmap_isset m fs_ibmap 0 ino)
      with (bitmap_isset m fs_ibmap (sb_num_inodes m) ino).
    rewrite (Hibit Hz). reflexivity. }
  rewrite Hfi.
  assert (Hf2 : forall x,
            x < a + I_NLINK \/ a + I_NLINK + 4 <= x ->
            x <> fs_ibmap + ino / 8 ->
            x < fs_sb + SB_FREE_INODES \/ fs_sb + SB_FREE_INODES + 4 <= x ->
            m2 x = m x).
  { intros x Hx1 Hx2 Hx3. unfold m2. destruct (i_nlink m1 a =? 0).
    - unfold store_u32.
      rewrite store_le_other by lia. rewrite bitmap_set_other by exact Hx2.
      apply Hf1. exact Hx1.
    - apply Hf1. exact Hx1. }
  assert (Hina : VSFS_ITBL_BLKNUM * VSFS_BLOCK_SIZE <= a) by lia.
  assert (Hload2 : forall x, a + I_NLINK + 4 <= x -> load_u32 m2 x = load_u32 m x).
  { intros x Hx. apply load_u32_frame. intros y Hy. apply Hf2; layout; zlia. }
  assert (Sf2 : forall x, x + 4 <= fs_sb + SB_FREE_INODES
                          \/ fs_sb + SB_FREE_INODES + 4 <= x ->
                  x + 4 <= fs_ibmap -> load_u32 m2 x = load_u32 m x).
  { intros x Hx1 Hx2. apply load_u32_frame. intros y Hy.
    apply Hf2; layout; zlia. }
  destruct (unlink_loop a bc (sb_num_blocks m) (fun k => i_direct m a k) Hina
              ltac:(intros k Hk; split;
                    [apply load_u32_range | apply Hptr; exact Hk])
              ltac:(intros k Hk; apply Hdset; exact Hk)
              Hdapart
              (Z.to_nat bc) 0 m2 ltac:(lia) ltac:(lia)
              ltac:(unfold i_blocks; rewrite Hload2 by (layout; lia); reflexivity)
              ltac:(intros k Hk; unfold i_direct; apply Hload2; layout; lia)
              ltac:(unfold sb_num_blocks; apply Sf2; layout; lia)
              ltac:(intros k Hk; cbv beta;
                    rewrite <- (proj2 (Hdset k ltac:(lia)));
                    pose proof (Hptr k ltac:(lia));
                    pose proof (load_u32_range m (a + I_DIRECT + 4 * k)) as Hrk;
                    fold (i_direct m a k) in Hrk;
                    apply bitmap_isset_frame; apply Hf2; layout; zlia))
    as (mf & Hrun & Hfb & Hframe & Hclr & Hmono & Hoth).
  rewrite (iterate_finished 33 (Z.to_nat bc + 1) _ _ _ Hrun).
  2:{ apply Nat2Z.inj_le. rewrite Nat2Z.inj_add, Z2Nat.id, Nat2Z.inj_pow by lia.
      change (Z.of_nat 2 ^ Z.of_nat 33) with (2 ^ 33).
      change (Z.of_nat 1) with 1. lia. }
  assert (F : forall x, fs_dbmap + VSFS_BLOCK_SIZE <= x ->
                        x < a + I_NLINK \/ a + I_NLINK + 4 <= x -> mf x = m x).
  { intros x Hx1 Hx2. rewrite Hframe by (layout; lia). apply Hf2; layout; zlia. }
  assert (Hscan_f : first_slot (name_matches P mf path)
                      (Z.to_nat (NUM_DENTRIES P)) 0 = Some i0).
  { rewrite (first_slot_ext _ (name_matches P m path)); [exact Hscan|].
    intros j Hj. rewrite Z2Nat.id in Hj by lia.
    destruct (dentry_ino_frame P OK m mf j ltac:(lia)
                ltac:(intros x Hx; apply F; layout; lia)
                ltac:(intros x Hx; apply F; fold root_dir in Hx; layout; lia))
      as [Hge Hdi].
    unfold name_matches, dentry_name. rewrite Hdi, Hge. f_equal.
    apply strcmp_mem_frame. intros x Hx.
    pose proof (Hde j ltac:(lia)). apply F; layout; lia. }
  rewrite Hscan_f.
  eexists. split; [exact Hscan|]. split; [exact Hi0|]. split; [reflexivity|].
  destruct (dentry_ino_frame P OK m mf i0 Hi0r
              ltac:(intros x Hx; apply F; layout; lia)
              ltac:(intros x Hx; apply F; fold root_dir in Hx; layout; lia))
    as [Hge _].
  assert (Hdev : get_dir_entry P mf (fs_itable P 0) i0
                 = root_dir * VSFS_BLOCK_SIZE + i0 * DENTRY_SIZE P).
  { rewrite Hge. apply (get_dir_entry_root P OK). exact Hi0r. }
  set (de := get_dir_entry P mf (fs_itable P 0) i0) in *.
  assert (Hdelo : root_dir * VSFS_BLOCK_SIZE <= de) by nia.
  set (len := strlen_mem (length path) mf (de + D_NAME)).
  set (m5 := set_mtime
               (store_u32 (memset mf de x00 len) (de + D_INO) (VSFS_INO_MAX P))
               (fs_itable P 0) now).
  assert (F5 : forall x, x < root_dir * VSFS_BLOCK_SIZE ->
                 x < fs_itable P 0 + I_MTIME \/ fs_itable P 0 + I_MTIME + 16 <= x ->
                 m5 x = mf x).
  { intros x Hx1 Hx2. unfold m5, store_u32.
    rewrite set_mtime_other by exact Hx2.
    rewrite store_le_below by (unfold D_INO; lia).
    apply memset_below. lia. }
  assert (L5 : forall x, fs_itable P 0 + I_MTIME + 16 <= x ->
                 x + 4 <= root_dir * VSFS_BLOCK_SIZE ->
                 load_u32 m5 x = load_u32 mf x).
  { intros x Hx1 Hx2. apply load_u32_frame. intros y Hy. apply F5; lia. }
  assert (S5 : forall x, x + 4 <= fs_dbmap ->
                 load_u32 m5 x = load_u32 mf x).
  { intros x Hx. apply load_u32_frame. intros y Hy. apply F5; layout; lia. }
  assert (B5 : forall b j, b = fs_ibmap \/ b = fs_dbmap ->
                 0 <= j < 8 * VSFS_BLOCK_SIZE ->
                 m5 (b + j / 8) = mf (b + j / 8)).
  { intros b j Hb Hj. apply F5; destruct Hb; subst b; layout; zlia. }
  repeat split.
  - unfold i_nlink at 1. rewrite L5 by (layout; lia).
    rewrite <- Hn1. unfold i_nlink. apply load_u32_frame. intros x Hx.
    rewrite Hframe by (layout; lia). unfold m2.
    destruct (i_nlink m1 a =? 0); [|reflexivity].
    unfold store_u32.
    rewrite store_le_other by (layout; lia).
    apply bitmap_set_other. layout. zlia.
  - rewrite (bitmap_isset_frame mf m5 fs_ibmap (sb_num_inodes m) 0 ino)
      by (apply B5; [left; reflexivity | unfold VSFS_BLOCK_SIZE in *; lia]).
    rewrite (bitmap_isset_frame m2 mf fs_ibmap 0 0 ino)
      by (apply Hframe; layout; zlia).
    unfold m2. rewrite Hn1, H. cbn [Z.eqb].
    rewrite (bitmap_isset_frame
               (bitmap_set m1 fs_ibmap (sb_num_inodes m1) ino false) _
               fs_ibmap 0 0 ino)
      by (unfold store_u32; apply store_le_other; layout; zlia).
    apply bitmap_isset_set_same.
  - unfold sb_free_inodes at 1. rewrite S5 by (layout; lia).
    rewrite (load_u32_frame m2 mf) by (intros x Hx; apply Hframe; layout; lia).
    unfold m2. rewrite Hn1, H. cbn [Z.eqb]. rewrite load_u32_store_u32.
    f_equal. f_equal. unfold sb_free_inodes.
    apply load_u32_frame. intros x Hx.
    rewrite bitmap_set_other by (layout; zlia). apply Hf1. layout. lia.
  - rewrite (bitmap_isset_frame mf m5 fs_ibmap (sb_num_inodes m) 0 ino)
      by (apply B5; [left; reflexivity | unfold VSFS_BLOCK_SIZE in *; lia]).
    rewrite (bitmap_isset_frame m2 mf fs_ibmap 0 0 ino)
      by (apply Hframe; layout; zlia).
    unfold m2. rewrite Hn1. destruct (Z.eqb_spec (u32 (i_nlink m a - 1)) 0);
      [contradiction|].
    apply bitmap_isset_frame. apply Hf1. layout. zlia.
  - unfold sb_free_inodes at 1. rewrite S5 by (layout; lia).
    rewrite (load_u32_frame m2 mf) by (intros x Hx; apply Hframe; layout; lia).
    unfold m2. rewrite Hn1. destruct (Z.eqb_spec (u32 (i_nlink m a - 1)) 0);
      [contradiction|].
    apply load_u32_frame. intros x Hx. apply Hf1. layout. lia.
  - unfold sb_free_blocks at 1. rewrite S5 by (layout; lia).
    fold (sb_free_blocks mf). rewrite Hfb. rewrite Z2Nat.id by lia.
    f_equal. f_equal. unfold sb_free_blocks. apply load_u32_frame.
    intros x Hx. apply Hf2; layout; zlia.
  - intros k Hk.
    pose proof (load_u32_range m (a + I_DIRECT + 4 * k)) as Hr.
    fold (i_direct m a k) in Hr. specialize (Hptr k Hk).
    rewrite (bitmap_isset_frame mf m5 fs_dbmap (sb_num_blocks m) 0 (i_direct m a k))
      by (apply B5; [right; reflexivity | lia]).
    apply (Hclr k). exact Hk.
  - intros j Hj Hother.
    rewrite (bitmap_isset_frame mf m5 fs_dbmap (sb_num_blocks m) 0 j)
      by (apply B5; [right; reflexivity | lia]).
    rewrite Hoth; [|lia|exact Hother].
    apply bitmap_isset_frame. apply Hf2; layout; zlia.
  - unfold dentry_ino.
    assert (Hg5 : get_dir_entry P m5 (fs_itable P 0) i0 = de).
    { rewrite (get_dir_entry_root P OK) by exact Hi0r.
      unfold i_direct. rewrite L5 by (layout; lia).
      rewrite (load_u32_frame m mf) by (intros x Hx; apply F; layout; lia).
      fold (i_direct m (fs_itable P 0) 0). fold root_dir. symmetry. exact Hdev. }
    rewrite Hg5. unfold m5. to_le.
    rewrite load_le_set_mtime_other by (layout; simpl Z.of_nat; lia).
    rewrite load4_store4. apply u32_small. lia.
  - unfold i_direct. rewrite L5 by (layout; lia).
    rewrite (load_u32_frame m mf) by (intros x Hx; apply F; layout; lia).
    reflexivity.
  - unfold sb_num_inodes at 1. rewrite S5 by (layout; lia).
    rewrite (load_u32_frame m2 mf) by (intros x Hx; apply Hframe; layout; lia).
    apply Sf2; layout; lia.
  - intros x Hx1 Hx2.
    assert (Hlen : len = strlen (tl path)).
    { unfold len. apply strlen_mem_matches.
      - apply first_slot_some in Hscan_f. destruct Hscan_f as (_ & Hm & _).
        unfold name_matches in Hm. apply andb_true_iff in Hm.
        destruct Hm as [_ Hm]. exact Hm.
      - destruct path; cbn [tl length]; lia. }
    rewrite <- Hdev in Hx2. unfold m5, store_u32.
    rewrite set_mtime_other by (layout; lia).
    rewrite store_le_other by (layout; lia).
    rewrite memset_other by lia.
    apply F; layout; lia.
Qed.

End Unlink_effect.


Section Directory_round_trips.

Variable P : params.
Hypothesis OK : params_ok P.


(** A path that resolves through the directory scan is absolute and is not
    the root. *)
Lemma path_lookup_scanned m path :
  path_lookup P m path = NotFound \/
  (exists ino, path_lookup P m path = Found ino /\ is_root_path path = false) ->
  hd x00 path = slash /\ is_root_path path = false.
Proof.
  unfold path_lookup. destruct (byte_eqb (hd x00 path) slash) eqn:E.
  - apply byte_eqb_eq in E. cbn [negb].
    destruct (is_root_path path).
    + intros [H|(ino & _ & H)]; discriminate.
    + intros _. split; [exact E|reflexivity].
  - cbn [negb]. intros [H|(ino & H & _)]; discriminate.
Qed.

(** In the root directory of [m'], which is that of [m] outside of slot
    [i], the slots other than [i] compare with a name of at most NAME_MAX
    characters as they do in [m]. *)
Lemma name_matches_other_slot (m m' : image) path i j :
  0 <= i < NUM_DENTRIES P -> 0 <= j < NUM_DENTRIES P -> j <> i ->
  strlen (tl path) <= VSFS_NAME_MAX P ->
  let D := i_direct m (fs_itable P 0) 0 in
  i_direct m' (fs_itable P 0) 0 = D ->
  (forall x, D * VSFS_BLOCK_SIZE <= x ->
     x < D * VSFS_BLOCK_SIZE + i * DENTRY_SIZE P
     \/ D * VSFS_BLOCK_SIZE + i * DENTRY_SIZE P + DENTRY_SIZE P <= x ->
     m' x = m x) ->
  name_matches P m' path j = name_matches P m path j /\
  dentry_ino P m' j = dentry_ino P m j.
Proof.
  intros Hi Hj Hne Hlen D HD F.
  pose proof (dentry_size_bounds P OK) as HDS.
  pose proof (strlen_nonneg (tl path)) as Hl0.
  assert (Hsep : j * DENTRY_SIZE P + DENTRY_SIZE P <= i * DENTRY_SIZE P
                 \/ i * DENTRY_SIZE P + DENTRY_SIZE P <= j * DENTRY_SIZE P).
  { destruct (Z_lt_ge_dec j i); [left|right]; apply slots_apart; lia. }
  assert (Hpos : 0 <= j * DENTRY_SIZE P) by (apply Z.mul_nonneg_nonneg; lia).
  assert (Hslot : forall x,
            D * VSFS_BLOCK_SIZE + j * DENTRY_SIZE P <= x
            < D * VSFS_BLOCK_SIZE + j * DENTRY_SIZE P + DENTRY_SIZE P ->
            m' x = m x).
  { intros x Hx. apply F; lia. }
  assert (E1 : get_dir_entry P m' (fs_itable P 0) j
               = D * VSFS_BLOCK_SIZE + j * DENTRY_SIZE P).
  { rewrite (get_dir_entry_root P OK) by exact Hj. now rewrite HD. }
  assert (E2 : get_dir_entry P m (fs_itable P 0) j
               = D * VSFS_BLOCK_SIZE + j * DENTRY_SIZE P).
  { now rewrite (get_dir_entry_root P OK) by exact Hj. }
  assert (Hino : dentry_ino P m' j = dentry_ino P m j).
  { unfold dentry_ino. rewrite E1, E2. apply load_u32_frame. intros x Hx.
    apply Hslot. layout. lia. }
  split; [|exact Hino].
  unfold name_matches, dentry_name. rewrite Hino, E1, E2. f_equal.
  apply strcmp_mem_ext. intros k Hk. apply Hslot.
  unfold DENTRY_SIZE in *. layout. lia.
Qed.

Lemma create_lookup m path mode now_i now_p ino m1 i m' :
  S_ISREG mode = true ->
  sb_free_inodes m <> 0 ->
  sb_num_inodes m <= 8 * VSFS_BLOCK_SIZE ->
  sb_num_inodes m <= VSFS_INO_MAX P ->
  bitmap_isset m fs_ibmap (sb_num_inodes m) 0 = true ->
  VSFS_ITBL_BLKNUM * VSFS_BLOCK_SIZE + sb_num_inodes m * INODE_SIZE P
    <= i_direct m (fs_itable P 0) 0 * VSFS_BLOCK_SIZE ->
  bitmap_alloc m fs_ibmap (sb_num_inodes m) = Some (ino, m1) ->
  first_slot (fun j => dentry_ino P m j =? VSFS_INO_MAX P)
    (Z.to_nat (NUM_DENTRIES P)) 0 = Some i ->
  path_lookup P m path = NotFound ->
  leaf_name path = Some (cstr (tl path)) ->
  strlen (tl path) <= VSFS_NAME_MAX P ->
  vsfs_create P m path mode now_i now_p = Some (0, m') ->
  i_direct m' (fs_itable P 0) 0 = i_direct m (fs_itable P 0) 0 /\
  name_matches P m' path i = true /\
  dentry_ino P m' i = ino /\
  (forall j, 0 <= j < NUM_DENTRIES P -> j <> i ->
     name_matches P m' path j = false /\ dentry_ino P m' j = dentry_ino P m j) /\
  path_lookup P m' path = Found ino.
Proof.
  intros Hreg Hfree Hnum Hmax Hroot Hdir Halloc Hslot Hnf Hleaf Hlen Hcr.
  destruct (create_effect P OK m path mode now_i now_p ino m1 i _
              Hreg Hfree Hnum Hroot Hdir Halloc Hslot Hleaf)
    as (m'' & Hr & Hino & Hi & _ & _ & _ & _ & _ & _ & _ & _
        & _ & _ & _ & Hdi & Hdn & _ & _ & F).
  rewrite Hr in Hcr. inversion Hcr; subst m''. clear Hcr.
  pose proof (inode_size_bounds P OK) as HS.
  pose proof (dentry_size_bounds P OK) as HD.
  pose proof (num_dentries_bounds P OK) as [HK1 HK2].
  pose proof (inode_holds_fields P OK) as Hfields. unfold I_INDIRECT in Hfields.
  pose proof (num_direct_min P OK) as Hnd.
  pose proof (strlen_nonneg (tl path)) as Htl0.
  destruct (path_lookup_scanned m path (or_introl Hnf)) as [Habs Hnr].
  set (a := fs_itable P ino) in *.
  set (D := i_direct m (fs_itable P 0) 0) in *.
  assert (Ha1 : fs_itable P 0 + INODE_SIZE P <= a) by (unfold a, fs_itable; nia).
  assert (Ha2 : a + INODE_SIZE P <= D * VSFS_BLOCK_SIZE)
    by (unfold a, fs_itable in *; nia).
  assert (Hipos : 0 <= i * DENTRY_SIZE P) by (apply Z.mul_nonneg_nonneg; lia).
  rewrite strlen_cstr in F.
  assert (HD' : i_direct m' (fs_itable P 0) 0 = D).
  { unfold D, i_direct. apply load_u32_frame. intros x Hx.
    apply F; fold D; unfold DENTRY_SIZE in *; layout; zlia. }
  assert (Hge : get_dir_entry P m' (fs_itable P 0) i
                = D * VSFS_BLOCK_SIZE + i * DENTRY_SIZE P).
  { rewrite (get_dir_entry_root P OK) by exact Hi. now rewrite HD'. }
  assert (Hdi' : dentry_ino P m' i = ino).
  { unfold dentry_ino. rewrite Hge. exact Hdi. }
  assert (Hmi : name_matches P m' path i = true).
  { unfold name_matches, dentry_name. rewrite Hdi'. fold (dentry_ino P m' i).
    rewrite Hge. apply andb_true_iff. split.
    - apply negb_true_iff, Z.eqb_neq. lia.
    - rewrite strcmp_mem_cstr in Hdn. exact Hdn. }
  assert (Hno : forall j, 0 <= j < NUM_DENTRIES P -> name_matches P m path j = false).
  { unfold path_lookup in Hnf. rewrite Habs, byte_eqb_refl, Hnr in Hnf.
    cbn [negb] in Hnf.
    destruct (first_slot (name_matches P m path) _ 0) eqn:Em; [discriminate|].
    intros j Hj. apply (first_slot_none _ _ _ Em). rewrite Z2Nat.id by lia. lia. }
  assert (Hoth : forall j, 0 <= j < NUM_DENTRIES P -> j <> i ->
            name_matches P m' path j = false /\
            dentry_ino P m' j = dentry_ino P m j).
  { intros j Hj Hne.
    destruct (name_matches_other_slot m m' path i j Hi Hj Hne Hlen HD') as [E1 E2].
    - intros x Hx1 Hx2. fold D in Hx1, Hx2.
      apply F; unfold DENTRY_SIZE in *; layout; zlia.
    - rewrite E1, E2. split; [now apply Hno|reflexivity]. }
  split; [exact HD'|]. split; [exact Hmi|]. split; [exact Hdi'|].
  split; [exact Hoth|].
  unfold path_lookup. rewrite Habs, byte_eqb_refl, Hnr. cbn [negb].
  rewrite (first_slot_found _ _ 0 i).
  - now rewrite Hdi'.
  - rewrite Z2Nat.id by lia. lia.
  - exact Hmi.
  - intros j Hj. apply Hoth; lia.
Qed.

(** After [vsfs_unlink] of a name that only one slot of the root directory
    carries, no slot carries it. *)
Lemma unlink_lookup m path now ino m' :
  path_lookup P m path = Found ino ->
  is_root_path path = false ->
  strlen (tl path) <= VSFS_NAME_MAX P ->
  let a := fs_itable P ino in
  let bc := i_blocks m a in
  let root_dir := i_direct m (fs_itable P 0) 0 in
  0 < ino < sb_num_inodes m ->
  sb_num_inodes m <= 8 * VSFS_BLOCK_SIZE ->
  VSFS_ITBL_BLKNUM * VSFS_BLOCK_SIZE + sb_num_inodes m * INODE_SIZE P
    <= root_dir * VSFS_BLOCK_SIZE ->
  bc <= VSFS_NUM_DIRECT P ->
  (forall k, 0 <= k < bc -> i_direct m a k < 8 * VSFS_BLOCK_SIZE) ->
  (u32 (i_nlink m a - 1) = 0 ->
   bitmap_isset m fs_ibmap (sb_num_inodes m) ino = true) ->
  (forall k, 0 <= k < bc ->
     i_direct m a k < sb_num_blocks m /\
     bitmap_isset m fs_dbmap (sb_num_blocks m) (i_direct m a k) = true) ->
  (forall j k, 0 <= j < bc -> 0 <= k < bc ->
     i_direct m a j = i_direct m a k -> j = k) ->
  (forall i j, 0 <= i < NUM_DENTRIES P -> 0 <= j < NUM_DENTRIES P ->
     name_matches P m path i = true -> name_matches P m path j = true -> i = j) ->
  vsfs_unlink P m path now = Some (0, m') ->
  (forall j, 0 <= j < NUM_DENTRIES P -> name_matches P m' path j = false) /\
  path_lookup P m' path = NotFound.
Proof.
  intros Hl Hnr Hlen a bc root_dir Hino Hnum Hdir Hbc Hptr Hibit Hdset Hdapart
         Huniq Hun.
  destruct (unlink_effect P OK m path now ino Hl Hnr Hino Hnum Hdir Hbc Hptr
              Hibit Hdset Hdapart)
    as (i0 & m'' & Hscan & _ & Hr & _ & _ & _ & _ & _ & _ & Hslot & HD' & _ & F).
  fold a bc root_dir in Hr, HD', F.
  rewrite Hr in Hun. inversion Hun; subst m''. clear Hun.
  pose proof (dentry_size_bounds P OK) as HDS.
  pose proof (num_dentries_bounds P OK) as [HK1 HK2].
  pose proof (strlen_nonneg (tl path)) as Htl0.
  destruct (path_lookup_scanned m path
              (or_intror (ex_intro _ ino (conj Hl Hnr)))) as [Habs _].
  pose proof (first_slot_some _ _ _ _ Hscan) as (Hi0 & Hm0 & _).
  rewrite Z2Nat.id in Hi0 by lia.
  assert (Hall : forall j, 0 <= j < NUM_DENTRIES P ->
            name_matches P m' path j = false).
  { intros j Hj. destruct (Z.eq_dec j i0) as [->|Hne].
    - unfold name_matches. rewrite Hslot, Z.eqb_refl. reflexivity.
    - destruct (name_matches_other_slot m m' path i0 j ltac:(lia) Hj Hne Hlen HD')
        as [E _].
      + intros x Hx1 Hx2. fold root_dir in Hx1, Hx2. apply F; [exact Hx1|].
        unfold DENTRY_SIZE in *. lia.
      + rewrite E. destruct (name_matches P m path j) eqn:Ej; [|reflexivity].
        exfalso. apply Hne. apply (Huniq j i0); try assumption; lia. }
  split; [exact Hall|].
  unfold path_lookup. rewrite Habs, byte_eqb_refl, Hnr. cbn [negb].
  rewrite first_slot_all_false; [reflexivity|].
  intros j Hj. rewrite Z2Nat.id in Hj by lia. apply Hall. lia.
Qed.

End Directory_round_trips.


Section Compositions.

Variable P : params.
Hypothesis OK : params_ok P.


(** X14.  After a successful [vsfs_create] of a path with a single component
    that did not resolve before, the path resolves to the new inode and
    [vsfs_getattr] reports the mode given, link count 1, size 0, no block
    and the clock reading of the creation. *)
Theorem create_then_getattr m path mode now_i now_p ino m1 i st :
  S_ISREG mode = true -> 0 <= mode < 2 ^ 32 ->
  - 2 ^ 63 <= fst now_i < 2 ^ 63 -> - 2 ^ 63 <= snd now_i < 2 ^ 63 ->
  sb_free_inodes m <> 0 ->
  sb_num_inodes m <= 8 * VSFS_BLOCK_SIZE ->
  sb_num_inodes m <= VSFS_INO_MAX P ->
  bitmap_isset m fs_ibmap (sb_num_inodes m) 0 = true ->
  VSFS_ITBL_BLKNUM * VSFS_BLOCK_SIZE + sb_num_inodes m * INODE_SIZE P
    <= i_direct m (fs_itable P 0) 0 * VSFS_BLOCK_SIZE ->
  bitmap_alloc m fs_ibmap (sb_num_inodes m) = Some (ino, m1) ->
  first_slot (fun j => dentry_ino P m j =? VSFS_INO_MAX P)
    (Z.to_nat (NUM_DENTRIES P)) 0 = Some i ->
  path_lookup P m path = NotFound ->
  leaf_name path = Some (cstr (tl path)) ->
  strlen path < VSFS_PATH_MAX P -> strlen path < VSFS_NAME_MAX P + 1 ->
  exists m',
    vsfs_create P m path mode now_i now_p = Some (0, m') /\
    path_lookup P m' path = Found ino /\
    vsfs_getattr P m' path st
    = (0, {| st_mode := mode; st_nlink := 1; st_size := 0; st_blocks := 0;
             st_mtim := now_i |}).
Proof.
  intros Hreg Hmode Ht1 Ht2 Hfree Hnum Hmax Hroot Hdir Halloc Hslot Hnf Hleaf
    Hp1 Hp2.
  destruct (create_effect P OK m path mode now_i now_p ino m1 i _
              Hreg Hfree Hnum Hroot Hdir Halloc Hslot Hleaf)
    as (m' & Hr & _ & _ & Hmo & Hnl & Hsz & _ & Hm1 & Hm2 & _).
  destruct (path_lookup_scanned P m path (or_introl Hnf)) as [Habs _].
  pose proof (strlen_tl path Habs) as Htl.
  destruct (create_lookup P OK m path mode now_i now_p ino m1 i m'
              Hreg Hfree Hnum Hmax Hroot Hdir Halloc Hslot Hnf Hleaf
              ltac:(lia) Hr) as (_ & _ & _ & _ & Hl').
  exists m'. split; [exact Hr|]. split; [exact Hl'|].
  unfold vsfs_getattr.
  destruct (Z.leb_spec (VSFS_PATH_MAX P) (strlen path)); [lia|].
  destruct (Z.leb_spec (VSFS_NAME_MAX P + 1) (strlen path)); [lia|].
  cbn [orb]. rewrite Hl'.
  unfold i_mode, i_nlink, i_size, i_mtime.
  rewrite Hmo, Hnl, Hsz, Hm1, Hm2. rewrite !s64_u64 by lia.
  rewrite (u32_small mode) by lia.
  destruct now_i; reflexivity.
Qed.

(** X15.  [vsfs_unlink] of an existing file other than the root returns 0,
    and afterwards the path no longer resolves and [vsfs_getattr] returns
    -ENOENT, when: the path is shorter than PATH_MAX and than NAME_MAX + 1;
    only one slot of the root directory carries the name; the inode number
    is below num_inodes, the inode bitmap fits one block and the inode table
    lies below the root directory block; the file has at most NUM_DIRECT
    blocks, with pointers inside the one-block data bitmap; the calls of
    [bitmap_free] meet its precondition, that is, the bit of the inode is
    set in the inode bitmap if the link count reaches 0, and the direct
    pointers below the block count are pairwise distinct, below num_blocks,
    and marked allocated in the data bitmap. *)
Theorem unlink_then_getattr m path now ino st :
  path_lookup P m path = Found ino ->
  is_root_path path = false ->
  strlen path < VSFS_PATH_MAX P -> strlen path < VSFS_NAME_MAX P + 1 ->
  let a := fs_itable P ino in
  let bc := i_blocks m a in
  let root_dir := i_direct m (fs_itable P 0) 0 in
  0 < ino < sb_num_inodes m ->
  sb_num_inodes m <= 8 * VSFS_BLOCK_SIZE ->
  VSFS_ITBL_BLKNUM * VSFS_BLOCK_SIZE + sb_num_inodes m * INODE_SIZE P
    <= root_dir * VSFS_BLOCK_SIZE ->
  bc <= VSFS_NUM_DIRECT P ->
  (forall k, 0 <= k < bc -> i_direct m a k < 8 * VSFS_BLOCK_SIZE) ->
  (u32 (i_nlink m a - 1) = 0 ->
   bitmap_isset m fs_ibmap (sb_num_inodes m) ino = true) ->
  (forall k, 0 <= k < bc ->
     i_direct m a k < sb_num_blocks m /\
     bitmap_isset m fs_dbmap (sb_num_blocks m) (i_direct m a k) = true) ->
  (forall j k, 0 <= j < bc -> 0 <= k < bc ->
     i_direct m a j = i_direct m a k -> j = k) ->
  (forall i j, 0 <= i < NUM_DENTRIES P -> 0 <= j < NUM_DENTRIES P ->
     name_matches P m path i = true -> name_matches P m path j = true -> i = j) ->
  exists m',
    vsfs_unlink P m path now = Some (0, m') /\
    path_lookup P m' path = NotFound /\
    vsfs_getattr P m' path st = (- ENOENT, stat_zero).
Proof.
  intros Hl Hnr Hp1 Hp2 a bc root_dir Hino Hnum Hdir Hbc Hptr Hibit Hdset
         Hdapart Huniq.
  destruct (unlink_effect P OK m path now ino Hl Hnr Hino Hnum Hdir Hbc Hptr
              Hibit Hdset Hdapart)
    as (i0 & m' & _ & _ & Hr & _).
  destruct (path_lookup_scanned P m path
              (or_intror (ex_intro _ ino (conj Hl Hnr)))) as [Habs _].
  pose proof (strlen_tl path Habs) as Htl.
  destruct (unlink_lookup P OK m path now ino m' Hl Hnr ltac:(lia)
              Hino Hnum Hdir Hbc Hptr Hibit Hdset Hdapart Huniq Hr) as [_ Hl'].
  exists m'. split; [exact Hr|]. split; [exact Hl'|].
  unfold vsfs_getattr.
  destruct (Z.leb_spec (VSFS_PATH_MAX P) (strlen path)); [lia|].
  destruct (Z.leb_spec (VSFS_NAME_MAX P + 1) (strlen path)); [lia|].
  cbn [orb]. now rewrite Hl'.
Qed.


End Compositions.


Lemma create_then_getattr_witness :
  exists m',
    vsfs_create std img_formatted path_a REG t0 t0 = Some (0, m') /\
    vsfs_getattr std m' path_a stat_zero
    = (0, {| st_mode := REG; st_nlink := 1; st_size := 0; st_blocks := 0;
             st_mtim := t0 |}).
Proof.
  assert (Halloc :
    bitmap_alloc img_formatted fs_ibmap (sb_num_inodes img_formatted)
    = Some (1, bitmap_set img_formatted fs_ibmap
                 (sb_num_inodes img_formatted) 1 true)).
  { apply bitmap_alloc_found. vm_compute. reflexivity. }
  destruct (create_then_getattr std std_ok img_formatted path_a REG t0 t0
              1 _ 2 stat_zero
              ltac:(reflexivity)
              ltac:(vm_compute; split; [discriminate|reflexivity])
              ltac:(vm_compute; split; [discriminate|reflexivity])
              ltac:(vm_compute; split; [discriminate|reflexivity])
              ltac:(vm_compute; discriminate)
              ltac:(vm_compute; discriminate)
              ltac:(vm_compute; discriminate)
              ltac:(vm_compute; reflexivity)
              ltac:(vm_compute; discriminate)
              Halloc
              ltac:(vm_compute; reflexivity)
              ltac:(vm_compute; reflexivity)
              ltac:(vm_compute; reflexivity)
              ltac:(vm_compute; reflexivity)
              ltac:(vm_compute; reflexivity))
    as (m' & Hr & _ & Hg).
  exists m'. split; assumption.
Defined.

Lemma unlink_then_getattr_witness :
  path_lookup std img_a1 path_a = Found 1 /\
  i_blocks img_a1 (fs_itable std 1) = 1 /\
  exists m',
    vsfs_unlink std img_a1 path_a t0 = Some (0, m') /\
    vsfs_getattr std m' path_a stat_zero = (- ENOENT, stat_zero).
Proof.
  assert (Hl : path_lookup std img_a1 path_a = Found 1)
    by (vm_compute; reflexivity).
  assert (Hb : i_blocks img_a1 (fs_itable std 1) = 1)
    by (vm_compute; reflexivity).
  assert (Hu : forall i j, 0 <= i < NUM_DENTRIES std -> 0 <= j < NUM_DENTRIES std ->
             name_matches std img_a1 path_a i = true ->
             name_matches std img_a1 path_a j = true -> i = j).
  { assert (Hall : forallb
                     (fun i => Bool.eqb (name_matches std img_a1 path_a i) (i =? 2))
                     (indices 16) = true) by (vm_compute; reflexivity).
    assert (Hone : forall i, 0 <= i < NUM_DENTRIES std ->
              name_matches std img_a1 path_a i = true -> i = 2).
    { intros i Hi Hm. change (NUM_DENTRIES std) with 16 in Hi.
      pose proof (forallb_indices _ 16 Hall i Hi) as H. cbv beta in H.
      rewrite Hm in H. apply Bool.eqb_prop in H. symmetry in H.
      now apply Z.eqb_eq in H. }
    intros i j Hi Hj H1 H2. rewrite (Hone i Hi H1), (Hone j Hj H2). reflexivity. }
  split; [exact Hl|]. split; [exact Hb|].
  pose proof (unlink_then_getattr std std_ok img_a1 path_a t0 1 stat_zero Hl
                ltac:(reflexivity)
                ltac:(vm_compute; reflexivity)
                ltac:(vm_compute; reflexivity)) as H.
  cbv zeta in H.
  destruct H as (m' & Hr & _ & Hg).
  - vm_compute. split; reflexivity.
  - vm_compute. discriminate.
  - vm_compute. discriminate.
  - rewrite Hb. vm_compute. discriminate.
  - intros k Hk. rewrite Hb in Hk. assert (k = 0) by lia. subst k.
    vm_compute. reflexivity.
  - intros _. vm_compute. reflexivity.
  - intros k Hk. rewrite Hb in Hk. assert (k = 0) by lia. subst k.
    split; [vm_compute; reflexivity | vm_compute; reflexivity].
  - intros j k Hj Hk _. rewrite Hb in Hj, Hk. lia.
  - exact Hu.
  - exists m'. split; assumption.
Defined.



(** ** Writing and reading back *)


Section Truncate_frames.

Variable P : params.
Hypothesis OK : params_ok P.


(** With a block count that fits the one-block data bitmap, the allocation
    loop of [vsfs_truncate] writes nothing above the bitmap block. *)
Lemma truncate_alloc_above n : forall m ok m',
  truncate_alloc n m = (ok, m') ->
  sb_num_blocks m <= 8 * VSFS_BLOCK_SIZE ->
  forall x, fs_dbmap + VSFS_BLOCK_SIZE <= x -> m' x = m x.
Proof.
  induction n as [|n IH]; intros m ok m' H Hnb x Hx.
  - cbn [truncate_alloc] in H. apply pair_equal_spec in H. now destruct H as [_ <-].
  - cbn [truncate_alloc] in H.
    destruct (bitmap_alloc m fs_dbmap (sb_num_blocks m)) as [[blk m1]|] eqn:E.
    + apply bitmap_alloc_some in E. destruct E as (Hb & _ & _ & ->).
      assert (Hnb2 : forall mm, (forall y, fs_sb + SB_NUM_BLOCKS <= y
                                   < fs_sb + SB_NUM_BLOCKS + 4 -> mm y = m y) ->
                sb_num_blocks mm = sb_num_blocks m).
      { intros mm Hmm. unfold sb_num_blocks. apply load_u32_frame. exact Hmm. }
      rewrite (IH _ _ _ H).
      * to_le. peel_with ltac:(layout; zlia). reflexivity.
      * rewrite Hnb2; [exact Hnb|]. intros y Hy. to_le.
        peel_with ltac:(layout; zlia). reflexivity.
      * exact Hx.
    + apply pair_equal_spec in H. now destruct H as [_ <-].
Qed.

(** Likewise the freeing loop, when the direct pointers it reads are bit
    indices of the one-block bitmap and the inode lies above that block. *)
Lemma truncate_free_above n : forall i ino m m',
  truncate_free P n i ino m = Some m' ->
  fs_dbmap + VSFS_BLOCK_SIZE <= ino ->
  0 <= i -> i + Z.of_nat n <= VSFS_NUM_DIRECT P ->
  (forall k, 0 <= k < VSFS_NUM_DIRECT P -> i_direct m ino k < 8 * VSFS_BLOCK_SIZE) ->
  forall x, fs_dbmap + VSFS_BLOCK_SIZE <= x -> m' x = m x.
Proof.
  induction n as [|n IH]; intros i ino m m' H Hino Hi Hn Hptr x Hx;
    cbn [truncate_free] in H; [now inversion H|].
  pose proof (Hptr (VSFS_NUM_DIRECT P - 1 - i) ltac:(lia)) as Hp.
  pose proof (load_u32_range m (ino + I_DIRECT + 4 * (VSFS_NUM_DIRECT P - 1 - i)))
    as Hd. fold (i_direct m ino (VSFS_NUM_DIRECT P - 1 - i)) in Hd.
  unfold bitmap_free in H.
  destruct (_ && _); [|discriminate].
  set (mb := bitmap_set m fs_dbmap (sb_num_blocks m)
               (i_direct m ino (VSFS_NUM_DIRECT P - 1 - i)) false) in *.
  assert (Hstep : forall y, fs_dbmap + VSFS_BLOCK_SIZE <= y ->
            store_u32 mb (fs_sb + SB_FREE_BLOCKS) (sb_free_blocks mb + 1) y = m y).
  { intros y Hy. unfold mb. to_le. peel_with ltac:(layout; zlia).
    reflexivity. }
  rewrite (IH _ _ _ _ H); try assumption; try lia.
  - apply Hstep. exact Hx.
  - intros k Hk. unfold i_direct.
    rewrite (load_u32_frame m); [apply Hptr; exact Hk|].
    intros y Hy. apply Hstep. layout. lia.
Qed.

(** A successful [vsfs_truncate] records the new size; above the data bitmap
    it writes the zero range and the size, block count and time of the
    inode, and nothing else. *)
Lemma truncate_frame m path size now ino m' :
  vsfs_truncate P m path size now = Some (0, m') ->
  path_lookup P m path = Found ino ->
  let a := fs_itable P ino in
  let zf := get_address P m a (i_size m a) in
  let zl := if i_size m a <? u64 size then u64 (size - i_size m a) else 0 in
  sb_num_blocks m <= 8 * VSFS_BLOCK_SIZE ->
  (forall k, 0 <= k < VSFS_NUM_DIRECT P -> i_direct m a k < 8 * VSFS_BLOCK_SIZE) ->
  (zl <= 0 \/ zf + zl <= fs_sb + SB_NUM_BLOCKS
   \/ fs_sb + SB_NUM_BLOCKS + 4 <= zf) ->
  (zl <= 0 \/ zf + zl <= a \/ a + INODE_SIZE P <= zf) ->
  i_size m' a = u64 size /\
  forall x, fs_dbmap + VSFS_BLOCK_SIZE <= x ->
            x < zf \/ zf + zl <= x ->
            x < a + I_SIZE \/ a + I_DIRECT <= x ->
            m' x = m x.
Proof.
  intros H Hl a zf zl Hnb Hptr Hz1 Hz2.
  pose proof (path_lookup_found_range P m path ino Hl) as Hino.
  pose proof (inode_size_bounds P OK) as HS.
  pose proof (inode_holds_fields P OK) as Hfields. unfold I_INDIRECT in Hfields.
  pose proof (num_direct_min P OK) as Hnd.
  assert (Ha : fs_dbmap + VSFS_BLOCK_SIZE <= a) by (unfold a; layout; nia).
  unfold vsfs_truncate in H.
  destruct (_ <? div_round_up size VSFS_BLOCK_SIZE); [discriminate|].
  rewrite Hl in H. cbn [lookup_ino] in H. fold a in H.
  destruct (Z.eqb_spec (u64 size) (i_size m a)) as [E|E].
  { inversion H; subst m'. split; [now symmetry|reflexivity]. }
  set (mz := if i_size m a <? u64 size
             then memset m (get_address P m a (i_size m a)) x00
                    (u64 (size - i_size m a))
             else m) in *.
  assert (Fz : forall x, x < zf \/ zf + zl <= x -> mz x = m x).
  { intros x Hx. unfold mz, zl, zf in *.
    destruct (i_size m a <? u64 size); [|reflexivity].
    apply memset_other. exact Hx. }
  assert (Hnbz : sb_num_blocks mz = sb_num_blocks m).
  { unfold sb_num_blocks. apply load_u32_frame. intros x Hx. apply Fz. lia. }
  assert (Hptrz : forall k, 0 <= k < VSFS_NUM_DIRECT P ->
             i_direct mz a k < 8 * VSFS_BLOCK_SIZE).
  { intros k Hk. unfold i_direct. rewrite (load_u32_frame m).
    - now apply Hptr.
    - intros x Hx. apply Fz. layout. lia. }
  clearbody mz.
  destruct (truncate_blocks P a (div_round_up size VSFS_BLOCK_SIZE) mz)
    as [[ok ml]|] eqn:El; [|discriminate].
  destruct ok; [|discriminate].
  inversion H; subst m'. clear H.
  assert (Fl : forall x, fs_dbmap + VSFS_BLOCK_SIZE <= x -> ml x = mz x).
  { unfold truncate_blocks in El.
    destruct (i_blocks mz a <? div_round_up size VSFS_BLOCK_SIZE).
    - intros x Hx. eapply truncate_alloc_above; [|rewrite Hnbz; exact Hnb|exact Hx].
      inversion El as [El']. exact El'.
    - destruct (truncate_free P _ 0 a mz) as [mf|] eqn:Ef; [|discriminate].
      inversion El; subst mf.
      intros x Hx. eapply truncate_free_above; [exact Ef| | | | |exact Hx];
        try assumption; try lia.
      pose proof (load_u32_range mz (a + I_BLOCKS)).
      destruct (VSFS_NUM_DIRECT P <?
                i_blocks mz a - div_round_up size VSFS_BLOCK_SIZE) eqn:Ec.
      + lia.
      + apply Z.ltb_ge in Ec. lia. }
  split.
  - unfold i_size. to_le. unfold set_mtime. to_le.
    peel_with ltac:(layout; zlia). apply load8_store8.
  - intros x Hx1 Hx2 Hx3. unfold set_mtime. to_le.
    peel_with ltac:(layout; zlia). rewrite Fl by exact Hx1. now apply Fz.
Qed.

Lemma truncate_codes m path size now res m' :
  vsfs_truncate P m path size now = Some (res, m') ->
  res = 0 \/ res = - EFBIG \/ res = - ENOSPC.
Proof.
  unfold vsfs_truncate. intros H.
  destruct (_ <? div_round_up size VSFS_BLOCK_SIZE);
    [inversion H; tauto|].
  destruct (lookup_ino P (path_lookup P m path)) as [ino|]; [|discriminate].
  destruct (u64 size =? _); [inversion H; tauto|].
  destruct (truncate_blocks P _ _ _) as [[ok ml]|]; [|discriminate].
  destruct ok; inversion H; tauto.
Qed.

End Truncate_frames.


Section Write_effect.

Variable P : params.
Hypothesis OK : params_ok P.


(** A write that does not fail: what the image holds afterwards, when the
    ranges it zeroes and writes stay clear of the inode of the file, of the
    first direct pointer of the root inode and of the root directory. *)
Lemma write_effect m path buf size offset now_t now ino r m' :
  path_lookup P m path = Found ino ->
  let a := fs_itable P ino in
  let root_ptr := fs_itable P 0 + I_DIRECT in
  let dir := i_direct m (fs_itable P 0) 0 * VSFS_BLOCK_SIZE in
  let addr := get_address P m a offset in
  let zf := get_address P m a (i_size m a) in
  let zl := offset + size - i_size m a in
  let apart lo len p q := len <= 0 \/ lo + len <= p \/ q <= lo in
  0 <= offset < 2 ^ 32 -> offset / VSFS_BLOCK_SIZE < VSFS_NUM_DIRECT P ->
  0 <= size < 2 ^ 31 ->
  i_size m a < 2 ^ 63 ->
  sb_num_blocks m <= 8 * VSFS_BLOCK_SIZE ->
  (forall k, 0 <= k < VSFS_NUM_DIRECT P -> i_direct m a k < 8 * VSFS_BLOCK_SIZE) ->
  a + I_DIRECT <= dir ->
  apart zf zl (fs_sb + SB_NUM_BLOCKS) (fs_sb + SB_NUM_BLOCKS + 4) ->
  apart zf zl a (a + INODE_SIZE P) ->
  apart zf zl root_ptr (root_ptr + 4) ->
  (zl <= 0 \/ zf + zl <= dir) ->
  apart addr size a (a + INODE_SIZE P) ->
  apart addr size root_ptr (root_ptr + 4) ->
  (size <= 0 \/ addr + size <= dir) ->
  vsfs_write P m path buf size offset now_t now = Some (r, m') ->
  0 <= r ->
  r = size /\
  path_lookup P m' path = Found ino /\
  i_size m' a
  = (if i_size m a <? offset + size then offset + size else i_size m a + size) /\
  get_address P m' a offset = addr /\
  (forall x, a <= x < a + I_SIZE -> m' x = m x) /\
  load_u64 m' (a + I_MTIME) = u64 (fst now) /\
  load_u64 m' (a + I_MTIME + 8) = u64 (snd now) /\
  (forall k, 0 <= k < size -> m' (addr + k) = nth (Z.to_nat k) buf x00).
Proof.
  intros Hl a root_ptr dir addr zf zl apart Hoff Hdirect Hsize Hisz Hnb Hptr
    Hadir Hz1 Hz2 Hz3 Hz4 Hw1 Hw2 Hw3 Hw Hr.
  unfold apart in *. clear apart.
  pose proof (path_lookup_found_range P m path ino Hl) as Hino.
  pose proof (inode_size_bounds P OK) as HS.
  pose proof (inode_holds_fields P OK) as Hfields. unfold I_INDIRECT in Hfields.
  pose proof (num_direct_min P OK) as Hnd.
  pose proof (load_u64_range m (a + I_SIZE)) as Hsz. fold (i_size m a) in Hsz.
  assert (Ha : fs_dbmap + VSFS_BLOCK_SIZE <= a)
    by (clear - Hino HS; unfold a; layout; nia).
  assert (Ha' : ino = 0 \/ fs_itable P 0 + INODE_SIZE P <= a)
    by (clear - Hino HS; unfold a, fs_itable; nia).
  assert (Hk : 0 <= offset / VSFS_BLOCK_SIZE)
    by (apply Z.div_pos; unfold VSFS_BLOCK_SIZE; lia).
  (* what the two ranges stay clear of *)
  assert (Zi : forall x, a <= x < a + INODE_SIZE P -> x < zf \/ zf + zl <= x)
    by (clear - Hz2; intros; lia).
  assert (Zr : forall x, root_ptr <= x < root_ptr + 4 -> x < zf \/ zf + zl <= x)
    by (clear - Hz3; intros; lia).
  assert (Zd : forall x, dir <= x -> x < zf \/ zf + zl <= x)
    by (clear - Hz4; intros; lia).
  assert (Wi : forall x, a <= x < a + INODE_SIZE P -> x < addr \/ addr + size <= x)
    by (clear - Hw1; intros; lia).
  assert (Wr : forall x, root_ptr <= x < root_ptr + 4 ->
                 x < addr \/ addr + size <= x)
    by (clear - Hw2; intros; lia).
  assert (Wd : forall x, dir <= x -> x < addr \/ addr + size <= x)
    by (clear - Hw3; intros; lia).
  assert (Ze1 : 0 < zl -> zf + zl <= fs_sb + SB_NUM_BLOCKS
                          \/ fs_sb + SB_NUM_BLOCKS + 4 <= zf)
    by (clear - Hz1; intros; lia).
  assert (Ze2 : 0 < zl -> zf + zl <= a \/ a + INODE_SIZE P <= zf)
    by (clear - Hz2; intros; lia).
  clear Hz1 Hz2 Hz3 Hz4 Hw1 Hw2 Hw3.
  assert (Hrootp : forall x, root_ptr <= x < root_ptr + 4 ->
             fs_dbmap + VSFS_BLOCK_SIZE <= x /\
             (x < a + I_SIZE \/ a + I_DIRECT <= x) /\
             (x < a + I_MTIME \/ a + I_MTIME + 16 <= x)).
  { clear - Ha' HS Hfields Hnd. intros x Hx. unfold root_ptr, a in *.
    destruct Ha' as [->|Ha']; layout; lia. }
  unfold vsfs_write in Hw. rewrite Hl in Hw. cbn [lookup_ino] in Hw. fold a in Hw.
  rewrite (u64_small offset) in Hw by lia.
  rewrite (u64_small (offset + size)) in Hw by lia.
  destruct (Z.ltb_spec (i_size m a) offset) as [Hbig|Hfit].
  { inversion Hw; subst r. unfold EFBIG in Hr. lia. }
  (* the image before the copy *)
  assert (Hmt : exists mt,
            m' = set_mtime (memcpy_in mt (get_address P mt a offset) buf size) a now /\
            r = s32 size /\
            i_size mt a
            = (if i_size m a <? offset + size then offset + size
               else i_size m a + size) /\
            forall x, fs_dbmap + VSFS_BLOCK_SIZE <= x ->
                      x < zf \/ zf + zl <= x ->
                      x < a + I_SIZE \/ a + I_DIRECT <= x ->
                      mt x = m x).
  { destruct (Z.ltb_spec (i_size m a) (offset + size)) as [Hext|Hin].
    - destruct (vsfs_truncate P m path (s64 (offset + size)) now_t)
        as [[res mt]|] eqn:Et; [|discriminate].
      destruct (Z.ltb_spec res 0) as [Hneg|Hpos].
      { inversion Hw; subst r. lia. }
      destruct (truncate_codes P _ _ _ _ _ _ Et) as [->|[->| ->]];
        [|unfold EFBIG in Hpos; lia|unfold ENOSPC in Hpos; lia].
      inversion Hw; subst r m'. clear Hw.
      rewrite s64_small in Et by lia.
      pose proof (truncate_frame P OK m path (offset + size) now_t ino mt Et Hl)
        as Hf. cbv zeta in Hf. fold a zf in Hf.
      rewrite (u64_small (offset + size)) in Hf by lia.
      destruct (Z.ltb_spec (i_size m a) (offset + size)); [|lia].
      rewrite (u64_small (offset + size - i_size m a)) in Hf by lia.
      fold zl in Hf.
      assert (Hzl : 0 < zl) by (unfold zl; lia).
      destruct (Hf Hnb Hptr (or_intror (Ze1 Hzl)) (or_intror (Ze2 Hzl)))
        as [Hs F].
      exists mt. split; [reflexivity|]. split; [reflexivity|].
      split; [exact Hs|]. exact F.
    - inversion Hw; subst r m'. clear Hw.
      eexists. split; [reflexivity|]. split; [reflexivity|]. split.
      + destruct (Z.ltb_spec (i_size m a) (offset + size)); [lia|].
        unfold i_size at 1. to_le. peel_with ltac:(layout; zlia).
        rewrite load8_store8. apply u64_small. lia.
      + intros x Hx1 Hx2 Hx3. to_le. peel_with ltac:(layout; zlia).
        reflexivity. }
  destruct Hmt as (mt & -> & -> & Hs & F).
  rewrite s32_small by lia. split; [reflexivity|].
  assert (Hinode : forall x, a + I_DIRECT <= x < a + INODE_SIZE P -> mt x = m x).
  { intros x Hx. apply F; [layout; lia|apply Zi; layout; lia|lia]. }
  assert (Haddr : get_address P mt a offset = addr).
  { unfold addr, get_address. rewrite (u32_small offset) by lia.
    destruct (Z.leb_spec (VSFS_NUM_DIRECT P) (offset / VSFS_BLOCK_SIZE)); [lia|].
    f_equal. f_equal. unfold i_direct. apply load_u32_frame. intros x Hx.
    apply Hinode. layout. lia. }
  rewrite Haddr.
  set (mf := set_mtime (memcpy_in mt addr buf size) a now).
  assert (Ff : forall x, fs_dbmap + VSFS_BLOCK_SIZE <= x ->
                 x < zf \/ zf + zl <= x ->
                 x < addr \/ addr + size <= x ->
                 x < a + I_SIZE \/ a + I_DIRECT <= x ->
                 mf x = m x).
  { intros x Hx1 Hx2 Hx3 Hx4. unfold mf.
    rewrite set_mtime_other by (layout; lia).
    rewrite memcpy_in_other by lia. now apply F. }
  assert (Hl' : path_lookup P mf path = Found ino).
  { rewrite <- Hl. apply path_lookup_frame; [exact OK| |].
    - intros x Hx. fold root_ptr in Hx. destruct (Hrootp x Hx) as (H1 & H2 & H3).
      apply Ff; [exact H1|now apply Zr|now apply Wr|exact H2].
    - intros x Hx. fold dir in Hx.
      apply Ff; [layout; lia|now apply Zd|now apply Wd|lia]. }
  assert (Hfld : forall x, a <= x < a + INODE_SIZE P ->
             x < a + I_MTIME \/ a + I_MTIME + 16 <= x -> mf x = mt x).
  { intros x Hx1 Hx2. unfold mf. rewrite set_mtime_other by exact Hx2.
    apply memcpy_in_other. now apply Wi. }
  assert (Hsf : i_size mf a = i_size mt a).
  { unfold i_size. apply load_u64_frame. intros x Hx. apply Hfld; layout; lia. }
  assert (Haf : get_address P mf a offset = addr).
  { rewrite <- Haddr. unfold get_address. rewrite (u32_small offset) by lia.
    destruct (Z.leb_spec (VSFS_NUM_DIRECT P) (offset / VSFS_BLOCK_SIZE)); [lia|].
    f_equal. f_equal. unfold i_direct. apply load_u32_frame. intros x Hx.
    apply Hfld; layout; lia. }
  split; [exact Hl'|]. split; [now rewrite Hsf|]. split; [exact Haf|].
  split.
  { intros x Hx. apply Ff; [layout; lia|apply Zi; layout; lia
                           |apply Wi; layout; lia|lia]. }
  split; [|split].
  - unfold mf, set_mtime. to_le. peel_with ltac:(layout; zlia).
    apply load8_store8.
  - unfold mf, set_mtime. to_le. peel_with ltac:(layout; zlia).
    apply load8_store8.
  - intros k Hk'. unfold mf.
    assert (Hin : addr <= addr + k < addr + size) by lia.
    rewrite set_mtime_other.
    + rewrite memcpy_in_in by exact Hin. f_equal. lia.
    + destruct (Z_lt_ge_dec (addr + k) (a + I_MTIME)) as [Hc|Hc];
        [left; exact Hc|right].
      destruct (Z_lt_ge_dec (addr + k) (a + I_MTIME + 16)) as [Hc'|Hc'];
        [|lia].
      exfalso. destruct (Wi (addr + k)); [layout; lia|lia|lia].
Qed.

End Write_effect.


Section Data.

Variable P : params.
Hypothesis OK : params_ok P.


(** X17.  A write that succeeds at an offset within the direct blocks,
    followed by a read of the same range, returns the bytes written,
    provided that neither the range zeroed by the extension nor the range
    written lies over the inode of the file, over the first direct pointer
    of the root inode or in or above the root directory block, that the
    zeroed range does not lie over num_blocks, and that num_blocks and the
    direct pointers of the file are bit indices of the one-block data
    bitmap. *)
Theorem write_then_read m path buf size offset now_t now ino r m' :
  path_lookup P m path = Found ino ->
  let a := fs_itable P ino in
  let root_ptr := fs_itable P 0 + I_DIRECT in
  let dir := i_direct m (fs_itable P 0) 0 * VSFS_BLOCK_SIZE in
  let addr := get_address P m a offset in
  let zf := get_address P m a (i_size m a) in
  let zl := offset + size - i_size m a in
  let apart lo len p q := len <= 0 \/ lo + len <= p \/ q <= lo in
  0 <= offset < 2 ^ 32 -> offset / VSFS_BLOCK_SIZE < VSFS_NUM_DIRECT P ->
  0 <= size < 2 ^ 31 -> length buf = Z.to_nat size ->
  i_size m a < 2 ^ 63 ->
  sb_num_blocks m <= 8 * VSFS_BLOCK_SIZE ->
  (forall k, 0 <= k < VSFS_NUM_DIRECT P -> i_direct m a k < 8 * VSFS_BLOCK_SIZE) ->
  a + I_DIRECT <= dir ->
  apart zf zl (fs_sb + SB_NUM_BLOCKS) (fs_sb + SB_NUM_BLOCKS + 4) ->
  apart zf zl a (a + INODE_SIZE P) ->
  apart zf zl root_ptr (root_ptr + 4) ->
  (zl <= 0 \/ zf + zl <= dir) ->
  apart addr size a (a + INODE_SIZE P) ->
  apart addr size root_ptr (root_ptr + 4) ->
  (size <= 0 \/ addr + size <= dir) ->
  vsfs_write P m path buf size offset now_t now = Some (r, m') ->
  0 <= r ->
  r = size /\ vsfs_read P m' path size offset = Some (size, buf).
Proof.
  intros Hl a root_ptr dir addr zf zl apart Hoff Hdirect Hsize Hlen Hisz Hnb Hptr
    Hadir Hz1 Hz2 Hz3 Hz4 Hw1 Hw2 Hw3 Hw Hr.
  destruct (write_effect P OK m path buf size offset now_t now ino r m' Hl
              Hoff Hdirect Hsize Hisz Hnb Hptr Hadir Hz1 Hz2 Hz3 Hz4
              Hw1 Hw2 Hw3 Hw Hr)
    as (Hrs & Hl' & Hs & Ha & _ & _ & _ & Hbytes).
  fold a addr in Hs, Ha, Hbytes.
  pose proof (load_u64_range m (a + I_SIZE)) as Hsz. fold (i_size m a) in Hsz.
  split; [exact Hrs|].
  unfold vsfs_read. rewrite Hl'. cbn [lookup_ino]. fold a. rewrite Hs, Ha.
  rewrite (u64_small offset) by lia. rewrite (u64_small (offset + size)) by lia.
  assert (Hge : offset + size
                <= (if i_size m a <? offset + size then offset + size
                    else i_size m a + size)).
  { destruct (Z.ltb_spec (i_size m a) (offset + size)); lia. }
  destruct (Z.ltb_spec (if i_size m a <? offset + size then offset + size
                        else i_size m a + size) offset); [lia|].
  destruct (Z.ltb_spec (if i_size m a <? offset + size then offset + size
                        else i_size m a + size) (offset + size)); [lia|].
  rewrite s32_small by lia. f_equal. f_equal.
  unfold memcpy_out. rewrite <- Hlen.
  rewrite <- (map_nth_seq buf) at 2. apply map_ext_in. intros i Hi.
  apply in_seq in Hi. rewrite Hbytes by lia. f_equal. lia.
Qed.


(** X24.  After a write that succeeds, under the same conditions on the
    zeroed and the written range, [vsfs_getattr] of the file reports the
    size the write recorded
    (offset + size when the write reached past the end of the file, the
    old size plus size otherwise), the sector count of that size, the
    clock reading of the write as modification time, and the mode and link
    count as before. *)
Theorem write_then_getattr m path buf size offset now_t now ino r m' st :
  path_lookup P m path = Found ino ->
  strlen path < VSFS_PATH_MAX P -> strlen path < VSFS_NAME_MAX P + 1 ->
  - 2 ^ 63 <= fst now < 2 ^ 63 -> - 2 ^ 63 <= snd now < 2 ^ 63 ->
  let a := fs_itable P ino in
  let root_ptr := fs_itable P 0 + I_DIRECT in
  let dir := i_direct m (fs_itable P 0) 0 * VSFS_BLOCK_SIZE in
  let addr := get_address P m a offset in
  let zf := get_address P m a (i_size m a) in
  let zl := offset + size - i_size m a in
  let apart lo len p q := len <= 0 \/ lo + len <= p \/ q <= lo in
  let new_size :=
    if i_size m a <? offset + size then offset + size else i_size m a + size in
  0 <= offset < 2 ^ 32 -> offset / VSFS_BLOCK_SIZE < VSFS_NUM_DIRECT P ->
  0 <= size < 2 ^ 31 ->
  i_size m a + size < 2 ^ 63 ->
  sb_num_blocks m <= 8 * VSFS_BLOCK_SIZE ->
  (forall k, 0 <= k < VSFS_NUM_DIRECT P -> i_direct m a k < 8 * VSFS_BLOCK_SIZE) ->
  a + I_DIRECT <= dir ->
  apart zf zl (fs_sb + SB_NUM_BLOCKS) (fs_sb + SB_NUM_BLOCKS + 4) ->
  apart zf zl a (a + INODE_SIZE P) ->
  apart zf zl root_ptr (root_ptr + 4) ->
  (zl <= 0 \/ zf + zl <= dir) ->
  apart addr size a (a + INODE_SIZE P) ->
  apart addr size root_ptr (root_ptr + 4) ->
  (size <= 0 \/ addr + size <= dir) ->
  vsfs_write P m path buf size offset now_t now = Some (r, m') ->
  0 <= r ->
  vsfs_getattr P m' path st
  = (0, {| st_mode := i_mode m a; st_nlink := i_nlink m a;
           st_size := new_size; st_blocks := div_round_up new_size 512;
           st_mtim := now |}).
Proof.
  intros Hl Hp1 Hp2 Ht1 Ht2 a root_ptr dir addr zf zl apart new_size Hoff Hdirect
    Hsize Hisz Hnb Hptr Hadir Hz1 Hz2 Hz3 Hz4 Hw1 Hw2 Hw3 Hw Hr.
  pose proof (load_u64_range m (a + I_SIZE)) as Hsz. fold (i_size m a) in Hsz.
  assert (Hisz' : i_size m a < 2 ^ 63) by lia.
  destruct (write_effect P OK m path buf size offset now_t now ino r m' Hl
              Hoff Hdirect Hsize Hisz' Hnb Hptr Hadir Hz1 Hz2 Hz3 Hz4
              Hw1 Hw2 Hw3 Hw Hr)
    as (_ & Hl' & Hs & _ & Hlow & Hm1 & Hm2 & _).
  fold a in Hs, Hlow, Hm1, Hm2. fold new_size in Hs.
  assert (Hns : 0 <= new_size < 2 ^ 63).
  { unfold new_size. destruct (Z.ltb_spec (i_size m a) (offset + size)); lia. }
  unfold vsfs_getattr.
  destruct (Z.leb_spec (VSFS_PATH_MAX P) (strlen path)); [lia|].
  destruct (Z.leb_spec (VSFS_NAME_MAX P + 1) (strlen path)); [lia|].
  cbn [orb]. rewrite Hl'. fold a.
  unfold i_mtime. rewrite Hs, Hm1, Hm2. rewrite !s64_u64 by lia.
  rewrite s64_small by exact Hns.
  assert (Hmode : i_mode m' a = i_mode m a).
  { unfold i_mode. apply load_u32_frame. intros x Hx. apply Hlow. layout. lia. }
  assert (Hnl : i_nlink m' a = i_nlink m a).
  { unfold i_nlink. apply load_u32_frame. intros x Hx. apply Hlow. layout. lia. }
  rewrite Hmode, Hnl. destruct now; reflexivity.
Qed.

(** X25.  After [vsfs_truncate] returns 0, when the range it zero-fills on
    growing the file lies neither over num_blocks, the inode of the file
    or the first direct pointer of the root inode nor in or above the root
    directory block, the path still resolves to the same inode and
    [vsfs_getattr] reports the new size, its sector count, and the mode
    and link count as before. *)
Theorem truncate_then_getattr m path size now ino m' st :
  path_lookup P m path = Found ino ->
  strlen path < VSFS_PATH_MAX P -> strlen path < VSFS_NAME_MAX P + 1 ->
  0 <= size < 2 ^ 63 ->
  let a := fs_itable P ino in
  let root_ptr := fs_itable P 0 + I_DIRECT in
  let dir := i_direct m (fs_itable P 0) 0 * VSFS_BLOCK_SIZE in
  let zf := get_address P m a (i_size m a) in
  let zl := size - i_size m a in
  let apart lo len p q := len <= 0 \/ lo + len <= p \/ q <= lo in
  sb_num_blocks m <= 8 * VSFS_BLOCK_SIZE ->
  (forall k, 0 <= k < VSFS_NUM_DIRECT P -> i_direct m a k < 8 * VSFS_BLOCK_SIZE) ->
  a + I_DIRECT <= dir ->
  apart zf zl (fs_sb + SB_NUM_BLOCKS) (fs_sb + SB_NUM_BLOCKS + 4) ->
  apart zf zl a (a + INODE_SIZE P) ->
  apart zf zl root_ptr (root_ptr + 4) ->
  (zl <= 0 \/ zf + zl <= dir) ->
  vsfs_truncate P m path size now = Some (0, m') ->
  path_lookup P m' path = Found ino /\
  fst (vsfs_getattr P m' path st) = 0 /\
  st_size (snd (vsfs_getattr P m' path st)) = size /\
  st_blocks (snd (vsfs_getattr P m' path st)) = div_round_up size 512 /\
  st_mode (snd (vsfs_getattr P m' path st)) = i_mode m a /\
  st_nlink (snd (vsfs_getattr P m' path st)) = i_nlink m a.
Proof.
  intros Hl Hp1 Hp2 Hsize a root_ptr dir zf zl apart Hnb Hptr Hadir
    Hz1 Hz2 Hz3 Hz4 Ht.
  unfold apart in *. clear apart.
  pose proof (path_lookup_found_range P m path ino Hl) as Hino.
  pose proof (inode_size_bounds P OK) as HS.
  pose proof (inode_holds_fields P OK) as Hfields. unfold I_INDIRECT in Hfields.
  pose proof (num_direct_min P OK) as Hnd.
  pose proof (load_u64_range m (a + I_SIZE)) as Hsz. fold (i_size m a) in Hsz.
  assert (Ha : fs_dbmap + VSFS_BLOCK_SIZE <= a)
    by (clear - Hino HS; unfold a; layout; nia).
  assert (Ha' : ino = 0 \/ fs_itable P 0 + INODE_SIZE P <= a)
    by (clear - Hino HS; unfold a, fs_itable; nia).
  assert (Zi : forall x, a <= x < a + INODE_SIZE P -> x < zf \/ zf + zl <= x)
    by (clear - Hz2; intros; lia).
  assert (Zr : forall x, root_ptr <= x < root_ptr + 4 -> x < zf \/ zf + zl <= x)
    by (clear - Hz3; intros; lia).
  assert (Zd : forall x, dir <= x -> x < zf \/ zf + zl <= x)
    by (clear - Hz4; intros; lia).
  assert (Hrootp : forall x, root_ptr <= x < root_ptr + 4 ->
             fs_dbmap + VSFS_BLOCK_SIZE <= x /\
             (x < a + I_SIZE \/ a + I_DIRECT <= x)).
  { clear - Ha' HS Hfields Hnd. intros x Hx. unfold root_ptr, a in *.
    destruct Ha' as [->|Ha']; layout; lia. }
  (* the frame of the call *)
  assert (HF : i_size m' a = size /\
               forall x, fs_dbmap + VSFS_BLOCK_SIZE <= x ->
                         x < zf \/ zf + zl <= x ->
                         x < a + I_SIZE \/ a + I_DIRECT <= x ->
                         m' x = m x).
  { destruct (Z.eq_dec size (i_size m a)) as [Heq|Hne].
    - (* nothing to do *)
      unfold vsfs_truncate in Ht.
      destruct (_ <? div_round_up size VSFS_BLOCK_SIZE); [discriminate|].
      rewrite Hl in Ht. cbn [lookup_ino] in Ht. fold a in Ht.
      rewrite (u64_small size) in Ht by lia.
      destruct (Z.eqb_spec size (i_size m a)); [|contradiction].
      inversion Ht; subst m'. split; [now symmetry|reflexivity].
    - pose proof (truncate_frame P OK m path size now ino m' Ht Hl) as Hf.
      cbv zeta in Hf. fold a zf in Hf.
      rewrite (u64_small size) in Hf by lia.
      destruct (Z.ltb_spec (i_size m a) size) as [Hext|Hshr].
      + rewrite (u64_small (size - i_size m a)) in Hf by lia. fold zl in Hf.
        apply Hf; assumption.
      + destruct (Hf Hnb Hptr (or_introl (Z.le_refl 0)) (or_introl (Z.le_refl 0)))
          as [Hs F].
        split; [exact Hs|]. intros x Hx1 Hx2 Hx3. apply F; [exact Hx1| |exact Hx3].
        clear - Hx2. lia. }
  destruct HF as [Hs F].
  assert (Hl' : path_lookup P m' path = Found ino).
  { rewrite <- Hl. apply path_lookup_frame; [exact OK| |].
    - intros x Hx. fold root_ptr in Hx. destruct (Hrootp x Hx) as (H1 & H2).
      apply F; [exact H1|now apply Zr|exact H2].
    - intros x Hx. fold dir in Hx.
      apply F; [layout; lia|now apply Zd|lia]. }
  split; [exact Hl'|].
  unfold vsfs_getattr.
  destruct (Z.leb_spec (VSFS_PATH_MAX P) (strlen path)); [lia|].
  destruct (Z.leb_spec (VSFS_NAME_MAX P + 1) (strlen path)); [lia|].
  cbn [orb]. rewrite Hl'. fold a.
  cbn [fst snd st_size st_blocks st_mode st_nlink]. rewrite Hs.
  split; [reflexivity|]. split; [apply s64_small; lia|].
  split; [reflexivity|]. split.
  - unfold i_mode. apply load_u32_frame. intros x Hx.
    apply F; [layout; lia|apply Zi; layout; lia|layout; lia].
  - unfold i_nlink. apply load_u32_frame. intros x Hx.
    apply F; [layout; lia|apply Zi; layout; lia|layout; lia].
Qed.

End Data.


Lemma write_then_read_witness :
  vsfs_write std img_a path_a (repeat x41 24) 24 0 t0 t0 = Some (24, img_a24) /\
  vsfs_read std img_a24 path_a 24 0 = Some (24, repeat x41 24).
Proof.
  assert (Hl : path_lookup std img_a path_a = Found 1)
    by (vm_compute; reflexivity).
  assert (Hw : vsfs_write std img_a path_a (repeat x41 24) 24 0 t0 t0
               = Some (24, img_a24)).
  { unfold img_a24.
    assert (E : result_of (vsfs_write std img_a path_a (repeat x41 24) 24 0 t0 t0)
                = Some 24) by (vm_compute; reflexivity).
    destruct (vsfs_write std img_a path_a (repeat x41 24) 24 0 t0 t0)
      as [[r m']|]; simpl in E; [|discriminate].
    inversion E. reflexivity. }
  assert (Hp : forall k, 0 <= k < VSFS_NUM_DIRECT std ->
             i_direct img_a (fs_itable std 1) k < 8 * VSFS_BLOCK_SIZE).
  { assert (Hall : forallb
                     (fun k => i_direct img_a (fs_itable std 1) k
                               <? 8 * VSFS_BLOCK_SIZE)
                     (indices 5) = true) by (vm_compute; reflexivity).
    intros k Hk. change (VSFS_NUM_DIRECT std) with 5 in Hk.
    pose proof (forallb_indices _ 5 Hall k Hk) as H. cbv beta in H.
    now apply Z.ltb_lt in H. }
  split; [exact Hw|].
  pose proof (write_then_read std std_ok img_a path_a (repeat x41 24) 24 0 t0 t0
                1 24 img_a24 Hl) as H.
  cbv zeta in H.
  apply H; clear H.
  - vm_compute. split; [discriminate|reflexivity].
  - vm_compute. reflexivity.
  - vm_compute. split; [discriminate|reflexivity].
  - reflexivity.
  - vm_compute. reflexivity.
  - vm_compute. discriminate.
  - exact Hp.
  - vm_compute. discriminate.
  - right; left. vm_compute. discriminate.
  - right; left. vm_compute. discriminate.
  - right; left. vm_compute. discriminate.
  - right. vm_compute. discriminate.
  - right; left. vm_compute. discriminate.
  - right; left. vm_compute. discriminate.
  - right. vm_compute. discriminate.
  - exact Hw.
  - discriminate.
Defined.


Lemma write_then_getattr_witness :
  vsfs_write std img_a path_a (repeat x41 24) 24 0 t0 t0 = Some (24, img_a24) /\
  vsfs_getattr std img_a24 path_a stat_zero
  = (0, {| st_mode := REG; st_nlink := 1; st_size := 24; st_blocks := 1;
           st_mtim := t0 |}).
Proof.
  assert (Hl : path_lookup std img_a path_a = Found 1)
    by (vm_compute; reflexivity).
  assert (Hw : vsfs_write std img_a path_a (repeat x41 24) 24 0 t0 t0
               = Some (24, img_a24)).
  { unfold img_a24.
    assert (E : result_of (vsfs_write std img_a path_a (repeat x41 24) 24 0 t0 t0)
                = Some 24) by (vm_compute; reflexivity).
    destruct (vsfs_write std img_a path_a (repeat x41 24) 24 0 t0 t0)
      as [[r m']|]; simpl in E; [|discriminate].
    inversion E. reflexivity. }
  assert (Hp : forall k, 0 <= k < VSFS_NUM_DIRECT std ->
             i_direct img_a (fs_itable std 1) k < 8 * VSFS_BLOCK_SIZE).
  { assert (Hall : forallb
                     (fun k => i_direct img_a (fs_itable std 1) k
                               <? 8 * VSFS_BLOCK_SIZE)
                     (indices 5) = true) by (vm_compute; reflexivity).
    intros k Hk. change (VSFS_NUM_DIRECT std) with 5 in Hk.
    pose proof (forallb_indices _ 5 Hall k Hk) as H. cbv beta in H.
    now apply Z.ltb_lt in H. }
  split; [exact Hw|].
  assert (Hm : i_mode img_a (fs_itable std 1) = REG) by (vm_compute; reflexivity).
  assert (Hn : i_nlink img_a (fs_itable std 1) = 1) by (vm_compute; reflexivity).
  assert (Hs : i_size img_a (fs_itable std 1) = 0) by (vm_compute; reflexivity).
  pose proof (write_then_getattr std std_ok img_a path_a (repeat x41 24) 24 0 t0 t0
                1 24 img_a24 stat_zero Hl) as H.
  cbv zeta in H. rewrite Hm, Hn, Hs in H.
  apply H; clear H.
  - vm_compute. reflexivity.
  - vm_compute. reflexivity.
  - vm_compute. split; [discriminate|reflexivity].
  - vm_compute. split; [discriminate|reflexivity].
  - vm_compute. split; [discriminate|reflexivity].
  - vm_compute. reflexivity.
  - vm_compute. split; [discriminate|reflexivity].
  - vm_compute. reflexivity.
  - vm_compute. discriminate.
  - exact Hp.
  - vm_compute. discriminate.
  - right; left. vm_compute. discriminate.
  - right; left. vm_compute. discriminate.
  - right; left. vm_compute. discriminate.
  - right. vm_compute. discriminate.
  - right; left. vm_compute. discriminate.
  - right; left. vm_compute. discriminate.
  - right. vm_compute. discriminate.
  - exact Hw.
  - discriminate.
Defined.

Lemma truncate_then_getattr_witness :
  vsfs_truncate std img_a path_a 1 t0 = Some (0, img_a1) /\
  path_lookup std img_a1 path_a = Found 1 /\
  fst (vsfs_getattr std img_a1 path_a stat_zero) = 0 /\
  st_size (snd (vsfs_getattr std img_a1 path_a stat_zero)) = 1 /\
  st_blocks (snd (vsfs_getattr std img_a1 path_a stat_zero)) = 1 /\
  st_mode (snd (vsfs_getattr std img_a1 path_a stat_zero)) = REG /\
  st_nlink (snd (vsfs_getattr std img_a1 path_a stat_zero)) = 1.
Proof.
  assert (Hl : path_lookup std img_a path_a = Found 1)
    by (vm_compute; reflexivity).
  assert (Ht : vsfs_truncate std img_a path_a 1 t0 = Some (0, img_a1)).
  { unfold img_a1.
    assert (E : result_of (vsfs_truncate std img_a path_a 1 t0) = Some 0)
      by (vm_compute; reflexivity).
    destruct (vsfs_truncate std img_a path_a 1 t0) as [[r m']|];
      simpl in E; [|discriminate].
    inversion E. reflexivity. }
  assert (Hp : forall k, 0 <= k < VSFS_NUM_DIRECT std ->
             i_direct img_a (fs_itable std 1) k < 8 * VSFS_BLOCK_SIZE).
  { assert (Hall : forallb
                     (fun k => i_direct img_a (fs_itable std 1) k
                               <? 8 * VSFS_BLOCK_SIZE)
                     (indices 5) = true) by (vm_compute; reflexivity).
    intros k Hk. change (VSFS_NUM_DIRECT std) with 5 in Hk.
    pose proof (forallb_indices _ 5 Hall k Hk) as H. cbv beta in H.
    now apply Z.ltb_lt in H. }
  split; [exact Ht|].
  assert (Hm : i_mode img_a (fs_itable std 1) = REG) by (vm_compute; reflexivity).
  assert (Hn : i_nlink img_a (fs_itable std 1) = 1) by (vm_compute; reflexivity).
  pose proof (truncate_then_getattr std std_ok img_a path_a 1 t0 1 img_a1
                stat_zero Hl) as H.
  cbv zeta in H. rewrite Hm, Hn in H.
  change (div_round_up 1 512) with 1 in H.
  apply H; clear H.
  - vm_compute. reflexivity.
  - vm_compute. reflexivity.
  - vm_compute. split; [discriminate|reflexivity].
  - vm_compute. discriminate.
  - exact Hp.
  - vm_compute. discriminate.
  - right; left. vm_compute. discriminate.
  - right; left. vm_compute. discriminate.
  - right; left. vm_compute. discriminate.
  - right. vm_compute. discriminate.
  - exact Ht.
Defined.


(** ** Formatting, then using the image *)


Section Format_bitmap.

Variable P : params.
Hypothesis OK : params_ok P.


(** The data bitmap as the formatter leaves it before it allocates the root
    directory block: the bits of the three fixed blocks and of the [T]
    inode-table blocks are set, the other bits below [nblks] are clear. *)
Lemma format_bitmap_bits m1 nblks T j :
  0 <= nblks -> nblks + 63 < 2 ^ 32 -> 0 <= T -> 3 + T < 2 ^ 32 ->
  0 <= j < nblks ->
  bitmap_isset
    (mark_itable (Z.to_nat T) 0 nblks
       (bitmap_set (bitmap_set (bitmap_set (bitmap_init m1 fs_dbmap nblks)
          fs_dbmap nblks VSFS_SB_BLKNUM true)
          fs_dbmap nblks VSFS_IMAP_BLKNUM true)
          fs_dbmap nblks VSFS_DMAP_BLKNUM true))
    fs_dbmap nblks j
  = (j <? 3 + T).
Proof.
  intros Hn Hn2 HT HT2 Hj.
  unfold VSFS_SB_BLKNUM, VSFS_IMAP_BLKNUM, VSFS_DMAP_BLKNUM.
  destruct (Z.ltb_spec j (3 + T)) as [Hlt|Hge].
  - destruct (Z_lt_le_dec j 3) as [H3|H3].
    + apply mark_itable_keeps.
      assert (Hc : j = 0 \/ j = 1 \/ j = 2) by lia.
      destruct Hc as [-> | [-> | ->]].
      * rewrite !bitmap_isset_set_other by lia. apply bitmap_isset_set_same.
      * rewrite !bitmap_isset_set_other by lia. apply bitmap_isset_set_same.
      * apply bitmap_isset_set_same.
    + replace j with (3 + (j - 3)) by lia. apply mark_itable_sets; lia.
  - rewrite mark_itable_other.
    + rewrite !bitmap_isset_set_other by lia. apply bitmap_isset_init; lia.
    + intros i Hi. unfold VSFS_DMAP_BLKNUM. rewrite u32_small; lia.
Qed.

End Format_bitmap.


Section Format_facts.

Variable P : params.
Hypothesis OK : params_ok P.


(** What a successful run of the formatter implies about its arguments, and
    the image it leaves. *)
Lemma mkfs_facts m size n_inodes clock m' :
  0 <= size < 2 ^ 44 ->
  0 < n_inodes -> n_inodes + VSFS_BLOCK_SIZE / INODE_SIZE P <= 2 ^ 32 ->
  mkfs P m size n_inodes clock = (true, m') ->
  let nblks := size / VSFS_BLOCK_SIZE in
  let T := (n_inodes * INODE_SIZE P + VSFS_BLOCK_SIZE - 1) / VSFS_BLOCK_SIZE in
  let root := fs_itable P VSFS_ROOT_INO in
  (n_inodes < VSFS_INO_MAX P /\
   VSFS_BLK_MIN P <= nblks <= VSFS_BLK_MAX P /\
   1 <= T /\ 3 + T < nblks /\
   exists now, clock = Some now /\
     load_u64 m' (root + I_MTIME) = u64 (fst now) /\
     load_u64 m' (root + I_MTIME + 8) = u64 (snd now)) /\
  (sb_magic m' = VSFS_MAGIC P /\ sb_size m' = size /\
   sb_num_inodes m' = n_inodes /\ sb_free_inodes m' = n_inodes - 1 /\
   sb_num_blocks m' = nblks /\ sb_free_blocks m' = nblks - 3 - T - 1 /\
   sb_data_region m' = 3 + T) /\
  (i_mode m' root = Z.lor S_IFDIR 511 /\ i_nlink m' root = 2 /\
   i_size m' root = VSFS_BLOCK_SIZE /\ i_blocks m' root = 1 /\
   i_direct m' root 0 = 3 + T) /\
  (dentry_ino P m' 0 = VSFS_ROOT_INO /\
   strcmp_mem m' (dentry_name P m' 0) dot = true /\
   dentry_ino P m' 1 = VSFS_ROOT_INO /\
   strcmp_mem m' (dentry_name P m' 1) dotdot = true /\
   forall i, 2 <= i < NUM_DENTRIES P -> dentry_ino P m' i = VSFS_INO_MAX P).
Proof.
  intros Hsize HN HN2 Hrun nblks T root.
  pose proof (inode_size_bounds P OK) as HS.
  pose proof (dentry_size_bounds P OK) as HD.
  assert (Hipb : 1 <= VSFS_BLOCK_SIZE / INODE_SIZE P <= VSFS_BLOCK_SIZE).
  { unfold VSFS_BLOCK_SIZE in *. split.
    - apply Z.div_le_lower_bound; lia.
    - apply Z.div_le_upper_bound; nia. }
  assert (Hnb : 0 <= nblks < 2 ^ 32).
  { unfold nblks, VSFS_BLOCK_SIZE. zlia. }
  unfold mkfs in Hrun.
  rewrite (u32_small (size / VSFS_BLOCK_SIZE)) in Hrun by exact Hnb.
  rewrite (u32_small (VSFS_BLOCK_SIZE / INODE_SIZE P)) in Hrun
    by (unfold VSFS_BLOCK_SIZE in *; lia).
  rewrite div_round_up_small in Hrun by (unfold VSFS_BLOCK_SIZE in *; lia).
  rewrite itable_blocks in Hrun
    by (try lia; apply (inode_divides P OK)).
  fold nblks T in Hrun.
  destruct (VSFS_INO_MAX P <=? n_inodes) eqn:Ei; [discriminate|].
  apply Z.leb_gt in Ei.
  destruct ((VSFS_BLK_MAX P <? nblks) || (nblks <? VSFS_BLK_MIN P)) eqn:Eor;
    [discriminate|].
  apply orb_false_iff in Eor. destruct Eor as [Hmax Hmin].
  apply Z.ltb_ge in Hmax, Hmin.
  destruct clock as [now|]; [|discriminate].
  match type of Hrun with
  | context [bitmap_alloc ?a _ _] => set (ma := a) in *
  end.
  destruct (bitmap_alloc ma fs_dbmap nblks) as [[blk mb]|] eqn:Ealloc;
    [|discriminate].
  assert (HT : 1 <= T).
  { unfold T, VSFS_BLOCK_SIZE in *. apply Z.div_le_lower_bound; nia. }
  pose proof (blk_max_bits P OK) as Hbits.
  apply bitmap_alloc_some in Ealloc.
  destruct Ealloc as (Hblk & Hclear & Hbelow & Hmb).
  assert (Hma : forall j, 0 <= j < 8 * VSFS_BLOCK_SIZE ->
            bitmap_isset ma fs_dbmap nblks j
            = bitmap_isset
                (mark_itable (Z.to_nat T) 0 nblks
                   (bitmap_set (bitmap_set (bitmap_set
                      (bitmap_init
                         (memset (bitmap_init (memset m fs_ibmap xff VSFS_BLOCK_SIZE)
                                    fs_ibmap n_inodes)
                            fs_dbmap xff VSFS_BLOCK_SIZE) fs_dbmap nblks)
                      fs_dbmap nblks VSFS_SB_BLKNUM true)
                      fs_dbmap nblks VSFS_IMAP_BLKNUM true)
                      fs_dbmap nblks VSFS_DMAP_BLKNUM true))
                fs_dbmap nblks j).
  { intros j Hj. apply bitmap_isset_frame. subst ma. to_le.
    peel_with ltac:(layout; zlia). reflexivity. }
  assert (Hlow : forall j, 0 <= j < 3 -> bitmap_isset ma fs_dbmap nblks j = true).
  { intros j Hj. rewrite Hma by (unfold VSFS_BLOCK_SIZE; lia).
    apply mark_itable_keeps. unfold VSFS_SB_BLKNUM, VSFS_IMAP_BLKNUM, VSFS_DMAP_BLKNUM.
    assert (Hc : j = 0 \/ j = 1 \/ j = 2) by lia.
    destruct Hc as [-> | [-> | ->]].
    - rewrite !bitmap_isset_set_other by lia. apply bitmap_isset_set_same.
    - rewrite !bitmap_isset_set_other by lia. apply bitmap_isset_set_same.
    - apply bitmap_isset_set_same. }
  assert (Hblk3 : blk = 3 + T).
  { destruct (Z_lt_le_dec blk 3) as [H3|H3].
    { rewrite Hlow in Hclear by lia. discriminate. }
    destruct (Z_lt_le_dec blk (3 + T)) as [H4|H4].
    { rewrite Hma in Hclear by lia.
      match type of Hclear with
      | bitmap_isset (mark_itable _ _ _ ?m0) _ _ _ = _ =>
          pose proof (mark_itable_sets (Z.to_nat T) 0 nblks m0 (blk - 3)
                        ltac:(lia) ltac:(lia)) as Hset
      end.
      replace (3 + (blk - 3)) with blk in Hset by lia.
      rewrite Hset in Hclear. discriminate. }
    destruct (Z.eq_dec blk (3 + T)) as [H5|H5]; [exact H5|].
    exfalso. specialize (Hbelow (3 + T) ltac:(lia)).
    rewrite Hma in Hbelow by lia.
    rewrite mark_itable_other in Hbelow.
    - unfold VSFS_SB_BLKNUM, VSFS_IMAP_BLKNUM, VSFS_DMAP_BLKNUM in Hbelow.
      rewrite !bitmap_isset_set_other in Hbelow by lia.
      rewrite bitmap_isset_init in Hbelow by (unfold VSFS_BLOCK_SIZE in *; lia).
      discriminate.
    - intros i Hi. unfold VSFS_DMAP_BLKNUM. rewrite u32_small; lia. }
  rewrite !i_direct_store_0 in Hrun. rewrite (u32_small blk) in Hrun by lia.
  unfold sb_num_blocks in Hrun. rewrite load_u32_store_u32 in Hrun.
  rewrite (u32_small nblks) in Hrun by lia.
  rewrite (num_dentries_round P OK) in Hrun.
  set (E := blk * VSFS_BLOCK_SIZE) in *.
  apply pair_equal_spec in Hrun. destruct Hrun as [_ Hm'].
  pose proof (magic_range P OK) as Hmagic.
  pose proof (ino_max_range P OK) as Hinomax.
  pose proof (name_max_min P OK) as Hname.
  pose proof (num_dentries_bounds P OK) as [HK1 HK2].
  assert (HDS : DENTRY_SIZE P = 4 + (VSFS_NAME_MAX P + 1)) by reflexivity.
  assert (HE : E = blk * 4096 /\ 4 * 4096 <= E) by (unfold E, VSFS_BLOCK_SIZE; lia).
  clearbody E. destruct HE as [HE1 HE2]. clearbody nblks T.
  change VSFS_ROOT_INO with 0 in *.
  subst m' mb. unfold ma. clear Hma Hlow Hclear Hbelow. clear ma.
  assert (Hdir : forall m0, i_direct (store_u32 m0 (fs_itable P 0 + I_DIRECT) blk) (fs_itable P 0) 0 = blk).
  { intros m0. rewrite i_direct_store_0. apply u32_small. lia. }
  split; [|split; [|split]].
  - split; [exact Ei|]. split; [lia|]. split; [exact HT|]. split; [lia|].
    exists now. split; [reflexivity|]. unfold set_mtime. subst root. to_le.
    split.
    + peel. apply load8_store8.
    + peel. apply load8_store8.
  - unfold sb_magic, sb_size, sb_num_inodes, sb_free_inodes, sb_num_blocks,
      sb_free_blocks, sb_data_region. to_le.
    repeat split.
    + peel. rewrite load8_store8. apply u64_small. lia.
    + peel. rewrite load8_store8. apply u64_small. lia.
    + peel. rewrite load4_store4. apply u32_small. lia.
    + peel. rewrite load4_store4. apply u32_small. lia.
    + peel. rewrite load4_store4. apply u32_small. lia.
    + peel. rewrite load4_store4. unfold VSFS_DMAP_BLKNUM. rewrite u32_small; lia.
    + peel. rewrite load4_store4. change VSFS_ITBL_BLKNUM with 3. rewrite u32_small; lia.
  - unfold i_mode, i_nlink, i_size, i_blocks, i_direct. subst root. to_le.
    replace (fs_itable P 0 + I_DIRECT + 4 * 0) with (fs_itable P 0 + I_DIRECT)
      by lia.
    repeat split.
    + peel. rewrite load4_store4. reflexivity.
    + peel. rewrite load4_store4. reflexivity.
    + peel. rewrite load8_store8. reflexivity.
    + peel. rewrite load4_store4. reflexivity.
    + peel. rewrite load4_store4. rewrite u32_small; lia.
  - match goal with
    | |- context [dentry_ino P ?f 0] => set (mf := f)
    end.
    assert (Hd0 : i_direct mf (fs_itable P 0) 0 = blk).
    { unfold i_direct, mf. to_le.
      replace (fs_itable P 0 + I_DIRECT + 4 * 0) with (fs_itable P 0 + I_DIRECT)
        by lia.
      peel. rewrite load4_store4. apply u32_small. lia. }
    assert (Hde : forall i, 0 <= i < NUM_DENTRIES P ->
              get_dir_entry P mf (fs_itable P 0) i = E + i * DENTRY_SIZE P).
    { intros i Hi. rewrite (get_dir_entry_root P OK) by exact Hi. rewrite Hd0.
      unfold VSFS_BLOCK_SIZE. lia. }
    assert (HK3 : 2 <= NUM_DENTRIES P)
      by (pose proof (dentry_two P OK); unfold VSFS_BLOCK_SIZE in *; nia).
    unfold dentry_ino, dentry_name.
    repeat split.
    + rewrite Hde by lia. replace (E + 0 * DENTRY_SIZE P + D_INO) with (E + D_INO) by lia.
      unfold mf. to_le. peel. rewrite load4_store4. reflexivity.
    + rewrite Hde by lia.
      replace (E + 0 * DENTRY_SIZE P + D_NAME) with (E + D_NAME) by lia.
      apply strcmp_mem_eq. intros k Hk. change (strlen dot) with 1 in Hk.
      unfold mf. to_le. peel. rewrite memcpy_in_in by solver.
      f_equal. f_equal. lia.
    + rewrite Hde by lia.
      replace (E + 1 * DENTRY_SIZE P + D_INO) with (E + DENTRY_SIZE P + D_INO)
        by lia.
      unfold mf. to_le. peel. rewrite load4_store4. reflexivity.
    + rewrite Hde by lia.
      replace (E + 1 * DENTRY_SIZE P + D_NAME) with (E + DENTRY_SIZE P + D_NAME)
        by lia.
      apply strcmp_mem_eq. intros k Hk. change (strlen dotdot) with 2 in Hk.
      unfold mf. to_le. peel. rewrite memcpy_in_in by solver.
      f_equal. f_equal. lia.
    + intros i Hi. rewrite Hde by lia.
      assert (Hpos : 2 * DENTRY_SIZE P <= i * DENTRY_SIZE P) by nia.
      unfold mf. to_le. peel_with solver.
      rewrite (clear_entries_sets P OK); [reflexivity|].
      rewrite Z2Nat.id by lia. lia.
Qed.

End Format_facts.


Section Format.

Variable P : params.
Hypothesis OK : params_ok P.


(** X19.  For an inode count n with 0 < n <= 2^32 - BLOCK_SIZE / sizeof(inode)
    and an image of fewer than 2^32 blocks, [mkfs] succeeds exactly when
    n < INO_MAX, the block count lies between BLK_MIN and BLK_MAX, the
    clock can be read, and the three fixed blocks and the inode table
    leave a block for the root directory. *)
Theorem mkfs_succeeds_iff m size n_inodes clock :
  0 <= size < 2 ^ 44 ->
  0 < n_inodes -> n_inodes + VSFS_BLOCK_SIZE / INODE_SIZE P <= 2 ^ 32 ->
  let nblks := size / VSFS_BLOCK_SIZE in
  let T := (n_inodes * INODE_SIZE P + VSFS_BLOCK_SIZE - 1) / VSFS_BLOCK_SIZE in
  fst (mkfs P m size n_inodes clock) = true <->
  n_inodes < VSFS_INO_MAX P /\
  VSFS_BLK_MIN P <= nblks <= VSFS_BLK_MAX P /\
  clock <> None /\
  3 + T < nblks.
Proof.
  intros Hsize HN HN2 nblks T. split.
  - destruct (mkfs P m size n_inodes clock) as [ok m'] eqn:E. cbn [fst].
    intros ->.
    destruct (mkfs_facts P OK m size n_inodes clock m' Hsize HN HN2 E)
      as ((H1 & H2 & _ & H4 & now & -> & _) & _).
    repeat split; try assumption; try lia. discriminate.
  - intros (H1 & H2 & H3 & H4).
    pose proof (inode_size_bounds P OK) as HS.
    assert (Hipb : 1 <= VSFS_BLOCK_SIZE / INODE_SIZE P <= VSFS_BLOCK_SIZE).
    { unfold VSFS_BLOCK_SIZE in *. split.
      - apply Z.div_le_lower_bound; lia.
      - apply Z.div_le_upper_bound; nia. }
    assert (Hnb : 0 <= nblks < 2 ^ 32).
    { unfold nblks, VSFS_BLOCK_SIZE. zlia. }
    assert (HT : 0 <= T).
    { unfold T, VSFS_BLOCK_SIZE in *. apply Z.div_pos; nia. }
    pose proof (blk_max_bits P OK) as Hbits.
    destruct clock as [now|]; [|contradiction].
    unfold mkfs.
    rewrite (u32_small (size / VSFS_BLOCK_SIZE)) by exact Hnb.
    rewrite (u32_small (VSFS_BLOCK_SIZE / INODE_SIZE P))
      by (unfold VSFS_BLOCK_SIZE in *; lia).
    rewrite div_round_up_small by (unfold VSFS_BLOCK_SIZE in *; lia).
    rewrite itable_blocks by (try lia; apply (inode_divides P OK)).
    fold nblks T.
    destruct (Z.leb_spec (VSFS_INO_MAX P) n_inodes); [lia|].
    destruct (Z.ltb_spec (VSFS_BLK_MAX P) nblks); [lia|].
    destruct (Z.ltb_spec nblks (VSFS_BLK_MIN P)); [lia|].
    cbn [orb].
    match goal with
    | |- context [bitmap_alloc ?a _ _] => set (ma := a)
    end.
    destruct (bitmap_alloc ma fs_dbmap nblks) as [[blk mb]|] eqn:Ealloc;
      [reflexivity|].
    exfalso.
    pose proof (bitmap_alloc_none _ _ _ Ealloc (3 + T) ltac:(lia)) as Hset.
    rewrite (bitmap_isset_frame
               (mark_itable (Z.to_nat T) 0 nblks
                  (bitmap_set (bitmap_set (bitmap_set
                     (bitmap_init
                        (memset (bitmap_init (memset m fs_ibmap xff VSFS_BLOCK_SIZE)
                                   fs_ibmap n_inodes)
                           fs_dbmap xff VSFS_BLOCK_SIZE) fs_dbmap nblks)
                     fs_dbmap nblks VSFS_SB_BLKNUM true)
                     fs_dbmap nblks VSFS_IMAP_BLKNUM true)
                     fs_dbmap nblks VSFS_DMAP_BLKNUM true))
               ma fs_dbmap nblks nblks (3 + T)) in Hset.
    + rewrite format_bitmap_bits in Hset
        by (try exact OK; unfold VSFS_BLOCK_SIZE in *; lia).
      rewrite Z.ltb_irrefl in Hset. discriminate.
    + subst ma. to_le. peel_with ltac:(layout; zlia). reflexivity.
Qed.

(** X20.  An image that [mkfs] formatted is accepted by mount with its size
    and with no other size, and a later run of the formatter without the
    force flag leaves it untouched. *)
Theorem mkfs_then_mount m size n_inodes clock m' :
  0 <= size < 2 ^ 44 ->
  0 < n_inodes -> n_inodes + VSFS_BLOCK_SIZE / INODE_SIZE P <= 2 ^ 32 ->
  mkfs P m size n_inodes clock = (true, m') ->
  fs_ctx_init P m' size = true /\
  (forall size', size' <> size -> fs_ctx_init P m' size' = false) /\
  forall size' n' zero clock',
    mkfs_main P m' size' n' false zero clock' = (None, m').
Proof.
  intros Hsize HN HN2 E.
  destruct (mkfs_facts P OK m size n_inodes clock m' Hsize HN HN2 E)
    as (_ & (Hmagic & Hsz & _) & _).
  unfold fs_ctx_init. fold (sb_magic m') (sb_size m'). rewrite Hmagic, Hsz.
  rewrite !Z.eqb_refl. split; [reflexivity|]. split.
  - intros size' Hne. cbn [andb]. apply Z.eqb_neq. congruence.
  - intros size' n' zero clock'. unfold mkfs_main, vsfs_is_present.
    rewrite Hmagic, Z.eqb_refl. reflexivity.
Qed.


(** X22.  On a freshly formatted image [vsfs_getattr] of "/" returns 0 and
    reports a directory of mode 0777 with link count 2, size BLOCK_SIZE,
    8 sectors, and the clock reading of the format. *)
Theorem mkfs_then_getattr_root m size n_inodes now m' path st :
  0 <= size < 2 ^ 44 ->
  0 < n_inodes -> n_inodes + VSFS_BLOCK_SIZE / INODE_SIZE P <= 2 ^ 32 ->
  - 2 ^ 63 <= fst now < 2 ^ 63 -> - 2 ^ 63 <= snd now < 2 ^ 63 ->
  mkfs P m size n_inodes (Some now) = (true, m') ->
  is_root_path path = true -> 1 < VSFS_PATH_MAX P ->
  vsfs_getattr P m' path st
  = (0, {| st_mode := Z.lor S_IFDIR 511; st_nlink := 2;
           st_size := VSFS_BLOCK_SIZE; st_blocks := 8; st_mtim := now |}).
Proof.
  intros Hsize HN HN2 Ht1 Ht2 E Hroot Hpm.
  destruct (mkfs_facts P OK m size n_inodes (Some now) m' Hsize HN HN2 E)
    as ((_ & _ & _ & _ & now' & Hnow & Hm1 & Hm2) & _
        & (Hmo & Hnl & Hsz & _) & _).
  inversion Hnow; subst now'.
  destruct (root_path_shape path Hroot) as [_ Hlen].
  pose proof (name_max_min P OK) as Hnm.
  unfold vsfs_getattr. rewrite Hlen.
  destruct (Z.leb_spec (VSFS_PATH_MAX P) 1); [lia|].
  destruct (Z.leb_spec (VSFS_NAME_MAX P + 1) 1); [lia|].
  cbn [orb]. rewrite (path_lookup_root P m' path Hroot).
  unfold i_mtime. rewrite Hmo, Hnl, Hsz, Hm1, Hm2. rewrite !s64_u64 by lia.
  destruct now; reflexivity.
Qed.

(** X23.  On a freshly formatted image [vsfs_readdir] of "/", with a filler
    that never reports a full buffer, returns 0 after exactly two calls
    of the filler, for the names of slots 0 and 1, which are "." and
    "..". *)
Theorem mkfs_then_readdir {B : Type} (filler : B -> image -> Z -> bool * B)
    m size n_inodes clock m' path buf :
  0 <= size < 2 ^ 44 ->
  0 < n_inodes -> n_inodes + VSFS_BLOCK_SIZE / INODE_SIZE P <= 2 ^ 32 ->
  mkfs P m size n_inodes clock = (true, m') ->
  is_root_path path = true ->
  (forall b a, fst (filler b m' a) = false) ->
  vsfs_readdir P filler m' path buf
  = Some (0, snd (filler (snd (filler buf m' (dentry_name P m' 0)))
                    m' (dentry_name P m' 1))) /\
  strcmp_mem m' (dentry_name P m' 0) dot = true /\
  strcmp_mem m' (dentry_name P m' 1) dotdot = true.
Proof.
  intros Hsize HN HN2 E Hroot Hf.
  destruct (mkfs_facts P OK m size n_inodes clock m' Hsize HN HN2 E)
    as (_ & _ & _ & (Hd0 & Hn0 & Hd1 & Hn1 & Hrest)).
  pose proof (ino_max_range P OK) as Him.
  pose proof (num_dentries_bounds P OK) as [HK1 HK2].
  assert (HK3 : 2 <= NUM_DENTRIES P)
    by (pose proof (dentry_two P OK); unfold VSFS_BLOCK_SIZE in *; nia).
  split; [|split; assumption].
  unfold vsfs_readdir. rewrite Hroot. cbn [negb].
  rewrite (readdir_loop_never_full P filler m' _ Hf).
  change (map (fun k => 0 + Z.of_nat k) (seq 0 (Z.to_nat (NUM_DENTRIES P))))
    with (indices (Z.to_nat (NUM_DENTRIES P))).
  rewrite filter_indices_two; [reflexivity|lia| | |].
  - rewrite Hd0. unfold VSFS_ROOT_INO. apply negb_true_iff, Z.eqb_neq. lia.
  - rewrite Hd1. unfold VSFS_ROOT_INO. apply negb_true_iff, Z.eqb_neq. lia.
  - intros i Hi. rewrite Z2Nat.id in Hi by lia. rewrite Hrest by lia.
    now rewrite Z.eqb_refl.
Qed.

End Format.


Lemma mkfs_succeeds_iff_witness :
  fst (mkfs std blank MiB 32 (Some t0)) = true.
Proof.
  apply (proj2 (mkfs_succeeds_iff std std_ok blank MiB 32 (Some t0)
                  ltac:(vm_compute; split; [discriminate|reflexivity])
                  ltac:(reflexivity)
                  ltac:(vm_compute; discriminate))).
  split; [vm_compute; reflexivity|].
  split; [vm_compute; split; discriminate|].
  split; [discriminate|]. vm_compute. reflexivity.
Defined.

Lemma mkfs_run :
  mkfs std blank MiB 32 (Some t0) = (true, img_formatted).
Proof.
  unfold img_formatted.
  rewrite (surjective_pairing (mkfs std blank MiB 32 (Some t0))) at 1.
  f_equal.
Defined.

Lemma mkfs_then_mount_witness :
  fs_ctx_init std img_formatted MiB = true /\
  mkfs_main std img_formatted MiB 64 false true (Some t0) = (None, img_formatted).
Proof.
  destruct (mkfs_then_mount std std_ok blank MiB 32 (Some t0) img_formatted
              ltac:(vm_compute; split; [discriminate|reflexivity])
              ltac:(reflexivity)
              ltac:(vm_compute; discriminate)
              mkfs_run) as (H1 & _ & H3).
  split; [exact H1|]. apply H3.
Defined.


Lemma mkfs_then_getattr_root_witness :
  vsfs_getattr std img_formatted path_root stat_zero
  = (0, {| st_mode := Z.lor S_IFDIR 511; st_nlink := 2;
           st_size := VSFS_BLOCK_SIZE; st_blocks := 8; st_mtim := t0 |}).
Proof.
  apply (mkfs_then_getattr_root std std_ok blank MiB 32 t0 img_formatted
           path_root stat_zero
           ltac:(vm_compute; split; [discriminate|reflexivity])
           ltac:(reflexivity)
           ltac:(vm_compute; discriminate)
           ltac:(vm_compute; split; [discriminate|reflexivity])
           ltac:(vm_compute; split; [discriminate|reflexivity])
           mkfs_run
           ltac:(reflexivity)
           ltac:(reflexivity)).
Defined.

Lemma mkfs_then_readdir_witness :
  vsfs_readdir std collect img_formatted path_root []
  = Some (0, [dentry_name std img_formatted 0; dentry_name std img_formatted 1]).
Proof.
  apply (mkfs_then_readdir std std_ok collect blank MiB 32 (Some t0)
           img_formatted path_root []
           ltac:(vm_compute; split; [discriminate|reflexivity])
           ltac:(reflexivity)
           ltac:(vm_compute; discriminate)
           mkfs_run
           ltac:(reflexivity)
           ltac:(intros b a; reflexivity)).
Defined.

(** ** The layout after a successful format *)

Section Formatter_success.

Variable P : params.
Hypothesis OK : params_ok P.

(** X26.  After a successful format of an image of [nblks] blocks
    (fewer than 2^32) with [N] inodes, [0 < N <= 2^32 - BLOCK_SIZE /
    sizeof(inode)], the superblock holds the magic, the image size,
    num_inodes = N, free_inodes = N - 1, num_blocks = nblks, free_blocks =
    nblks - 3 - T - 1 and data_region = 3 + T, with T the ceiling of
    N * sizeof(inode) / BLOCK_SIZE; the root inode has mode directory|0777,
    link count 2, size BLOCK_SIZE, block count 1, and first direct pointer
    3 + T; the directory block it names holds "." and ".." pointing at the
    root inode, and every other entry has inode number INO_MAX. *)
Theorem mkfs_success_layout m size n_inodes clock m' :
  0 <= size < 2 ^ 44 ->
  0 < n_inodes -> n_inodes + VSFS_BLOCK_SIZE / INODE_SIZE P <= 2 ^ 32 ->
  mkfs P m size n_inodes clock = (true, m') ->
  let nblks := size / VSFS_BLOCK_SIZE in
  let T := (n_inodes * INODE_SIZE P + VSFS_BLOCK_SIZE - 1) / VSFS_BLOCK_SIZE in
  let root := fs_itable P VSFS_ROOT_INO in
  (sb_magic m' = VSFS_MAGIC P /\ sb_size m' = size /\
   sb_num_inodes m' = n_inodes /\ sb_free_inodes m' = n_inodes - 1 /\
   sb_num_blocks m' = nblks /\ sb_free_blocks m' = nblks - 3 - T - 1 /\
   sb_data_region m' = 3 + T) /\
  (i_mode m' root = Z.lor S_IFDIR 511 /\ i_nlink m' root = 2 /\
   i_size m' root = VSFS_BLOCK_SIZE /\ i_blocks m' root = 1 /\
   i_direct m' root 0 = 3 + T) /\
  (dentry_ino P m' 0 = VSFS_ROOT_INO /\
   strcmp_mem m' (dentry_name P m' 0) dot = true /\
   dentry_ino P m' 1 = VSFS_ROOT_INO /\
   strcmp_mem m' (dentry_name P m' 1) dotdot = true /\
   forall i, 2 <= i < NUM_DENTRIES P -> dentry_ino P m' i = VSFS_INO_MAX P).
Proof.
  intros Hsize HN HN2 Hrun nblks T root.
  pose proof (inode_size_bounds P OK) as HS.
  pose proof (dentry_size_bounds P OK) as HD.
  assert (Hipb : 1 <= VSFS_BLOCK_SIZE / INODE_SIZE P <= VSFS_BLOCK_SIZE).
  { unfold VSFS_BLOCK_SIZE in *. split.
    - apply Z.div_le_lower_bound; lia.
    - apply Z.div_le_upper_bound; nia. }
  assert (Hnb : 0 <= nblks < 2 ^ 32).
  { unfold nblks, VSFS_BLOCK_SIZE. zlia. }
  unfold mkfs in Hrun.
  rewrite (u32_small (size / VSFS_BLOCK_SIZE)) in Hrun by exact Hnb.
  rewrite (u32_small (VSFS_BLOCK_SIZE / INODE_SIZE P)) in Hrun
    by (unfold VSFS_BLOCK_SIZE in *; lia).
  rewrite div_round_up_small in Hrun by (unfold VSFS_BLOCK_SIZE in *; lia).
  rewrite itable_blocks in Hrun
    by (try lia; apply (inode_divides P OK)).
  fold nblks T in Hrun.
  destruct (VSFS_INO_MAX P <=? n_inodes) eqn:Ei; [discriminate|].
  destruct ((VSFS_BLK_MAX P <? nblks) || (nblks <? VSFS_BLK_MIN P)) eqn:Eor;
    [discriminate|].
  apply orb_false_iff in Eor. destruct Eor as [Hmax Hmin].
  apply Z.ltb_ge in Hmax, Hmin.
  destruct clock as [now|]; [|discriminate].
  match type of Hrun with
  | context [bitmap_alloc ?a _ _] => set (ma := a) in *
  end.
  destruct (bitmap_alloc ma fs_dbmap nblks) as [[blk mb]|] eqn:Ealloc;
    [|discriminate].
  assert (HT : 1 <= T).
  { unfold T, VSFS_BLOCK_SIZE in *. apply Z.div_le_lower_bound; nia. }
  pose proof (blk_max_bits P OK) as Hbits.
  apply bitmap_alloc_some in Ealloc.
  destruct Ealloc as (Hblk & Hclear & Hbelow & Hmb).
  assert (Hma : forall j, 0 <= j < 8 * VSFS_BLOCK_SIZE ->
            bitmap_isset ma fs_dbmap nblks j
            = bitmap_isset
                (mark_itable (Z.to_nat T) 0 nblks
                   (bitmap_set (bitmap_set (bitmap_set
                      (bitmap_init
                         (memset (bitmap_init (memset m fs_ibmap xff VSFS_BLOCK_SIZE)
                                    fs_ibmap n_inodes)
                            fs_dbmap xff VSFS_BLOCK_SIZE) fs_dbmap nblks)
                      fs_dbmap nblks VSFS_SB_BLKNUM true)
                      fs_dbmap nblks VSFS_IMAP_BLKNUM true)
                      fs_dbmap nblks VSFS_DMAP_BLKNUM true))
                fs_dbmap nblks j).
  { intros j Hj. apply bitmap_isset_frame. subst ma. to_le.
    peel_with ltac:(layout; zlia). reflexivity. }
  assert (Hlow : forall j, 0 <= j < 3 -> bitmap_isset ma fs_dbmap nblks j = true).
  { intros j Hj. rewrite Hma by (unfold VSFS_BLOCK_SIZE; lia).
    apply mark_itable_keeps. unfold VSFS_SB_BLKNUM, VSFS_IMAP_BLKNUM, VSFS_DMAP_BLKNUM.
    assert (Hc : j = 0 \/ j = 1 \/ j = 2) by lia.
    destruct Hc as [-> | [-> | ->]].
    - rewrite !bitmap_isset_set_other by lia. apply bitmap_isset_set_same.
    - rewrite !bitmap_isset_set_other by lia. apply bitmap_isset_set_same.
    - apply bitmap_isset_set_same. }
  assert (Hblk3 : blk = 3 + T).
  { destruct (Z_lt_le_dec blk 3) as [H3|H3].
    { rewrite Hlow in Hclear by lia. discriminate. }
    destruct (Z_lt_le_dec blk (3 + T)) as [H4|H4].
    { rewrite Hma in Hclear by lia.
      match type of Hclear with
      | bitmap_isset (mark_itable _ _ _ ?m0) _ _ _ = _ =>
          pose proof (mark_itable_sets (Z.to_nat T) 0 nblks m0 (blk - 3)
                        ltac:(lia) ltac:(lia)) as Hset
      end.
      replace (3 + (blk - 3)) with blk in Hset by lia.
      rewrite Hset in Hclear. discriminate. }
    destruct (Z.eq_dec blk (3 + T)) as [H5|H5]; [exact H5|].
    exfalso. specialize (Hbelow (3 + T) ltac:(lia)).
    rewrite Hma in Hbelow by lia.
    rewrite mark_itable_other in Hbelow.
    - unfold VSFS_SB_BLKNUM, VSFS_IMAP_BLKNUM, VSFS_DMAP_BLKNUM in Hbelow.
      rewrite !bitmap_isset_set_other in Hbelow by lia.
      rewrite bitmap_isset_init in Hbelow by (unfold VSFS_BLOCK_SIZE in *; lia).
      discriminate.
    - intros i Hi. unfold VSFS_DMAP_BLKNUM. rewrite u32_small; lia. }
  rewrite !i_direct_store_0 in Hrun. rewrite (u32_small blk) in Hrun by lia.
  unfold sb_num_blocks in Hrun. rewrite load_u32_store_u32 in Hrun.
  rewrite (u32_small nblks) in Hrun by lia.
  rewrite (num_dentries_round P OK) in Hrun.
  set (E := blk * VSFS_BLOCK_SIZE) in *.
  apply pair_equal_spec in Hrun. destruct Hrun as [_ Hm'].
  pose proof (magic_range P OK) as Hmagic.
  pose proof (ino_max_range P OK) as Hinomax.
  pose proof (name_max_min P OK) as Hname.
  pose proof (num_dentries_bounds P OK) as [HK1 HK2].
  assert (HDS : DENTRY_SIZE P = 4 + (VSFS_NAME_MAX P + 1)) by reflexivity.
  assert (HE : E = blk * 4096 /\ 4 * 4096 <= E) by (unfold E, VSFS_BLOCK_SIZE; lia).
  clearbody E. destruct HE as [HE1 HE2]. clearbody nblks T.
  change VSFS_ROOT_INO with 0 in *.
  subst m' mb. unfold ma. clear Hma Hlow Hclear Hbelow. clear ma.
  assert (Hdir : forall m0, i_direct (store_u32 m0 (fs_itable P 0 + I_DIRECT) blk) (fs_itable P 0) 0 = blk).
  { intros m0. rewrite i_direct_store_0. apply u32_small. lia. }
  split; [|split].
  - unfold sb_magic, sb_size, sb_num_inodes, sb_free_inodes, sb_num_blocks,
      sb_free_blocks, sb_data_region. to_le.
    repeat split.
    + peel. rewrite load8_store8. apply u64_small. lia.
    + peel. rewrite load8_store8. apply u64_small. lia.
    + peel. rewrite load4_store4. apply u32_small. lia.
    + peel. rewrite load4_store4. apply u32_small. lia.
    + peel. rewrite load4_store4. apply u32_small. lia.
    + peel. rewrite load4_store4. unfold VSFS_DMAP_BLKNUM. rewrite u32_small; lia.
    + peel. rewrite load4_store4. change VSFS_ITBL_BLKNUM with 3. rewrite u32_small; lia.
  - unfold i_mode, i_nlink, i_size, i_blocks, i_direct. subst root. to_le.
    replace (fs_itable P 0 + I_DIRECT + 4 * 0) with (fs_itable P 0 + I_DIRECT)
      by lia.
    repeat split.
    + peel. rewrite load4_store4. reflexivity.
    + peel. rewrite load4_store4. reflexivity.
    + peel. rewrite load8_store8. reflexivity.
    + peel. rewrite load4_store4. reflexivity.
    + peel. rewrite load4_store4. rewrite u32_small; lia.
  - match goal with
    | |- context [dentry_ino P ?f 0] => set (mf := f)
    end.
    assert (Hd0 : i_direct mf (fs_itable P 0) 0 = blk).
    { unfold i_direct, mf. to_le.
      replace (fs_itable P 0 + I_DIRECT + 4 * 0) with (fs_itable P 0 + I_DIRECT)
        by lia.
      peel. rewrite load4_store4. apply u32_small. lia. }
    assert (Hde : forall i, 0 <= i < NUM_DENTRIES P ->
              get_dir_entry P mf (fs_itable P 0) i = E + i * DENTRY_SIZE P).
    { intros i Hi. rewrite (get_dir_entry_root P OK) by exact Hi. rewrite Hd0.
      unfold VSFS_BLOCK_SIZE. lia. }
    assert (HK3 : 2 <= NUM_DENTRIES P)
      by (pose proof (dentry_two P OK); unfold VSFS_BLOCK_SIZE in *; nia).
    unfold dentry_ino, dentry_name.
    repeat split.
    + rewrite Hde by lia. replace (E + 0 * DENTRY_SIZE P + D_INO) with (E + D_INO) by lia.
      unfold mf. to_le. peel. rewrite load4_store4. reflexivity.
    + rewrite Hde by lia.
      replace (E + 0 * DENTRY_SIZE P + D_NAME) with (E + D_NAME) by lia.
      apply strcmp_mem_eq. intros k Hk. change (strlen dot) with 1 in Hk.
      unfold mf. to_le. peel. rewrite memcpy_in_in by solver.
      f_equal. f_equal. lia.
    + rewrite Hde by lia.
      replace (E + 1 * DENTRY_SIZE P + D_INO) with (E + DENTRY_SIZE P + D_INO)
        by lia.
      unfold mf. to_le. peel. rewrite load4_store4. reflexivity.
    + rewrite Hde by lia.
      replace (E + 1 * DENTRY_SIZE P + D_NAME) with (E + DENTRY_SIZE P + D_NAME)
        by lia.
      apply strcmp_mem_eq. intros k Hk. change (strlen dotdot) with 2 in Hk.
      unfold mf. to_le. peel. rewrite memcpy_in_in by solver.
      f_equal. f_equal. lia.
    + intros i Hi. rewrite Hde by lia.
      assert (Hpos : 2 * DENTRY_SIZE P <= i * DENTRY_SIZE P) by nia.
      unfold mf. to_le. peel_with solver.
      rewrite (clear_entries_sets P OK); [reflexivity|].
      rewrite Z2Nat.id by lia. lia.
Qed.


End Formatter_success.

Lemma mkfs_success_layout_witness :
  exists m',
    mkfs std blank MiB 32 (Some t0) = (true, m') /\
    sb_free_blocks m' = MiB / VSFS_BLOCK_SIZE - 3
                        - (32 * INODE_SIZE std + VSFS_BLOCK_SIZE - 1) / VSFS_BLOCK_SIZE
                        - 1 /\
    dentry_ino std m' 1 = VSFS_ROOT_INO.
Proof.
  exists (snd (mkfs std blank MiB 32 (Some t0))).
  assert (E : mkfs std blank MiB 32 (Some t0)
              = (true, snd (mkfs std blank MiB 32 (Some t0)))).
  { rewrite (surjective_pairing (mkfs std blank MiB 32 (Some t0))) at 1.
    f_equal. }
  split; [exact E|].
  assert (H1 : 0 <= MiB < 2 ^ 44)
    by (vm_compute; split; [discriminate | reflexivity]).
  assert (H2 : 0 < 32) by reflexivity.
  assert (H3 : 32 + VSFS_BLOCK_SIZE / INODE_SIZE std <= 2 ^ 32)
    by (vm_compute; discriminate).
  pose proof (mkfs_success_layout std std_ok _ _ _ _ _ H1 H2 H3 E)
    as (Hsb & _ & Hdir).
  split.
  - exact (proj1 (proj2 (proj2 (proj2 (proj2 (proj2 Hsb)))))).
  - exact (proj1 (proj2 (proj2 Hdir))).
Defined.

(** ** Truncation: blocks, bitmap and counters *)

Section Truncate_blocks.

Variable P : params.
Hypothesis OK : params_ok P.

(** X27.  [vsfs_truncate] of an existing file to a size of at most
    2^32 - BLOCK_SIZE bytes that needs more blocks than the inode counts,
    new_blocks = ceil(size / BLOCK_SIZE) being within the EFBIG limit, in an
    image mapped with [mapped] bytes whose data bitmap fits one block, when
    the range it zero-fills lies inside the mapping and neither over
    num_blocks or free_blocks, nor over the data bitmap, nor over the inode
    of the file.  With cnt = min(new_blocks - block count, NUM_DIRECT) and k
    the number of clear bits of the data bitmap below num_blocks: the call
    returns 0 when cnt <= k and -ENOSPC otherwise.  When it returns 0 the
    inode holds the new size, new_blocks and the time of the call;
    free_blocks is lower by cnt; cnt bits fewer are clear and no bit was
    cleared; the zero-filled range holds zeros; the direct pointers and the
    indirect pointer of the inode are what they were, so none of the blocks
    allocated is recorded in the inode; every other byte outside the data
    bitmap is unchanged. *)
Theorem truncate_extends m path size now ino mapped :
  path_lookup P m path = Found ino ->
  0 <= size <= 2 ^ 32 - VSFS_BLOCK_SIZE ->
  let a := fs_itable P ino in
  let new_blocks := (size + VSFS_BLOCK_SIZE - 1) / VSFS_BLOCK_SIZE in
  let zf := get_address P m a (i_size m a) in
  let zl := if i_size m a <? size then size - i_size m a else 0 in
  let apart p q := zl <= 0 \/ zf + zl <= p \/ q <= zf in
  let nb := sb_num_blocks m in
  let k := count_clear m fs_dbmap 0 nb in
  let cnt := Z.min (new_blocks - i_blocks m a) (VSFS_NUM_DIRECT P) in
  new_blocks <= VSFS_NUM_DIRECT P + VSFS_BLOCK_SIZE / 4 ->
  i_blocks m a < new_blocks ->
  size <> i_size m a ->
  nb <= 8 * VSFS_BLOCK_SIZE ->
  a + INODE_SIZE P <= mapped ->
  zf + zl <= mapped ->
  apart (fs_sb + SB_NUM_BLOCKS) (fs_sb + SB_FREE_BLOCKS + 4) ->
  apart fs_dbmap (fs_dbmap + VSFS_BLOCK_SIZE) ->
  apart a (a + INODE_SIZE P) ->
  exists res m',
    vsfs_truncate P m path size now = Some (res, m') /\
    (res = 0 /\ cnt <= k \/ res = - ENOSPC /\ k < cnt) /\
    (res = 0 ->
     i_size m' a = size /\
     i_blocks m' a = new_blocks /\
     load_u64 m' (a + I_MTIME) = u64 (fst now) /\
     load_u64 m' (a + I_MTIME + 8) = u64 (snd now) /\
     sb_free_blocks m' = u32 (sb_free_blocks m - cnt) /\
     count_clear m' fs_dbmap 0 nb = k - cnt /\
     (forall j, 0 <= j < nb -> bitmap_isset m fs_dbmap nb j = true ->
                bitmap_isset m' fs_dbmap nb j = true) /\
     (forall x, zf <= x < zf + zl -> m' x = x00) /\
     (forall j, 0 <= j < VSFS_NUM_DIRECT P ->
                i_direct m' a j = i_direct m a j) /\
     i_indirect P m' a = i_indirect P m a /\
     (forall x, x < zf \/ zf + zl <= x ->
                x < fs_dbmap \/ fs_dbmap + VSFS_BLOCK_SIZE <= x ->
                x < fs_sb + SB_FREE_BLOCKS \/ fs_sb + SB_FREE_BLOCKS + 4 <= x ->
                x < a + I_SIZE \/ a + I_DIRECT <= x ->
                m' x = m x)).
Proof.
  intros Hl Hsize a new_blocks zf zl apart nb k cnt Hfit Hgrow Hne Hnb _ _
         Hz1 Hz2 Hz3.
  unfold apart in *. clear apart.
  pose proof (path_lookup_found_range P m path ino Hl) as Hino.
  pose proof (inode_size_bounds P OK) as HS.
  pose proof (inode_holds_fields P OK) as Hfields. unfold I_INDIRECT in Hfields.
  pose proof (num_direct_min P OK) as Hnd.
  assert (Ha : fs_dbmap + VSFS_BLOCK_SIZE <= a) by (unfold a; layout; nia).
  assert (Hdr : div_round_up size VSFS_BLOCK_SIZE = new_blocks).
  { unfold new_blocks. apply div_round_up_small; unfold VSFS_BLOCK_SIZE in *; lia. }
  assert (Hnbr : 0 <= new_blocks < 2 ^ 32).
  { unfold new_blocks, VSFS_BLOCK_SIZE in *. zlia. }
  assert (Hu : u64 size = size) by (apply u64_small; lia).
  pose proof (load_u64_range m (a + I_SIZE)) as Hsz. fold (i_size m a) in Hsz.
  pose proof (load_u32_range m (a + I_BLOCKS)) as Hbl. fold (i_blocks m a) in Hbl.
  unfold vsfs_truncate. rewrite Hdr, Hl, Hu. cbn [lookup_ino]. fold a.
  destruct (Z.ltb_spec (VSFS_NUM_DIRECT P + VSFS_BLOCK_SIZE / 4) new_blocks);
    [lia|].
  destruct (Z.eqb_spec size (i_size m a)); [contradiction|].
  set (mz := if i_size m a <? size
             then memset m (get_address P m a (i_size m a)) x00
                    (u64 (size - i_size m a))
             else m).
  assert (Fz : forall x, x < zf \/ zf + zl <= x -> mz x = m x).
  { intros x Hx. unfold mz, zl, zf in *.
    destruct (Z.ltb_spec (i_size m a) size); [|reflexivity].
    rewrite u64_small by lia. apply memset_other. exact Hx. }
  assert (Zz : forall x, zf <= x < zf + zl -> mz x = x00).
  { intros x Hx. unfold mz, zl, zf in *.
    destruct (Z.ltb_spec (i_size m a) size); [|lia].
    rewrite u64_small by lia. apply memset_in. exact Hx. }
  assert (Hbz : i_blocks mz a = i_blocks m a).
  { unfold i_blocks. apply load_u32_frame. intros x Hx. apply Fz.
    layout. lia. }
  assert (Hnbz : sb_num_blocks mz = nb).
  { unfold nb, sb_num_blocks. apply load_u32_frame. intros x Hx. apply Fz.
    layout. lia. }
  assert (Hfbz : sb_free_blocks mz = sb_free_blocks m).
  { unfold sb_free_blocks. apply load_u32_frame. intros x Hx. apply Fz.
    layout. lia. }
  assert (Hbitz : forall j, 0 <= j < nb ->
            bitmap_isset mz fs_dbmap nb j = bitmap_isset m fs_dbmap nb j).
  { intros j Hj. apply bitmap_isset_frame. apply Fz. layout. zlia. }
  assert (Hkz : count_clear mz fs_dbmap 0 nb = k).
  { apply count_clear_same. exact Hbitz. }
  clearbody mz.
  unfold truncate_blocks. rewrite Hbz.
  destruct (Z.ltb_spec (i_blocks m a) new_blocks) as [_|]; [|lia].
  set (c := if VSFS_NUM_DIRECT P <? new_blocks - i_blocks m a
            then VSFS_NUM_DIRECT P else new_blocks - i_blocks m a).
  assert (Hc : c = cnt).
  { unfold c, cnt. destruct (Z.ltb_spec (VSFS_NUM_DIRECT P)
                               (new_blocks - i_blocks m a)); lia. }
  assert (Hc0 : 0 <= c) by lia.
  destruct (truncate_alloc (Z.to_nat c) mz) as [[|] ml] eqn:Et.
  - destruct (truncate_alloc_succeeds _ _ _ Et) as (Hk & Hfb & Hcnt & Hmono & _ & Hfr).
    { rewrite Hnbz. exact Hnb. }
    rewrite Hnbz in Hk, Hcnt, Hmono. rewrite Hkz in Hk, Hcnt.
    rewrite Z2Nat.id in Hk, Hfb, Hcnt by lia. rewrite Hc in Hk, Hfb, Hcnt.
    eexists 0, _. split; [reflexivity|]. split; [left; split; [reflexivity|lia]|].
    intros _.
    set (mf := set_mtime _ a now).
    assert (Ff : forall x, x < a + I_SIZE \/ a + I_DIRECT <= x -> mf x = ml x).
    { intros x Hx. unfold mf. to_le. peel_with ltac:(layout; zlia). reflexivity. }
    assert (Fbit : forall j, 0 <= j < nb ->
              bitmap_isset mf fs_dbmap nb j = bitmap_isset ml fs_dbmap nb j).
    { intros j Hj. apply bitmap_isset_frame. apply Ff. layout. zlia. }
    split.
    { unfold i_size, mf. to_le. unfold set_mtime. to_le.
      peel_with ltac:(layout; zlia). rewrite load8_store8.
      apply u64_small. lia. }
    split.
    { unfold i_blocks, mf. to_le. unfold set_mtime. to_le.
      peel_with ltac:(layout; zlia). rewrite load4_store4.
      apply u32_small. lia. }
    split.
    { unfold mf, set_mtime. to_le.
      peel_with ltac:(layout; zlia). apply load8_store8. }
    split.
    { unfold mf, set_mtime. to_le. apply load8_store8. }
    split.
    { unfold sb_free_blocks at 1.
      rewrite (load_u32_frame ml mf) by (intros x Hx; apply Ff; layout; lia).
      fold (sb_free_blocks ml). now rewrite Hfb, Hfbz. }
    split.
    { rewrite (count_clear_same ml mf) by exact Fbit. exact Hcnt. }
    split.
    { intros j Hj Hs. rewrite Fbit by exact Hj. apply Hmono; [lia|].
      rewrite Hbitz by exact Hj. exact Hs. }
    split.
    { intros x Hx. rewrite Ff by (layout; lia). rewrite Hfr by (layout; lia).
      now apply Zz. }
    split.
    { intros j Hj. unfold i_direct.
      rewrite (load_u32_frame ml mf) by (intros x Hx; apply Ff; layout; lia).
      apply load_u32_frame. intros x Hx. rewrite Hfr by (layout; lia).
      apply Fz. layout. lia. }
    split.
    { unfold i_indirect, I_INDIRECT.
      rewrite (load_u32_frame ml mf) by (intros x Hx; apply Ff; layout; lia).
      apply load_u32_frame. intros x Hx. rewrite Hfr by (layout; lia).
      apply Fz. layout. lia. }
    intros x Hx1 Hx2 Hx3 Hx4. rewrite Ff by exact Hx4.
    rewrite Hfr by assumption. now apply Fz.
  - destruct (truncate_alloc_fails _ _ _ Et) as (Hk & _).
    { rewrite Hnbz. exact Hnb. }
    rewrite Hnbz, Hkz in Hk. rewrite Z2Nat.id in Hk by lia. rewrite Hc in Hk.
    eexists (- ENOSPC), _. split; [reflexivity|].
    split; [right; split; [reflexivity|exact Hk]|].
    intros Hz. discriminate.
Qed.

End Truncate_blocks.

Lemma truncate_extends_witness :
  path_lookup std img_a path_a = Found 1 /\
  exists m',
    vsfs_truncate std img_a path_a 1 t0 = Some (0, m') /\
    i_blocks m' (fs_itable std 1) = 1 /\
    sb_free_blocks m' = u32 (sb_free_blocks img_a - 1) /\
    i_direct m' (fs_itable std 1) 0 = i_direct img_a (fs_itable std 1) 0.
Proof.
  assert (Hl : path_lookup std img_a path_a = Found 1)
    by (vm_compute; reflexivity).
  split; [exact Hl|].
  pose proof (truncate_extends std std_ok img_a path_a 1 t0 1 MiB Hl
                ltac:(vm_compute; split; discriminate)) as H.
  cbv zeta in H.
  destruct H as (res & m' & Hr & Hres & Hok).
  - vm_compute. discriminate.
  - vm_compute. reflexivity.
  - vm_compute. discriminate.
  - vm_compute. discriminate.
  - vm_compute. discriminate.
  - vm_compute. discriminate.
  - right; left. vm_compute. discriminate.
  - right; left. vm_compute. discriminate.
  - right; left. vm_compute. discriminate.
  - assert (Hk : count_clear img_a fs_dbmap 0 (sb_num_blocks img_a) = 251)
      by (vm_compute; reflexivity).
    assert (Hcnt : Z.min ((1 + VSFS_BLOCK_SIZE - 1) / VSFS_BLOCK_SIZE
                          - i_blocks img_a (fs_itable std 1))
                     (VSFS_NUM_DIRECT std) = 1)
      by (vm_compute; reflexivity).
    rewrite Hk, Hcnt in Hres. rewrite Hcnt in Hok.
    destruct Hres as [[-> _]|[_ Hlt]]; [|lia].
    destruct (Hok eq_refl) as (_ & Hb & _ & _ & Hfb & _ & _ & _ & Hd & _).
    exists m'. split; [exact Hr|]. split; [exact Hb|]. split; [exact Hfb|].
    apply Hd. vm_compute. split; [discriminate|reflexivity].
Defined.

Section Truncate_shrink.

Variable P : params.
Hypothesis OK : params_ok P.

(** X28.  [vsfs_truncate] of an existing file to a different size of at
    most 2^32 - BLOCK_SIZE bytes that needs no more blocks than the inode
    counts (new_blocks <= block count, new_blocks within the EFBIG limit),
    in an image mapped with [mapped] bytes whose data bitmap fits one block,
    when the range it zero-fills lies inside the mapping and neither over
    num_blocks or free_blocks, nor over the data bitmap, nor over the inode
    of the file.  The call frees cnt = min(block count - new_blocks,
    NUM_DIRECT) blocks, and the blocks it frees are those named by the
    direct pointers i_direct[NUM_DIRECT - 1], i_direct[NUM_DIRECT - 2], ...,
    whatever the block count.  When these cnt pointers are pairwise
    distinct, below num_blocks and marked allocated (the precondition of
    [bitmap_free]), the call returns 0; the inode holds the new size,
    new_blocks and the time of the call; free_blocks is higher by cnt; the
    bits of those pointers are clear and no other bit below num_blocks
    changed; the zero-filled range holds zeros; the pointers of the inode
    are what they were; every other byte outside the data bitmap is
    unchanged. *)
Theorem truncate_shrinks m path size now ino mapped :
  path_lookup P m path = Found ino ->
  0 <= size <= 2 ^ 32 - VSFS_BLOCK_SIZE ->
  let a := fs_itable P ino in
  let new_blocks := (size + VSFS_BLOCK_SIZE - 1) / VSFS_BLOCK_SIZE in
  let zf := get_address P m a (i_size m a) in
  let zl := if i_size m a <? size then size - i_size m a else 0 in
  let apart p q := zl <= 0 \/ zf + zl <= p \/ q <= zf in
  let nb := sb_num_blocks m in
  let cnt := Z.min (i_blocks m a - new_blocks) (VSFS_NUM_DIRECT P) in
  let freed j := i_direct m a (VSFS_NUM_DIRECT P - 1 - j) in
  new_blocks <= VSFS_NUM_DIRECT P + VSFS_BLOCK_SIZE / 4 ->
  new_blocks <= i_blocks m a ->
  size <> i_size m a ->
  nb <= 8 * VSFS_BLOCK_SIZE ->
  a + INODE_SIZE P <= mapped ->
  zf + zl <= mapped ->
  apart (fs_sb + SB_NUM_BLOCKS) (fs_sb + SB_FREE_BLOCKS + 4) ->
  apart fs_dbmap (fs_dbmap + VSFS_BLOCK_SIZE) ->
  apart a (a + INODE_SIZE P) ->
  (forall j, 0 <= j < cnt ->
     freed j < nb /\ bitmap_isset m fs_dbmap nb (freed j) = true) ->
  (forall j j', 0 <= j < cnt -> 0 <= j' < cnt -> freed j = freed j' -> j = j') ->
  exists m',
    vsfs_truncate P m path size now = Some (0, m') /\
    i_size m' a = size /\
    i_blocks m' a = new_blocks /\
    load_u64 m' (a + I_MTIME) = u64 (fst now) /\
    load_u64 m' (a + I_MTIME + 8) = u64 (snd now) /\
    sb_free_blocks m' = u32 (sb_free_blocks m + cnt) /\
    (forall j, 0 <= j < cnt -> bitmap_isset m' fs_dbmap nb (freed j) = false) /\
    (forall b, 0 <= b < nb -> (forall j, 0 <= j < cnt -> freed j <> b) ->
               bitmap_isset m' fs_dbmap nb b = bitmap_isset m fs_dbmap nb b) /\
    (forall x, zf <= x < zf + zl -> m' x = x00) /\
    (forall j, 0 <= j < VSFS_NUM_DIRECT P ->
               i_direct m' a j = i_direct m a j) /\
    i_indirect P m' a = i_indirect P m a /\
    (forall x, x < zf \/ zf + zl <= x ->
               x < fs_dbmap \/ fs_dbmap + VSFS_BLOCK_SIZE <= x ->
               x < fs_sb + SB_FREE_BLOCKS \/ fs_sb + SB_FREE_BLOCKS + 4 <= x ->
               x < a + I_SIZE \/ a + I_DIRECT <= x ->
               m' x = m x).
Proof.
  intros Hl Hsize a new_blocks zf zl apart nb cnt freed Hfit Hshrink Hne Hnb
         _ _ Hz1 Hz2 Hz3 Hset Hdist.
  unfold apart in *. clear apart.
  pose proof (path_lookup_found_range P m path ino Hl) as Hino.
  pose proof (inode_size_bounds P OK) as HS.
  pose proof (inode_holds_fields P OK) as Hfields. unfold I_INDIRECT in Hfields.
  pose proof (num_direct_min P OK) as Hnd.
  assert (Ha : fs_dbmap + VSFS_BLOCK_SIZE <= a) by (unfold a; layout; nia).
  assert (Ha' : VSFS_ITBL_BLKNUM * VSFS_BLOCK_SIZE <= a)
    by (unfold a, fs_itable; nia).
  assert (Hdr : div_round_up size VSFS_BLOCK_SIZE = new_blocks).
  { unfold new_blocks. apply div_round_up_small; unfold VSFS_BLOCK_SIZE in *; lia. }
  assert (Hnbr : 0 <= new_blocks < 2 ^ 32).
  { unfold new_blocks, VSFS_BLOCK_SIZE in *. zlia. }
  assert (Hu : u64 size = size) by (apply u64_small; lia).
  pose proof (load_u64_range m (a + I_SIZE)) as Hsz. fold (i_size m a) in Hsz.
  pose proof (load_u32_range m (a + I_BLOCKS)) as Hbl. fold (i_blocks m a) in Hbl.
  unfold vsfs_truncate. rewrite Hdr, Hl, Hu. cbn [lookup_ino]. fold a.
  destruct (Z.ltb_spec (VSFS_NUM_DIRECT P + VSFS_BLOCK_SIZE / 4) new_blocks);
    [lia|].
  destruct (Z.eqb_spec size (i_size m a)); [contradiction|].
  set (mz := if i_size m a <? size
             then memset m (get_address P m a (i_size m a)) x00
                    (u64 (size - i_size m a))
             else m).
  assert (Fz : forall x, x < zf \/ zf + zl <= x -> mz x = m x).
  { intros x Hx. unfold mz, zl, zf in *.
    destruct (Z.ltb_spec (i_size m a) size); [|reflexivity].
    rewrite u64_small by lia. apply memset_other. exact Hx. }
  assert (Zz : forall x, zf <= x < zf + zl -> mz x = x00).
  { intros x Hx. unfold mz, zl, zf in *.
    destruct (Z.ltb_spec (i_size m a) size); [|lia].
    rewrite u64_small by lia. apply memset_in. exact Hx. }
  assert (Hbz : i_blocks mz a = i_blocks m a).
  { unfold i_blocks. apply load_u32_frame. intros x Hx. apply Fz.
    layout. lia. }
  assert (Hnbz : sb_num_blocks mz = nb).
  { unfold nb, sb_num_blocks. apply load_u32_frame. intros x Hx. apply Fz.
    layout. lia. }
  assert (Hfbz : sb_free_blocks mz = sb_free_blocks m).
  { unfold sb_free_blocks. apply load_u32_frame. intros x Hx. apply Fz.
    layout. lia. }
  assert (Hbitz : forall j, 0 <= j < nb ->
            bitmap_isset mz fs_dbmap nb j = bitmap_isset m fs_dbmap nb j).
  { intros j Hj. apply bitmap_isset_frame. apply Fz. layout. zlia. }
  assert (Hdz : forall j, 0 <= j < VSFS_NUM_DIRECT P ->
            i_direct mz a j = i_direct m a j).
  { intros j Hj. unfold i_direct. apply load_u32_frame. intros x Hx.
    apply Fz. layout. lia. }
  clearbody mz.
  unfold truncate_blocks. rewrite Hbz.
  destruct (Z.ltb_spec (i_blocks m a) new_blocks) as [|_]; [lia|].
  set (c := if VSFS_NUM_DIRECT P <? i_blocks m a - new_blocks
            then VSFS_NUM_DIRECT P else i_blocks m a - new_blocks).
  assert (Hc : c = cnt).
  { unfold c, cnt. destruct (Z.ltb_spec (VSFS_NUM_DIRECT P)
                               (i_blocks m a - new_blocks)); lia. }
  assert (Hc0 : 0 <= c <= VSFS_NUM_DIRECT P) by lia.
  assert (Hfreed : forall j, 0 <= j < cnt -> 0 <= freed j).
  { intros j Hj. unfold freed, i_direct. apply load_u32_range. }
  destruct (truncate_free_run P a nb freed Ha' (Z.to_nat c) 0 mz)
    as (ml & Hrun & Hfb & Hfr & Hclr & Hoth).
  { lia. }
  { rewrite Z2Nat.id by lia. lia. }
  { intros j Hj. rewrite Z2Nat.id in Hj by lia. apply Hdz. lia. }
  { exact Hnbz. }
  { intros j Hj. rewrite Z2Nat.id in Hj by lia.
    destruct (Hset j ltac:(lia)) as [H1 H2].
    pose proof (Hfreed j ltac:(lia)).
    split; [lia|]. split; [lia|].
    change (bitmap_isset mz fs_dbmap 0 (freed j))
      with (bitmap_isset mz fs_dbmap nb (freed j)).
    rewrite Hbitz by lia. exact H2. }
  { intros j j' Hj Hj'. rewrite Z2Nat.id in Hj, Hj' by lia.
    apply Hdist; lia. }
  rewrite Z2Nat.id in Hfb, Hclr, Hoth by lia.
  rewrite Hc in Hfb, Hclr, Hoth. rewrite Hrun.
  eexists. split; [reflexivity|].
  set (mf := set_mtime _ a now).
  assert (Ff : forall x, x < a + I_SIZE \/ a + I_DIRECT <= x -> mf x = ml x).
  { intros x Hx. unfold mf. to_le. peel_with ltac:(layout; zlia). reflexivity. }
  assert (Fbit : forall j, 0 <= j < nb ->
            bitmap_isset mf fs_dbmap nb j = bitmap_isset ml fs_dbmap nb j).
  { intros j Hj. apply bitmap_isset_frame. apply Ff. layout. zlia. }
  split.
  { unfold i_size, mf. to_le. unfold set_mtime. to_le.
    peel_with ltac:(layout; zlia). rewrite load8_store8.
    apply u64_small. lia. }
  split.
  { unfold i_blocks, mf. to_le. unfold set_mtime. to_le.
    peel_with ltac:(layout; zlia). rewrite load4_store4.
    apply u32_small. lia. }
  split.
  { unfold mf, set_mtime. to_le.
    peel_with ltac:(layout; zlia). apply load8_store8. }
  split.
  { unfold mf, set_mtime. to_le. apply load8_store8. }
  split.
  { unfold sb_free_blocks at 1.
    rewrite (load_u32_frame ml mf) by (intros x Hx; apply Ff; layout; lia).
    fold (sb_free_blocks ml). now rewrite Hfb, Hfbz. }
  split.
  { intros j Hj. destruct (Hset j Hj) as [H1 _].
    pose proof (Hfreed j Hj).
    rewrite Fbit by lia. apply (Hclr j). lia. }
  split.
  { intros b Hb Hnot. rewrite Fbit by exact Hb.
    change (bitmap_isset ml fs_dbmap nb b) with (bitmap_isset ml fs_dbmap 0 b).
    rewrite Hoth; [|lia|intros j Hj; apply Hnot; lia].
    change (bitmap_isset mz fs_dbmap 0 b) with (bitmap_isset mz fs_dbmap nb b).
    now apply Hbitz. }
  split.
  { intros x Hx. rewrite Ff by (layout; lia). rewrite Hfr by (layout; lia).
    now apply Zz. }
  split.
  { intros j Hj. unfold i_direct.
    rewrite (load_u32_frame ml mf) by (intros x Hx; apply Ff; layout; lia).
    rewrite (load_u32_frame mz ml)
      by (intros x Hx; apply Hfr; layout; lia).
    now apply Hdz. }
  split.
  { unfold i_indirect, I_INDIRECT.
    rewrite (load_u32_frame ml mf) by (intros x Hx; apply Ff; layout; lia).
    apply load_u32_frame. intros x Hx. rewrite Hfr by (layout; lia).
    apply Fz. layout. lia. }
  intros x Hx1 Hx2 Hx3 Hx4. rewrite Ff by exact Hx4.
  rewrite Hfr by assumption. now apply Fz.
Qed.

End Truncate_shrink.

Lemma truncate_shrinks_witness :
  path_lookup std img_a1 path_a = Found 1 /\
  i_blocks img_a1 (fs_itable std 1) = 1 /\
  i_direct img_a1 (fs_itable std 1) 4 = 0 /\
  exists m',
    vsfs_truncate std img_a1 path_a 0 t0 = Some (0, m') /\
    i_blocks m' (fs_itable std 1) = 0 /\
    sb_free_blocks m' = u32 (sb_free_blocks img_a1 + 1) /\
    bitmap_isset m' fs_dbmap (sb_num_blocks img_a1) 0 = false.
Proof.
  assert (Hl : path_lookup std img_a1 path_a = Found 1)
    by (vm_compute; reflexivity).
  assert (Hb : i_blocks img_a1 (fs_itable std 1) = 1)
    by (vm_compute; reflexivity).
  assert (Hd : i_direct img_a1 (fs_itable std 1) 4 = 0)
    by (vm_compute; reflexivity).
  assert (Hcnt : Z.min (i_blocks img_a1 (fs_itable std 1)
                        - (0 + VSFS_BLOCK_SIZE - 1) / VSFS_BLOCK_SIZE)
                   (VSFS_NUM_DIRECT std) = 1)
    by (vm_compute; reflexivity).
  split; [exact Hl|]. split; [exact Hb|]. split; [exact Hd|].
  pose proof (truncate_shrinks std std_ok img_a1 path_a 0 t0 1 MiB Hl
                ltac:(vm_compute; split; discriminate)) as H.
  cbv zeta in H. rewrite Hcnt in H.
  destruct H as (m' & Hr & _ & Hbl & _ & _ & Hfb & Hclr & _).
  - vm_compute. discriminate.
  - vm_compute. discriminate.
  - vm_compute. discriminate.
  - vm_compute. discriminate.
  - vm_compute. discriminate.
  - vm_compute. discriminate.
  - left. vm_compute. discriminate.
  - left. vm_compute. discriminate.
  - left. vm_compute. discriminate.
  - intros j Hj. assert (j = 0) by lia. subst j.
    split; vm_compute; reflexivity.
  - intros j j' Hj Hj' _. lia.
  - exists m'. split; [exact Hr|]. split; [exact Hbl|]. split; [exact Hfb|].
    specialize (Hclr 0 ltac:(lia)).
    change (VSFS_NUM_DIRECT std - 1 - 0) with 4 in Hclr.
    rewrite Hd in Hclr. exact Hclr.
Defined.

(** ** Removing a file: bitmaps and counters *)

Section Unlink_frees.

Variable P : params.
Hypothesis OK : params_ok P.

(** X29.  [vsfs_unlink] of an existing file other than the root, of at most
    NUM_DIRECT blocks, in an image mapped with [mapped] bytes whose inode
    table lies below the root directory block and that block inside the
    mapping, when every call of [bitmap_free] meets its precondition: the
    bit of the inode is set if the link count reaches 0, and the direct
    pointers below the block count are pairwise distinct, below num_blocks,
    inside the one-block data bitmap and marked allocated.  The call returns
    0 and lowers the link count by one.  If the count reaches 0 the bit of
    the inode is cleared and free_inodes is one higher; otherwise both are
    unchanged.  Whatever the link count, the bits of the direct pointers
    below the block count are cleared, no other bit of the data bitmap
    changes, and free_blocks is higher by the block count.  The first slot
    of the root directory that carries the name gets the inode number
    INO_MAX. *)
Theorem unlink_frees m path now ino mapped :
  path_lookup P m path = Found ino ->
  is_root_path path = false ->
  let a := fs_itable P ino in
  let bc := i_blocks m a in
  let root_dir := i_direct m (fs_itable P 0) 0 in
  0 < ino < sb_num_inodes m ->
  sb_num_inodes m <= 8 * VSFS_BLOCK_SIZE ->
  VSFS_ITBL_BLKNUM * VSFS_BLOCK_SIZE + sb_num_inodes m * INODE_SIZE P
    <= root_dir * VSFS_BLOCK_SIZE ->
  root_dir * VSFS_BLOCK_SIZE + VSFS_BLOCK_SIZE <= mapped ->
  bc <= VSFS_NUM_DIRECT P ->
  (forall k, 0 <= k < bc -> i_direct m a k < 8 * VSFS_BLOCK_SIZE) ->
  (u32 (i_nlink m a - 1) = 0 ->
   bitmap_isset m fs_ibmap (sb_num_inodes m) ino = true) ->
  (forall k, 0 <= k < bc ->
     i_direct m a k < sb_num_blocks m /\
     bitmap_isset m fs_dbmap (sb_num_blocks m) (i_direct m a k) = true) ->
  (forall j k, 0 <= j < bc -> 0 <= k < bc ->
     i_direct m a j = i_direct m a k -> j = k) ->
  exists i0 m',
    first_slot (name_matches P m path) (Z.to_nat (NUM_DENTRIES P)) 0 = Some i0 /\
    vsfs_unlink P m path now = Some (0, m') /\
    i_nlink m' a = u32 (i_nlink m a - 1) /\
    (u32 (i_nlink m a - 1) = 0 ->
     bitmap_isset m' fs_ibmap (sb_num_inodes m) ino = false /\
     sb_free_inodes m' = u32 (sb_free_inodes m + 1)) /\
    (u32 (i_nlink m a - 1) <> 0 ->
     bitmap_isset m' fs_ibmap (sb_num_inodes m) ino
     = bitmap_isset m fs_ibmap (sb_num_inodes m) ino /\
     sb_free_inodes m' = sb_free_inodes m) /\
    sb_free_blocks m' = u32 (sb_free_blocks m + bc) /\
    (forall k, 0 <= k < bc ->
       bitmap_isset m' fs_dbmap (sb_num_blocks m) (i_direct m a k) = false) /\
    (forall j, 0 <= j < 8 * VSFS_BLOCK_SIZE ->
       (forall k, 0 <= k < bc -> i_direct m a k <> j) ->
       bitmap_isset m' fs_dbmap (sb_num_blocks m) j
       = bitmap_isset m fs_dbmap (sb_num_blocks m) j) /\
    dentry_ino P m' i0 = VSFS_INO_MAX P.
Proof.
  intros Hl Hnr a bc root_dir Hino Hnum Hdir _ Hbc Hptr Hibit Hdset Hdapart.
  destruct (unlink_effect P OK m path now ino Hl Hnr Hino Hnum Hdir Hbc Hptr
              Hibit Hdset Hdapart)
    as (i0 & m' & Hscan & _ & Hr & Hn & Hz & Hnz & Hfb & Hclr & Hoth & Hslot & _).
  exists i0, m'. repeat (split; [assumption|]). exact Hslot.
Qed.

End Unlink_frees.

Lemma unlink_frees_witness :
  path_lookup std img_a1 path_a = Found 1 /\
  i_blocks img_a1 (fs_itable std 1) = 1 /\
  exists m',
    vsfs_unlink std img_a1 path_a t0 = Some (0, m') /\
    sb_free_inodes m' = u32 (sb_free_inodes img_a1 + 1) /\
    sb_free_blocks m' = u32 (sb_free_blocks img_a1 + 1) /\
    dentry_ino std m' 2 = VSFS_INO_MAX std.
Proof.
  assert (Hl : path_lookup std img_a1 path_a = Found 1)
    by (vm_compute; reflexivity).
  assert (Hb : i_blocks img_a1 (fs_itable std 1) = 1)
    by (vm_compute; reflexivity).
  assert (Hs : first_slot (name_matches std img_a1 path_a)
                 (Z.to_nat (NUM_DENTRIES std)) 0 = Some 2)
    by (vm_compute; reflexivity).
  split; [exact Hl|]. split; [exact Hb|].
  pose proof (unlink_frees std std_ok img_a1 path_a t0 1 MiB Hl
                ltac:(reflexivity)) as H.
  cbv zeta in H. rewrite Hb in H.
  destruct H as (i0 & m' & Hscan & Hr & _ & Hz & _ & Hfb & _ & _ & Hslot).
  - vm_compute. split; reflexivity.
  - vm_compute. discriminate.
  - vm_compute. discriminate.
  - vm_compute. discriminate.
  - vm_compute. discriminate.
  - intros k Hk. assert (k = 0) by lia. subst k. vm_compute. reflexivity.
  - intros _. vm_compute. reflexivity.
  - intros k Hk. assert (k = 0) by lia. subst k.
    split; vm_compute; reflexivity.
  - intros j k Hj Hk _. lia.
  - rewrite Hs in Hscan. inversion Hscan; subst i0.
    exists m'. split; [exact Hr|]. split.
    + apply Hz. vm_compute. reflexivity.
    + split; [exact Hfb|exact Hslot].
Defined.
